(** * A model of the bookmark rendering engine

    This development follows [backend/app/services/bookmark_generator.py],
    [backend/app/models/schemas.py] and [backend/app/core/config.py].  A
    definition that transcribes a Python function carries its name.

    Conventions.
    - Python [int] is [Z]; floor division [//] is [Z.div].
    - In the generator a Python [float] is an exact rational ([Q]) and
      [int(x)] truncates toward zero; what is established there are bounds,
      sizes and relations between program functions, not the value of a
      rounded quotient.
    - The pixel sizes of [Settings] are computed as the code computes them,
      in binary64 ([PrimFloat]): [(mm / 25.4) * dpi] rounds twice before
      [int] truncates, so 67.1 mm at 254 DPI is 670 pixels, not 671.
    - A raised exception is a value of [Py.result]; stateful code runs in
      the monad [M], whose state survives a raise, so that [try]/[except]
      sees what was done before the exception.
    - Pillow is not part of the repository.  Images are terms built from the
      Pillow calls the code performs ([picture]); two equal terms denote the
      same pixels.  What Pillow decides on its own (which colour strings it
      accepts, how wide a text is) is an interface, [Pillow]. *)

From Stdlib Require Import PrimFloat SpecFloat FloatOps.
From Stdlib Require Import ZArith QArith Qabs Qround List String Ascii Lia Bool Lqa.
From Stdlib Require Import HexadecimalString.
From stdpp Require Import base gmap strings list.

Local Open Scope Z_scope.

(** ** Python values *)

Module Py.

Inductive exn : Type :=
| IndexError
| ValueError
| ZeroDivisionError
| FileNotFoundError
| UnidentifiedImageError
| OSError.

Inductive result (A : Type) : Type :=
| Ok (a : A)
| Raise (e : exn).
Arguments Ok {A} a.
Arguments Raise {A} e.

Definition bind {A B : Type} (m : result A) (f : A -> result B) : result B :=
  match m with
  | Ok a => f a
  | Raise e => Raise e
  end.

(** [len(l)] *)
Definition len {A : Type} (l : list A) : Z := Z.of_nat (length l).

(** [l[i]]: a negative index counts from the end, anything outside the list
    raises [IndexError]. *)
Definition getitem {A : Type} (l : list A) (i : Z) : result A :=
  let j := if i <? 0 then i + len l else i in
  if j <? 0 then Raise IndexError
  else match l !! Z.to_nat j with
       | Some a => Ok a
       | None => Raise IndexError
       end.

(** [int(x)] for a float [x]: truncation toward zero. *)
Definition int_of_float (x : Q) : Z :=
  if Qle_bool 0 x then Qfloor x else Qceiling x.

(** A binary64 [float].  [float(n)] for an [int] [n] rounds to the nearest
    float, ties to even. *)
Definition float_of_int (n : Z) : float :=
  SF2Prim (binary_normalize prec emax n 0 false).

(** [int(x)] for a binary64 [x]: the finite value [m * 2^e] truncated toward
    zero.  On an infinity or a NaN Python raises [OverflowError] or
    [ValueError]; the value here is then 0, and what is stated of a size
    computed by [int] is stated for a finite product or for a size of at
    least one pixel. *)
Definition int_of_binary64 (x : float) : Z :=
  match Prim2SF x with
  | S754_finite sign m e =>
      let magnitude :=
        match e with
        | Z0 => Z.pos m
        | Zpos p => Z.pos m * 2 ^ Z.pos p
        | Zneg p => Z.pos m / 2 ^ Z.pos p
        end in
      if sign then - magnitude else magnitude
  | _ => 0
  end.

(** The rational number a finite binary64 stands for. *)
Definition float_value (x : float) : Q :=
  match Prim2SF x with
  | S754_finite sign m e =>
      let magnitude := (inject_Z (Z.pos m) * Qpower 2 e)%Q in
      if sign then (- magnitude)%Q else magnitude
  | _ => 0%Q
  end.

(** [a / b] (true division). *)
Definition truediv (a b : Q) : result Q :=
  if Qeq_bool b 0 then Raise ZeroDivisionError else Ok (a / b)%Q.

Definition Qltb (a b : Q) : bool := negb (Qle_bool b a).

(** [min(a, b)] and [max(a, b)] return their first argument unless the
    second is strictly smaller (larger). *)
Definition min (a b : Q) : Q := if Qltb b a then b else a.
Definition max (a b : Q) : Q := if Qltb a b then b else a.

(** [s.lstrip(ch)] for a one-character [ch]. *)
Fixpoint lstrip (ch : ascii) (s : string) : string :=
  match s with
  | EmptyString => EmptyString
  | String c r => if Ascii.eqb c ch then lstrip ch r else s
  end.

Definition hex_digit (c : ascii) : option Z :=
  let n := Z.of_N (N_of_ascii c) in
  if (48 <=? n) && (n <=? 57) then Some (n - 48)
  else if (65 <=? n) && (n <=? 70) then Some (n - 55)
  else if (97 <=? n) && (n <=? 102) then Some (n - 87)
  else None.

Fixpoint int16_digits (acc : Z) (s : string) : result Z :=
  match s with
  | EmptyString => Ok acc
  | String c r =>
      match hex_digit c with
      | Some d => int16_digits (16 * acc + d) r
      | None => Raise ValueError
      end
  end.

(** [int(s, 16)] on a string of hexadecimal digits.  Python also accepts
    surrounding blanks, a sign, a [0x] prefix and single underscores
    between digits; colour strings never have them and they are answered
    by [ValueError] here. *)
Definition int16 (s : string) : result Z :=
  match s with
  | EmptyString => Raise ValueError
  | _ => int16_digits 0 s
  end.

(** [s[i:i+n]] for [0 <= i]; slices are clipped to the string. *)
Definition slice (i n : nat) (s : string) : string := substring i n s.

(** [range(n)] *)
Definition range (n : Z) : list Z := Z.of_nat <$> seq 0 (Z.to_nat n).

(** [enumerate(l)] *)
Definition enumerate {A : Type} (l : list A) : list (Z * A) :=
  zip (range (len l)) l.

(** [l[i:j]] for [0 <= i]; clipped to the list. *)
Definition slice_list {A : Type} (i j : Z) (l : list A) : list A :=
  take (Z.to_nat (j - i)) (drop (Z.to_nat i) l).

End Py.

Import Py.

#[global] Instance result_ret : MRet result := @Ok.
#[global] Instance result_bind : MBind result := fun A B f m => Py.bind m f.

(** ** Colours *)

Definition rgb : Type := Z * Z * Z.

(** [BookmarkGenerator._hex_to_rgb] *)
Definition _hex_to_rgb (hex_color : string) : result rgb :=
  let hex_color := lstrip "#" hex_color in
  r ← int16 (slice 0 2 hex_color);
  g ← int16 (slice 2 2 hex_color);
  b ← int16 (slice 4 2 hex_color);
  mret (r, g, b).

(** [BookmarkGenerator._interpolate_color] *)
Definition _interpolate_color (colors : list string) (ratio : Q) : result rgb :=
  let ratio := Py.max 0 (Py.min 1 ratio) in
  if len colors =? 1 then
    c ← getitem colors 0; _hex_to_rgb c
  else
    let num_segments := len colors - 1 in
    let segment := (ratio * inject_Z num_segments)%Q in
    let idx := int_of_float segment in
    let local_ratio := (segment - inject_Z idx)%Q in
    c1 ← getitem colors idx;
    color1 ← _hex_to_rgb c1;
    c2 ← getitem colors (Z.min (idx + 1) (len colors - 1));
    color2 ← _hex_to_rgb c2;
    let '(r1, g1, b1) := color1 in
    let '(r2, g2, b2) := color2 in
    let r := int_of_float (inject_Z r1 + inject_Z (r2 - r1) * local_ratio)%Q in
    let g := int_of_float (inject_Z g1 + inject_Z (g2 - g1) * local_ratio)%Q in
    let b := int_of_float (inject_Z b1 + inject_Z (b2 - b1) * local_ratio)%Q in
    mret (r, g, b).

(** A colour the palette may hold: six hexadecimal digits, with or without
    leading [#] signs ([_hex_to_rgb] strips them). *)
Definition is_hex (c : ascii) : bool :=
  match hex_digit c with Some _ => true | None => false end.

Definition six_hex_digits (s : string) : bool :=
  match s with
  | String a (String b (String c (String d (String e (String f EmptyString))))) =>
      is_hex a && is_hex b && is_hex c && is_hex d && is_hex e && is_hex f
  | _ => false
  end.

Definition valid_color (s : string) : bool := six_hex_digits (lstrip "#" s).


(** The format specification [02X]: upper-case hexadecimal, sign first,
    padded with zeros to two characters. *)
Definition upper (c : ascii) : ascii :=
  let n := N_of_ascii c in
  if ((97 <=? n) && (n <=? 122))%N then ascii_of_N (n - 32) else c.

Fixpoint str_upper (s : string) : string :=
  match s with
  | EmptyString => EmptyString
  | String c r => String (upper c) (str_upper r)
  end.

Definition format_02X (n : Z) : string :=
  let digits :=
    str_upper (HexadecimalString.NilZero.string_of_uint (N.to_hex_uint (Z.abs_N n))) in
  if n <? 0 then "-" +:+ digits
  else if (String.length digits <? 2)%nat then "0" +:+ digits
  else digits.

(** [BookmarkGenerator._lighten_color] *)
Definition _lighten_color (hex_color : string) (percent : Z) : result string :=
  '(r, g, b) ← _hex_to_rgb hex_color;
  let factor := (1 + inject_Z percent / 100)%Q in
  let r := Z.min 255 (int_of_float (inject_Z r * factor)) in
  let g := Z.min 255 (int_of_float (inject_Z g * factor)) in
  let b := Z.min 255 (int_of_float (inject_Z b * factor)) in
  mret ("#" +:+ format_02X r +:+ format_02X g +:+ format_02X b).

(** ** Pillow images

    An image is the term of the Pillow calls that produced it.  [Decoded]
    stands for the pixels stored in a file. *)

Inductive color : Type :=
| ColorName (s : string)
| ColorRGB (c : rgb).

Record font : Type := { font_file : string; font_size : Z }.

(** User text is a sequence of Unicode code points. *)
Definition text : Type := list N.

Inductive draw_op : Type :=
| Rectangle (x0 y0 x1 y1 : Z) (fill outline : option color) (width : Z)
| Line (points : list (Z * Z)) (fill : color) (width : Z)
| Ellipse (x0 y0 x1 y1 : Z) (fill : color)
| Text (x y : Z) (s : text) (fill : color) (f : font).

Inductive picture : Type :=
| New (mode : string) (w h : Z) (c : color)
| Decoded (mode : string) (w h : Z) (pixels : N)
| Crop (p : picture) (left upper right lower : Z)
| Resize (p : picture) (w h : Z)
| Convert (p : picture) (mode : string)
| Paste (dst src : picture) (x y : Z)
| PasteMask (dst src : picture) (x y : Z) (mask : picture)
| Fill (p : picture) (c : rgb) (left upper right lower : Z)
| PutPixel (p : picture) (x y : Z) (c : rgb)
| ScaleAlpha (p : picture) (opacity : Q)
| Draw (p : picture) (op : draw_op).

(** [image.size] *)
Fixpoint image_size (p : picture) : Z * Z :=
  match p with
  | New _ w h _ => (w, h)
  | Decoded _ w h _ => (w, h)
  | Crop _ l u r b => (r - l, b - u)
  | Resize _ w h => (w, h)
  | Convert q _ => image_size q
  | Paste dst _ _ _ => image_size dst
  | PasteMask dst _ _ _ _ => image_size dst
  | Fill q _ _ _ _ _ => image_size q
  | PutPixel q _ _ _ => image_size q
  | ScaleAlpha q _ => image_size q
  | Draw q _ => image_size q
  end.

(** [image.mode] *)
Fixpoint image_mode (p : picture) : string :=
  match p with
  | New m _ _ _ => m
  | Decoded m _ _ _ => m
  | Crop q _ _ _ _ => image_mode q
  | Resize q _ _ => image_mode q
  | Convert _ m => m
  | Paste dst _ _ _ => image_mode dst
  | PasteMask dst _ _ _ _ => image_mode dst
  | Fill q _ _ _ _ _ => image_mode q
  | PutPixel q _ _ _ => image_mode q
  | ScaleAlpha q _ => image_mode q
  | Draw q _ => image_mode q
  end.

Definition image_width (p : picture) : Z := fst (image_size p).
Definition image_height (p : picture) : Z := snd (image_size p).

(** The colour strings every Pillow release parses: [#rrggbb]. *)
Definition hash_rrggbb (s : string) : bool :=
  match s with
  | String c r => Ascii.eqb c "#" && six_hex_digits r
  | EmptyString => false
  end.

(** What the model takes from Pillow as given: which colour strings
    [ImageColor.getrgb] accepts (it raises [ValueError] on the others) and
    what [ImageDraw.textbbox((0, 0), s, font)] measures, the font that
    [ImageFont.load_default()] returns; and from the Python library
    [math.sqrt]. *)
Class Pillow : Type := {
  getrgb_ok : string -> bool;
  getrgb_hex : forall s, hash_rrggbb s = true -> getrgb_ok s = true;
  textbbox : font -> text -> Z * Z * Z * Z;
  load_default : font;
  math_sqrt : Q -> Q
}.

(** [Image.crop(box)]: a box whose right (lower) edge lies before its left
    (upper) edge is refused. *)
Definition crop (p : picture) (l u r b : Z) : result picture :=
  if (r <? l) || (b <? u) then Raise ValueError else Ok (Crop p l u r b).

(** [Image.resize((w, h), LANCZOS)]: a request for the size the image already
    has returns a copy; otherwise both sides must be at least 1. *)
Definition resize (p : picture) (w h : Z) : result picture :=
  if (image_width p =? w) && (image_height p =? h) then Ok p
  else if (w <? 1) || (h <? 1) then Raise ValueError
  else Ok (Resize p w h).

(** [BookmarkGenerator._fit_image_to_zone] *)
Definition _fit_image_to_zone (image : picture) (target_width target_height : Z)
    : result picture :=
  target_ratio ← truediv (inject_Z target_width) (inject_Z target_height);
  img_ratio ← truediv (inject_Z (image_width image)) (inject_Z (image_height image));
  if Qltb (Qabs (target_ratio - img_ratio)) (1 # 10) then
    resize image target_width target_height
  else
    cropped ←
      (if Qltb target_ratio img_ratio then
         let new_width := int_of_float (inject_Z (image_height image) * target_ratio) in
         let left := (image_width image - new_width) / 2 in
         crop image left 0 (left + new_width) (image_height image)
       else
         h ← truediv (inject_Z (image_width image)) target_ratio;
         let new_height := int_of_float h in
         let top := (image_height image - new_height) / 2 in
         crop image 0 top (image_width image) (top + new_height));
    resize cropped target_width target_height.

(** ** The files and the log *)

Inductive file : Type :=
| ImageFile (format : string) (dpi : Z) (p : picture)
| FontFile
| OtherFile.

Inductive level : Type := WARNING | ERROR.

(** [canvas] is the image the live [ImageDraw] handle draws on;
    [unwritable] holds the paths at which [Image.save] fails.  Of the log
    only warnings and errors are kept, by their fixed text. *)
Record state : Type := {
  fs : gmap string file;
  unwritable : gset string;
  log : list (level * string);
  canvas : picture
}.

Definition set_canvas (p : picture) (s : state) : state :=
  {| fs := fs s; unwritable := unwritable s; log := log s; canvas := p |}.

Definition set_fs (m : gmap string file) (s : state) : state :=
  {| fs := m; unwritable := unwritable s; log := log s; canvas := canvas s |}.

Definition add_log (l : level) (msg : string) (s : state) : state :=
  {| fs := fs s; unwritable := unwritable s; log := log s ++ [(l, msg)];
     canvas := canvas s |}.

(** Stateful code: the state is kept when an exception is raised. *)
Definition M (A : Type) : Type := state -> result A * state.

#[global] Instance M_ret : MRet M := fun A a s => (Ok a, s).
#[global] Instance M_bind : MBind M := fun A B f m s =>
  match m s with
  | (Ok a, s') => f a s'
  | (Raise e, s') => (Raise e, s')
  end.

Definition lift {A : Type} (r : result A) : M A := fun s => (r, s).
Definition raise {A : Type} (e : exn) : M A := lift (Raise e).
Definition get : M state := fun s => (Ok s, s).
Definition modify (f : state -> state) : M unit := fun s => (Ok tt, f s).

(** [try: body except Exception as e: handler] *)
Definition try_except {A : Type} (body : M A) (handler : exn -> M A) : M A :=
  fun s =>
    match body s with
    | (Ok a, s') => (Ok a, s')
    | (Raise e, s') => handler e s'
    end.

(** [for x in l: body] *)
Fixpoint for_ {A : Type} (l : list A) (body : A -> M unit) : M unit :=
  match l with
  | [] => mret tt
  | x :: l' => body x ;; for_ l' body
  end.

(** A loop that carries a variable: [for x in l: b = body(b, x)] *)
Fixpoint fold_M {A B : Type} (body : B -> A -> M B) (l : list A) (b : B) : M B :=
  match l with
  | [] => mret b
  | x :: l' => b' ← body b x; fold_M body l' b'
  end.

(** [logger.warning] and [logger.error] *)
Definition logger (l : level) (msg : string) : M unit := modify (add_log l msg).

(** ** Request schemas ([app/models/schemas.py]) *)

Inductive MoodType : Type :=
| WARM | FRESH | PROFESSIONAL | PLAYFUL | ELEGANT | MODERN | ARTISTIC.

Inductive LayoutType : Type :=
| LAYOUT_HORIZONTAL   (* "left-right" *)
| LAYOUT_VERTICAL     (* "top-bottom" *)
| CENTERED            (* "center-focused" *)
| MOSAIC              (* "mosaic-grid" *)
| FULL_BLEED.         (* "full-bleed-image" *)

Inductive BackgroundType : Type := SOLID | GRADIENT | IMAGE.

Inductive GradientDirection : Type :=
| GRADIENT_HORIZONTAL | GRADIENT_VERTICAL | DIAGONAL | RADIAL.

Inductive TextDirection : Type := HORIZONTAL | VERTICAL.

Inductive TextAlignment : Type := LEFT | CENTER | RIGHT.

Inductive FontSize : Type := SMALL | MEDIUM | LARGE | EXTRA_LARGE.

Record GradientBackground : Type := {
  gradient_direction : GradientDirection;
  gradient_colors : list string;
  gradient_angle : Q
}.

Record ImageBackground : Type := {
  image_path : string;
  opacity : Q;
  fit_mode : string
}.

Record SolidBackground : Type := { solid_color : string }.

Record BackgroundSettings : Type := {
  background_type : BackgroundType;
  solid : option SolidBackground;
  gradient : option GradientBackground;
  image : option ImageBackground
}.

Record TextPosition : Type := {
  top_margin : Z;
  bottom_margin : Z;
  left_margin : Z;
  right_margin : Z;
  position_width : option Z;
  position_height : option Z;
  position_alignment : TextAlignment;
  position_direction : TextDirection
}.

Record TextStyle : Type := {
  style_font_size : FontSize;
  font_weight : string;
  font_style : string;
  style_color : string;
  style_alignment : TextAlignment;
  style_direction : TextDirection
}.

Record TextBlock : Type := { block_text : text; style : TextStyle }.

Record RichTextContent : Type := { blocks : list TextBlock }.

Record GenerateFinalRequest : Type := {
  mood : MoodType;
  complexity : Z;
  colors : list string;
  layout : LayoutType;
  user_text : text;
  rich_text : option RichTextContent;
  background : option BackgroundSettings;
  text_position : option TextPosition;
  show_borders : bool
}.

(** The dictionary returned by [_get_text_area], with its four keys
    ['x_start'], ['y_start'], ['width'], ['height']. *)
Record text_area : Type := {
  x_start : Z;
  y_start : Z;
  area_width : Z;
  area_height : Z
}.

(** ** Settings ([app/core/config.py]) *)

Record Settings : Type := {
  BOOKMARK_WIDTH_MM : float;
  BOOKMARK_HEIGHT_MM : float;
  BLEED_MM : float;
  SAFE_MARGIN_MM : float;
  PREVIEW_DPI : Z;
  FINAL_DPI : Z;
  DOWNLOAD_DIR : string
}.

(** [Settings.mm_to_px]: [(mm / 25.4) * dpi].  The literal [25.4] is the
    binary64 nearest to it, and the multiplication converts the [int] [dpi]
    to a float. *)
#[warnings="-inexact-float"]
Definition mm_to_px (mm : float) (dpi : Z) : float :=
  ((mm / 25.4) * float_of_int dpi)%float.

(** [Settings.bookmark_size_px_preview] *)
Definition bookmark_size_px_preview (st : Settings) : Z * Z :=
  let width_px := int_of_binary64 (mm_to_px (BOOKMARK_WIDTH_MM st) (PREVIEW_DPI st)) in
  let height_px := int_of_binary64 (mm_to_px (BOOKMARK_HEIGHT_MM st) (PREVIEW_DPI st)) in
  (width_px, height_px).

(** [Settings.bookmark_size_px_final] *)
Definition bookmark_size_px_final (st : Settings) : Z * Z :=
  let width_px := int_of_binary64 (mm_to_px (BOOKMARK_WIDTH_MM st) (FINAL_DPI st)) in
  let height_px := int_of_binary64 (mm_to_px (BOOKMARK_HEIGHT_MM st) (FINAL_DPI st)) in
  (width_px, height_px).

(** [Settings.bleed_px_final] *)
Definition bleed_px_final (st : Settings) : Z :=
  int_of_binary64 (mm_to_px (BLEED_MM st) (FINAL_DPI st)).

(** [Settings.safe_margin_px_final] *)
Definition safe_margin_px_final (st : Settings) : Z :=
  int_of_binary64 (mm_to_px (SAFE_MARGIN_MM st) (FINAL_DPI st)).

(** The field defaults of [Settings]. *)
Definition default_settings (download_dir : string) : Settings :=
  {| BOOKMARK_WIDTH_MM := 60%float; BOOKMARK_HEIGHT_MM := 180%float;
     BLEED_MM := 3%float; SAFE_MARGIN_MM := 5%float;
     PREVIEW_DPI := 72; FINAL_DPI := 300;
     DOWNLOAD_DIR := download_dir |}.

(** ** The generator ([app/services/bookmark_generator.py]) *)

Section Generator.

Context {pillow : Pillow}.

(** *** Pillow calls *)

Definition color_ok (c : color) : bool :=
  match c with
  | ColorName s => getrgb_ok s
  | ColorRGB _ => true
  end.

Definition opt_color_ok (c : option color) : bool :=
  match c with
  | Some c => color_ok c
  | None => true
  end.

Definition paint (op : draw_op) : M unit :=
  modify (fun s => set_canvas (Draw (canvas s) op) s).

(** [draw.rectangle([(x0, y0), (x1, y1)], fill, outline, width)]: unknown
    colours and boxes with [x1 < x0] or [y1 < y0] raise [ValueError]. *)
Definition draw_rectangle (x0 y0 x1 y1 : Z) (fill outline : option color)
    (width : Z) : M unit :=
  if negb (opt_color_ok fill && opt_color_ok outline) then raise ValueError
  else if (x1 <? x0) || (y1 <? y0) then raise ValueError
  else paint (Rectangle x0 y0 x1 y1 fill outline width).

(** [draw.line(points, fill, width)] *)
Definition draw_line (points : list (Z * Z)) (fill : color) (width : Z) : M unit :=
  if negb (color_ok fill) then raise ValueError
  else paint (Line points fill width).

(** [draw.ellipse([(x0, y0), (x1, y1)], fill)] *)
Definition draw_ellipse (x0 y0 x1 y1 : Z) (fill : color) : M unit :=
  if negb (color_ok fill) then raise ValueError
  else if (x1 <? x0) || (y1 <? y0) then raise ValueError
  else paint (Ellipse x0 y0 x1 y1 fill).

(** [draw.text((x, y), s, fill, font)] *)
Definition draw_text (x y : Z) (s : text) (fill : color) (f : font) : M unit :=
  if negb (color_ok fill) then raise ValueError
  else paint (Text x y s fill f).

(** [Image.new(mode, (w, h), color)] *)
Definition Image_new (mode : string) (w h : Z) (c : color) : result picture :=
  if (w <? 0) || (h <? 0) then Raise ValueError
  else if negb (color_ok c) then Raise ValueError
  else Ok (New mode w h c).

(** [Path(p).exists()] *)
Definition Path_exists (path : string) : M bool :=
  fun s => (Ok (bool_decide (is_Some (fs s !! path))), s).

(** [Path(p).stat()] *)
Definition Path_stat (path : string) : M unit :=
  fun s => match fs s !! path with
           | Some _ => (Ok tt, s)
           | None => (Raise FileNotFoundError, s)
           end.

(** [Image.open(path)] *)
Definition Image_open (path : string) : M picture :=
  fun s => match fs s !! path with
           | Some (ImageFile _ _ p) => (Ok p, s)
           | Some _ => (Raise UnidentifiedImageError, s)
           | None => (Raise FileNotFoundError, s)
           end.

(** [image.save(path, format, dpi)]: when the encoder fails nothing is left
    at [path] and the error propagates. *)
Definition Image_save (p : picture) (path format : string) (dpi : Z) : M unit :=
  fun s => if bool_decide (path ∈ unwritable s) then (Raise OSError, s)
           else (Ok tt, set_fs (<[path := ImageFile format dpi p]> (fs s)) s).

(** [ImageFont.truetype(path, size)] *)
Definition truetype (path : string) (size : Z) : M font :=
  fun s => match fs s !! path with
           | Some FontFile => (Ok {| font_file := path; font_size := size |}, s)
           | _ => (Raise OSError, s)
           end.

(** [path / name], for the file names the generator makes up (neither
    empty nor ['.']). *)
Definition path_join (dir name : string) : string := dir +:+ "/" +:+ name.

(** *** Decorations and preview layouts *)

(** [BookmarkGenerator._add_decorative_elements] *)
Definition _add_decorative_elements (width height complexity : Z)
    (colors : list string) : M unit :=
  accent_color ← lift (if len colors >? 1 then getitem colors 1 else getitem colors 0);
  (if complexity >=? 2 then
     let border_width := if complexity >=? 4 then 3 else 2 in
     let margin := 10 in
     draw_rectangle margin margin (width - margin - 1) (height - margin - 1)
       None (Some (ColorName accent_color)) border_width
   else mret tt);;
  (if complexity >=? 3 then
     let corner_size := 15 in
     let line_width := 2 in
     draw_line [(0, corner_size); (0, 0); (corner_size, 0)]
       (ColorName accent_color) line_width;;
     draw_line [(width - corner_size, 0); (width - 1, 0); (width - 1, corner_size)]
       (ColorName accent_color) line_width;;
     draw_line [(0, height - corner_size - 1); (0, height - 1); (corner_size, height - 1)]
       (ColorName accent_color) line_width;;
     draw_line [(width - corner_size - 1, height - 1); (width - 1, height - 1);
                (width - 1, height - corner_size - 1)]
       (ColorName accent_color) line_width
   else mret tt);;
  (if complexity >=? 4 then
     let dot_size := 4 in
     let dot_margin := 20 in
     let positions :=
       [(dot_margin, dot_margin); (width - dot_margin, dot_margin);
        (dot_margin, height - dot_margin); (width - dot_margin, height - dot_margin)] in
     for_ positions (fun '(x, y) =>
       fill ← lift (if len colors >? 2 then getitem colors (-1) else Ok accent_color);
       draw_ellipse (x - dot_size) (y - dot_size) (x + dot_size) (y + dot_size)
         (ColorName fill))
   else mret tt);;
  (if complexity >=? 5 then
     let line_y := height - 50 in
     draw_line [(40, line_y); (width - 40, line_y)] (ColorName accent_color) 1
   else mret tt).

(** [BookmarkGenerator._apply_layout] *)
Definition _apply_layout (width height : Z) (layout : LayoutType)
    (colors : list string) (is_preview : bool) : M unit :=
  let bg_color := match colors with c :: _ => c | [] => "#FFFFFF" end in
  let outline_color :=
    if len colors >? 1 then getitem colors 1 else Ok "#CCCCCC" in
  match layout with
  | LAYOUT_HORIZONTAL =>
      let image_width := int_of_float (inject_Z width * (45 # 100)) in
      fill ← lift (_lighten_color bg_color 20);
      outline ← lift outline_color;
      draw_rectangle 10 10 (image_width - 10) (height - 10)
        (Some (ColorName fill)) (Some (ColorName outline)) 2;;
      draw_rectangle image_width 10 (width - 10) (height - 10)
        (Some (ColorName bg_color)) None 1
  | LAYOUT_VERTICAL =>
      let image_height := int_of_float (inject_Z height * (55 # 100)) in
      fill ← lift (_lighten_color bg_color 20);
      outline ← lift outline_color;
      draw_rectangle 10 10 (width - 10) (image_height - 10)
        (Some (ColorName fill)) (Some (ColorName outline)) 2;;
      draw_rectangle 10 image_height (width - 10) (height - 10)
        (Some (ColorName bg_color)) None 1
  | CENTERED =>
      let margin := int_of_float (inject_Z width * (15 # 100)) in
      fill ← lift (_lighten_color bg_color 10);
      outline ← lift outline_color;
      draw_rectangle margin margin (width - margin) (height - margin)
        (Some (ColorName fill)) (Some (ColorName outline)) 3
  | MOSAIC =>
      let grid_size := 2 in
      let cell_w := (width - 30) / grid_size in
      let cell_h := (height - 30) / grid_size in
      for_ (range grid_size) (fun i =>
        for_ (range grid_size) (fun j =>
          let x1 := 10 + j * cell_w in
          let y1 := 10 + i * cell_h in
          let x2 := x1 + cell_w - 5 in
          let y2 := y1 + cell_h - 5 in
          shade_idx ← lift (if len colors =? 0 then Raise ZeroDivisionError
                            else Ok ((i * grid_size + j) mod len colors));
          shade ← lift (getitem colors shade_idx);
          fill ← lift (_lighten_color shade 15);
          outline ← lift (getitem colors 0);
          draw_rectangle x1 y1 x2 y2
            (Some (ColorName fill)) (Some (ColorName outline)) 2))
  | FULL_BLEED =>
      for_ (range height) (fun y =>
        ratio ← lift (truediv (inject_Z y) (inject_Z height));
        let shade := (1 - ratio * (3 # 10))%Q in
        '(r0, _, _) ← lift (_hex_to_rgb bg_color);
        let r := int_of_float (inject_Z r0 * shade) in
        '(_, g0, _) ← lift (_hex_to_rgb bg_color);
        let g := int_of_float (inject_Z g0 * shade) in
        '(_, _, b0) ← lift (_hex_to_rgb bg_color);
        let b := int_of_float (inject_Z b0 * shade) in
        draw_line [(0, y); (width, y)] (ColorRGB (r, g, b)) 0)
  end.

(** *** Text *)

(** [BookmarkGenerator._load_font]: the first path of the list that exists
    and loads wins; a path that exists but does not load is reported and
    skipped. *)
Definition font_paths : list string :=
  [ "/System/Library/Fonts/STHeiti Medium.ttc";
    "/System/Library/Fonts/STHeiti Light.ttc";
    "/System/Library/Fonts/Hiragino Sans GB.ttc";
    "/System/Library/Fonts/PingFang.ttc";
    "/System/Library/Fonts/Supplemental/Songti.ttc";
    "/usr/share/fonts/truetype/wqy/wqy-microhei.ttc";
    "/usr/share/fonts/truetype/wqy/wqy-zenhei.ttc";
    "/usr/share/fonts/opentype/noto/NotoSansCJK-Regular.ttc";
    "C:/Windows/Fonts/msyh.ttc";
    "C:/Windows/Fonts/simhei.ttf";
    "/usr/share/fonts/truetype/dejavu/DejaVuSans.ttf" ]%string.

Fixpoint load_font_from (paths : list string) (size : Z) : M font :=
  match paths with
  | [] =>
      logger WARNING "[FONT] No Chinese font found, using default font";;
      logger WARNING "[FONT] Please install Chinese fonts";;
      mret load_default
  | font_path :: rest =>
      found ← Path_exists font_path;
      if found : bool then
        try_except (truetype font_path size)
          (fun _ => logger WARNING "[FONT] Failed to load";;
                    load_font_from rest size)
      else load_font_from rest size
  end.

Definition _load_font (size : Z) : M font := load_font_from font_paths size.

(** [BookmarkGenerator._get_font_size_pixels] *)
Definition _get_font_size_pixels (font_size : FontSize) (base_size : Z) : Z :=
  match font_size with
  | SMALL => int_of_float (inject_Z base_size * (7 # 10))
  | MEDIUM => base_size
  | LARGE => int_of_float (inject_Z base_size * (14 # 10))
  | EXTRA_LARGE => int_of_float (inject_Z base_size * (18 # 10))
  end.

(** [bbox[2] - bbox[0]] of [draw.textbbox((0, 0), s, font=font)] *)
Definition measure (f : font) (s : text) : Z :=
  let '(x0, _, x1, _) := textbbox f s in x1 - x0.

(** One turn of the loop [for char in text] that [_wrap_text_lines] and
    [_wrap_text] share, on the pair ([lines], [current_line]). *)
Definition wrap_step (max_width : Z) (f : font) (acc : list text * text)
    (char : N) : list text * text :=
  let '(lines, current_line) := acc in
  let test_line := current_line ++ [char] in
  if measure f test_line <=? max_width then (lines, test_line)
  else
    (match current_line with
     | [] => lines
     | _ => lines ++ [current_line]
     end, [char]).

(** [BookmarkGenerator._wrap_text_lines] *)
Definition _wrap_text_lines (s : text) (max_width : Z) (f : font) : list text :=
  let '(lines, current_line) := fold_left (wrap_step max_width f) s ([], []) in
  match current_line with
  | [] => lines
  | _ => lines ++ [current_line]
  end.

(** [BookmarkGenerator._wrap_text] *)
Definition _wrap_text (s : text) (position : Z * Z) (max_width : Z) (f : font)
    (color : string) : M unit :=
  let '(x, y) := position in
  let '(lines, current_line) := fold_left (wrap_step max_width f) s ([], []) in
  let lines :=
    match current_line with
    | [] => lines
    | _ => lines ++ [current_line]
    end in
  let line_height := font_size f + 8 in
  for_ (enumerate lines) (fun '(i, line) =>
    draw_text x (y + i * line_height) line (ColorName color) f).

(** [BookmarkGenerator._get_text_area] *)
Definition _get_text_area (width height : Z) (layout : LayoutType)
    (text_position : option TextPosition) : text_area :=
  match text_position with
  | Some tp =>
      let text_width :=
        match position_width tp with
        | Some w =>
            if w =? 0 then
              match position_direction tp with
              | VERTICAL => width - left_margin tp - right_margin tp
              | HORIZONTAL => int_of_float (inject_Z width * (8 # 10))
              end
            else w
        | None =>
            match position_direction tp with
            | VERTICAL => width - left_margin tp - right_margin tp
            | HORIZONTAL => int_of_float (inject_Z width * (8 # 10))
            end
        end in
      let text_height :=
        match position_height tp with
        | Some h => if h =? 0 then height - top_margin tp - bottom_margin tp else h
        | None => height - top_margin tp - bottom_margin tp
        end in
      {| x_start := left_margin tp; y_start := top_margin tp;
         area_width := text_width; area_height := text_height |}
  | None =>
      match layout with
      | LAYOUT_HORIZONTAL =>
          let text_x := int_of_float (inject_Z width * (48 # 100)) + 20 in
          let text_width := width - text_x - 20 in
          {| x_start := text_x; y_start := 40;
             area_width := text_width - 20; area_height := height - 40 |}
      | LAYOUT_VERTICAL =>
          let text_y_start := int_of_float (inject_Z height * (58 # 100)) in
          {| x_start := 20; y_start := text_y_start + 40;
             area_width := width - 40; area_height := height - text_y_start - 20 |}
      | CENTERED =>
          let margin := int_of_float (inject_Z width * (15 # 100)) in
          let text_y_start :=
            margin + int_of_float (inject_Z (height - 2 * margin) * (65 # 100)) in
          {| x_start := margin + 20; y_start := text_y_start;
             area_width := width - 2 * margin - 40;
             area_height := height - text_y_start - 20 |}
      | _ =>
          let text_height := int_of_float (inject_Z height * (25 # 100)) in
          let text_y := height - text_height - 20 in
          {| x_start := 20; y_start := text_y + 20;
             area_width := width - 40; area_height := text_height - 20 |}
      end
  end.

(** [BookmarkGenerator._draw_horizontal_text] *)
Definition _draw_horizontal_text (s : text) (area : text_area) (current_y : Z)
    (f : font) (color : string) (alignment : TextAlignment) : M Z :=
  let text_width := area_width area in
  let x_start := x_start area in
  let lines := _wrap_text_lines s (text_width - 20) f in
  fold_M (fun current_y line =>
            let line_width := measure f line in
            let x :=
              match alignment with
              | CENTER => x_start + (text_width - line_width) / 2
              | RIGHT => x_start + text_width - line_width
              | LEFT => x_start + 10
              end in
            draw_text x current_y line (ColorName color) f;;
            mret (current_y + (font_size f + 8)))
         lines current_y.

(** [BookmarkGenerator._draw_vertical_text] *)
Definition _draw_vertical_text (s : text) (area : text_area) (current_y : Z)
    (f : font) (color : string) (alignment : TextAlignment) : M Z :=
  let text_width := area_width area in
  let x_start := x_start area in
  let char_size := font_size f + 8 in
  let char_width := Z.max (font_size f) 12 in
  let max_chars_per_column := 10 in
  let max_columns_allowed := 3 in
  let max_total_chars := max_chars_per_column * max_columns_allowed in
  let total_chars := len s in
  '(s, total_chars) ←
    (if total_chars >? max_total_chars then
       logger WARNING "[VERTICAL] Text truncated";;
       mret (slice_list 0 max_total_chars s, max_total_chars)
     else mret (s, total_chars));
  let num_columns :=
    Z.min ((total_chars + max_chars_per_column - 1) / max_chars_per_column)
          max_columns_allowed in
  let num_columns :=
    if (total_chars >? 0) && (num_columns =? 0) then 1 else num_columns in
  let x :=
    match alignment with
    | CENTER => x_start + (text_width - num_columns * char_width) / 2
    | RIGHT => x_start + text_width - num_columns * char_width
    | LEFT => x_start
    end in
  for_ (range num_columns) (fun col =>
    let col_x := x + col * char_width in
    let start_idx := col * max_chars_per_column in
    let end_idx := Z.min (start_idx + max_chars_per_column) total_chars in
    let column_chars := slice_list start_idx end_idx s in
    for_ (enumerate column_chars) (fun '(row, char) =>
      let char_x := col_x in
      let char_y := current_y + row * char_size in
      draw_text char_x char_y [char] (ColorName color) f));;
  let actual_rows_used := Z.min total_chars max_chars_per_column in
  mret (current_y + actual_rows_used * char_size + 20).

(** [BookmarkGenerator._add_rich_text] *)
Definition _add_rich_text (width height : Z) (layout : LayoutType)
    (rich_text : RichTextContent) (colors : list string)
    (text_position : option TextPosition) : M unit :=
  let area := _get_text_area width height layout text_position in
  let line_spacing := 20 in
  fold_M (fun current_y block =>
            let base_size := Z.max 14 (width / 20) in
            let size := _get_font_size_pixels (style_font_size (style block)) base_size in
            f ← _load_font size;
            text_color ←
              lift (match style_color (style block) with
                    | EmptyString =>
                        if len colors >? 1 then getitem colors (-1) else Ok "#333333"
                    | c => Ok c
                    end);
            y ← match style_direction (style block) with
                | VERTICAL =>
                    _draw_vertical_text (block_text block) area current_y f
                      text_color (style_alignment (style block))
                | HORIZONTAL =>
                    _draw_horizontal_text (block_text block) area current_y f
                      text_color (style_alignment (style block))
                end;
            mret (y + line_spacing))
         (blocks rich_text) (y_start area);;
  mret tt.

(** [BookmarkGenerator._add_plain_text] *)
Definition _add_plain_text (width height : Z) (layout : LayoutType) (s : text)
    (colors : list string) (text_position : option TextPosition) : M unit :=
  try_except
    (let area := _get_text_area width height layout text_position in
     let size := Z.max 16 (width / 15) in
     f ← _load_font size;
     title_font ← _load_font (int_of_float (inject_Z size * (15 # 10)));
     text_color ← lift (if len colors >? 1 then getitem colors (-1) else Ok "#333333");
     let text_direction :=
       match text_position with
       | Some tp => position_direction tp
       | None => HORIZONTAL
       end in
     let text_alignment :=
       match text_position with
       | Some tp => position_alignment tp
       | None => CENTER
       end in
     match text_direction with
     | VERTICAL =>
         _draw_vertical_text s area (y_start area) f text_color text_alignment;;
         mret tt
     | HORIZONTAL =>
         _wrap_text s (x_start area, y_start area) (area_width area) f text_color
     end)
    (fun _ => logger ERROR "Error adding plain text";;
              logger ERROR "Full traceback:").

(** [BookmarkGenerator._add_user_text] *)
Definition _add_user_text (width height : Z) (layout : LayoutType) (s : text)
    (colors : list string) (rich_text : option RichTextContent)
    (text_position : option TextPosition) : M unit :=
  try_except
    (match rich_text with
     | Some rt =>
         match blocks rt with
         | _ :: _ => _add_rich_text width height layout rt colors text_position
         | [] =>
             match s with
             | _ :: _ => _add_plain_text width height layout s colors text_position
             | [] => mret tt
             end
         end
     | None =>
         match s with
         | _ :: _ => _add_plain_text width height layout s colors text_position
         | [] => mret tt
         end
     end)
    (fun _ => logger ERROR "Error adding user text";;
              logger ERROR "Full traceback:").

(** *** Backgrounds *)

(** [image.paste(color, box)], [image.putpixel((x, y), color)] and
    [image.paste(other, (x, y))] on the live canvas *)
Definition paste_color (c : rgb) (l u r b : Z) : M unit :=
  modify (fun s => set_canvas (Fill (canvas s) c l u r b) s).

Definition putpixel (x y : Z) (c : rgb) : M unit :=
  modify (fun s => set_canvas (PutPixel (canvas s) x y c) s).

Definition paste (src : picture) (x y : Z) : M unit :=
  modify (fun s => set_canvas (Paste (canvas s) src x y) s).

(** [BookmarkGenerator._draw_gradient] *)
Definition _draw_gradient (direction : GradientDirection) (colors : list string)
    : M unit :=
  s ← get;
  let '(width, height) := image_size (canvas s) in
  match direction with
  | GRADIENT_HORIZONTAL =>
      for_ (range width) (fun x =>
        ratio ← lift (truediv (inject_Z x) (inject_Z width));
        color ← lift (_interpolate_color colors ratio);
        paste_color color x 0 (x + 1) height)
  | GRADIENT_VERTICAL =>
      for_ (range height) (fun y =>
        ratio ← lift (truediv (inject_Z y) (inject_Z height));
        color ← lift (_interpolate_color colors ratio);
        paste_color color 0 y width (y + 1))
  | DIAGONAL =>
      for_ (range height) (fun y =>
        for_ (range width) (fun x =>
          ratio ← lift (truediv (inject_Z (x + y)) (inject_Z (width + height)));
          color ← lift (_interpolate_color colors ratio);
          putpixel x y color))
  | RADIAL =>
      let center_x := width / 2 in
      let center_y := height / 2 in
      let max_radius := math_sqrt (inject_Z (center_x ^ 2 + center_y ^ 2)) in
      for_ (range height) (fun y =>
        for_ (range width) (fun x =>
          let distance :=
            math_sqrt (inject_Z ((x - center_x) ^ 2 + (y - center_y) ^ 2)) in
          q ← lift (truediv distance max_radius);
          let ratio := Py.min q 1 in
          color ← lift (_interpolate_color colors ratio);
          putpixel x y color))
  end.

(** [BookmarkGenerator._draw_image_background] *)
Definition _draw_image_background (image_path : string) (opacity : Q)
    (fit_mode : string) : M unit :=
  try_except
    (bg_img ← Image_open image_path;
     let bg_img :=
       if String.eqb (image_mode bg_img) "RGBA" then bg_img
       else Convert bg_img "RGBA" in
     let bg_img := if Qltb opacity 1 then ScaleAlpha bg_img opacity else bg_img in
     s ← get;
     let '(target_width, target_height) := image_size (canvas s) in
     fitted ←
       lift (if String.eqb fit_mode "cover" then
               _fit_image_to_zone bg_img target_width target_height
             else if String.eqb fit_mode "contain" then
               img_ratio ← truediv (inject_Z (image_width bg_img))
                                   (inject_Z (image_height bg_img));
               target_ratio ← truediv (inject_Z target_width) (inject_Z target_height);
               if Qltb target_ratio img_ratio then
                 let new_width := int_of_float (inject_Z target_height * img_ratio) in
                 resized ← resize bg_img new_width target_height;
                 let x := (new_width - target_width) / 2 in
                 crop resized x 0 (x + target_width) target_height
               else
                 h ← truediv (inject_Z target_width) img_ratio;
                 let new_height := int_of_float h in
                 resized ← resize bg_img target_width new_height;
                 let y := (new_height - target_height) / 2 in
                 crop resized 0 y target_width (y + target_height)
             else resize bg_img target_width target_height);
     s ← get;
     let image_rgba := PasteMask (Convert (canvas s) "RGBA") fitted 0 0 fitted in
     paste (Convert image_rgba "RGB") 0 0)
    (fun _ => logger ERROR "[BG] Error drawing image background").

(** [BookmarkGenerator._draw_background] *)
Definition _draw_background (background : option BackgroundSettings) : M unit :=
  match background with
  | None => mret tt
  | Some bg =>
      s ← get;
      let '(width, height) := image_size (canvas s) in
      match background_type bg with
      | SOLID =>
          match solid bg with
          | Some sb =>
              draw_rectangle 0 0 width height
                (Some (ColorName (solid_color sb))) None 1
          | None => mret tt
          end
      | GRADIENT =>
          match gradient bg with
          | Some g => _draw_gradient (gradient_direction g) (gradient_colors g)
          | None => mret tt
          end
      | IMAGE =>
          match image bg with
          | Some ib => _draw_image_background (image_path ib) (opacity ib) (fit_mode ib)
          | None => mret tt
          end
      end
  end.

(** *** The two entry points

    [uuid_hex] is the value of [uuid.uuid4().hex] and [timestamp] the
    formatted clock reading of the call. *)

(** [BookmarkGenerator.generate_preview] *)
Definition generate_preview (st : Settings) (mood : MoodType) (complexity : Z)
    (colors : list string) (layout : LayoutType) (uuid_hex : string)
    : M (string * Z * Z) :=
  let '(width, height) := bookmark_size_px_preview st in
  c ← lift (getitem colors 0);
  image ← lift (Image_new "RGB" width height (ColorName c));
  modify (set_canvas image);;
  _apply_layout width height layout colors true;;
  _add_decorative_elements width height complexity colors;;
  let filename := "preview_" +:+ slice 0 8 uuid_hex +:+ ".png" in
  let filepath := path_join (DOWNLOAD_DIR st) filename in
  s ← get;
  Image_save (canvas s) filepath "PNG" (PREVIEW_DPI st);;
  Path_stat filepath;;
  mret (filepath, width, height).

(** The first stage of [generate_final]: what fills the content area.  With a
    user photo whose file exists the photo is fitted and pasted, and a failure
    on the way is logged; the background settings are read in the other
    branch only. *)
Definition fill_content (request : GenerateFinalRequest)
    (user_photo_path : option string) (content_width content_height : Z)
    : M unit :=
  photo_there ←
    match user_photo_path with
    | None => mret false
    | Some EmptyString => mret false
    | Some path => Path_exists path
    end;
  match user_photo_path, photo_there with
  | Some path, true =>
      try_except
        (user_photo ← Image_open path;
         fitted_photo ← lift (_fit_image_to_zone user_photo content_width content_height);
         paste fitted_photo 0 0)
        (fun _ => logger ERROR "[GENERATOR] Error applying user photo as background";;
                  logger ERROR "Full traceback:")
  | _, _ =>
      match background request with
      | Some bg => _draw_background (Some bg)
      | None =>
          let default_color :=
            match colors request with
            | c :: _ => c
            | [] => "#FFFFFF"
            end in
          draw_rectangle 0 0 content_width content_height
            (Some (ColorName default_color)) None 1
      end
  end.

(** [BookmarkGenerator.generate_final] *)
Definition generate_final (st : Settings) (request : GenerateFinalRequest)
    (user_photo_path : option string) (uuid_hex timestamp : string)
    : M (string * string) :=
  let bleed_px := bleed_px_final st in
  let safe_margin := safe_margin_px_final st in
  let content_width := fst (bookmark_size_px_final st) in
  let content_height := snd (bookmark_size_px_final st) in
  let total_width := content_width + 2 * bleed_px in
  let total_height := content_height + 2 * bleed_px in
  c ← lift (getitem (colors request) 0);
  image ← lift (Image_new "RGB" total_width total_height (ColorName c));
  content_image ← lift (crop image bleed_px bleed_px
                          (bleed_px + content_width) (bleed_px + content_height));
  modify (set_canvas content_image);;
  fill_content request user_photo_path content_width content_height;;
  _add_user_text content_width content_height (layout request) (user_text request)
    (colors request) (rich_text request) (text_position request);;
  (if show_borders request then
     _add_decorative_elements content_width content_height
       (complexity request) (colors request)
   else mret tt);;
  s ← get;
  let image := Paste image (canvas s) bleed_px bleed_px in
  let bookmark_id := slice 0 12 uuid_hex in
  let png_filename := "bookmark_" +:+ timestamp +:+ "_" +:+ bookmark_id +:+ ".png" in
  let png_filepath := path_join (DOWNLOAD_DIR st) png_filename in
  Image_save image png_filepath "PNG" (FINAL_DPI st);;
  Path_stat png_filepath;;
  let pdf_filename := "bookmark_" +:+ timestamp +:+ "_" +:+ bookmark_id +:+ ".pdf" in
  let pdf_filepath := path_join (DOWNLOAD_DIR st) pdf_filename in
  let image := if String.eqb (image_mode image) "RGB" then image else Convert image "RGB" in
  let pdf_image := image in
  Image_save pdf_image pdf_filepath "PDF" (FINAL_DPI st);;
  Path_stat pdf_filepath;;
  mret (png_filepath, pdf_filepath).

End Generator.

(** A colour channel. *)
Definition channel (v : Z) : Prop := 0 <= v <= 255.

Definition two_hex_digits (s : string) : bool :=
  match s with
  | String a (String b EmptyString) => is_hex a && is_hex b
  | _ => false
  end.

(** The text held by the two variables of the wrapping loop: the lines
    already cut, then the line being filled. *)
Definition flat (acc : list text * text) : text := concat (fst acc) ++ snd acc.

(** A line that is not wider than [max_width], and the invariant of the
    wrapping loop: the lines already cut fit, and the line being filled is
    empty or fits. *)
Definition line_fits {pillow : Pillow} (max_width : Z) (f : font) (line : text) : Prop :=
  measure f line <= max_width.

Definition lines_fit {pillow : Pillow} (max_width : Z) (f : font)
    (acc : list text * text) : Prop :=
  Forall (line_fits max_width f) (fst acc)
  /\ (snd acc = [] \/ line_fits max_width f (snd acc)).

(** ** Reading a picture back

    What the statements below observe of a rendering. *)

(** The picture after a sequence of drawing calls. *)
Definition draw_all (p : picture) (ops : list draw_op) : picture :=
  fold_left Draw ops p.

(** [emits m ops]: from every state, [m] returns normally, draws exactly
    [ops] on the canvas, in this order, and changes nothing else. *)
Definition emits (m : M unit) (ops : list draw_op) : Prop :=
  forall s, m s = (Ok tt, set_canvas (draw_all (canvas s) ops) s).

(** [draws m]: from every state [m] returns normally and only draws. *)
Definition draws (m : M unit) : Prop := exists ops, emits m ops.

(** [keeps R m]: whatever [m] does, and whether it returns or raises, the
    state it leaves is related by [R] to the state it started from. *)
Definition keeps {A : Type} (R : relation state) (m : M A) : Prop :=
  forall s, R s (snd (m s)).

(** The canvas has kept its dimensions. *)
Definition same_size : relation state :=
  fun s s' => image_size (canvas s') = image_size (canvas s).

(** No file was written or removed. *)
Definition same_files : relation state :=
  fun s s' => fs s' = fs s /\ unwritable s' = unwritable s.

(** The four ornaments of [_add_decorative_elements], told apart by the call
    that draws them: the border is its only rectangle, a corner accent a
    three-point line, a dot marker an ellipse, the divider a two-point line. *)
Inductive ornament : Type := Border | CornerAccent | DotMarker | Divider.

Definition ornament_of (op : draw_op) : option ornament :=
  match op with
  | Rectangle _ _ _ _ _ _ _ => Some Border
  | Line [_; _; _] _ _ => Some CornerAccent
  | Ellipse _ _ _ _ _ => Some DotMarker
  | Line [_; _] _ _ => Some Divider
  | _ => None
  end.

Definition ornaments (ops : list draw_op) : list ornament := omap ornament_of ops.

(** The tier at which an ornament appears. *)
Definition tier (o : ornament) : Z :=
  match o with
  | Border => 2
  | CornerAccent => 3
  | DotMarker => 4
  | Divider => 5
  end.

#[global] Instance ornament_eq_dec : EqDecision ornament.
Proof. solve_decision. Defined.

(** A palette as the request validation leaves it: at least one colour, each
    of the form [#rrggbb]. *)
Definition palette_ok (colors : list string) : Prop :=
  colors <> [] /\ Forall (fun c => hash_rrggbb c = true) colors.

(** The accent colour of [_add_decorative_elements]: [colors[1]] when there is
    one, else [colors[0]]. *)
Definition accent_of (colors : list string) : option string :=
  match colors !! 1%nat with
  | Some c => Some c
  | None => colors !! 0%nat
  end.

Definition is_ellipse (op : draw_op) : bool :=
  match op with
  | Ellipse _ _ _ _ _ => true
  | _ => false
  end.

(** The drawing calls of [_add_decorative_elements] once its two colours are
    known, tier by tier. *)
Definition decoration_ops (width height complexity : Z) (accent dot : string)
    : list draw_op :=
  (if complexity >=? 2 then
     [Rectangle 10 10 (width - 10 - 1) (height - 10 - 1) None
        (Some (ColorName accent)) (if complexity >=? 4 then 3 else 2)]
   else [])
  ++ (if complexity >=? 3 then
        [Line [(0, 15); (0, 0); (15, 0)] (ColorName accent) 2;
         Line [(width - 15, 0); (width - 1, 0); (width - 1, 15)] (ColorName accent) 2;
         Line [(0, height - 15 - 1); (0, height - 1); (15, height - 1)]
           (ColorName accent) 2;
         Line [(width - 15 - 1, height - 1); (width - 1, height - 1);
               (width - 1, height - 15 - 1)] (ColorName accent) 2]
      else [])
  ++ (if complexity >=? 4 then
        [Ellipse (20 - 4) (20 - 4) (20 + 4) (20 + 4) (ColorName dot);
         Ellipse (width - 20 - 4) (20 - 4) (width - 20 + 4) (20 + 4) (ColorName dot);
         Ellipse (20 - 4) (height - 20 - 4) (20 + 4) (height - 20 + 4) (ColorName dot);
         Ellipse (width - 20 - 4) (height - 20 - 4) (width - 20 + 4) (height - 20 + 4)
           (ColorName dot)]
      else [])
  ++ (if complexity >=? 5 then
        [Line [(40, height - 50); (width - 40, height - 50)] (ColorName accent) 1]
      else []).

(** The drawing calls of a block of vertical text whose columns hold the
    characters [cols]: column [i] stands at [x0 + i * pitch], its character
    of row [r] at [y + r * row_pitch]. *)
Definition column_ops (x0 y pitch row_pitch : Z) (color : string) (f : font)
    (cols : list text) : list draw_op :=
  concat (map (fun '(i, col) =>
                 map (fun '(row, char) =>
                        Text (x0 + i * pitch) (y + row * row_pitch) [char]
                          (ColorName color) f)
                     (enumerate col))
              (enumerate cols)).

(** A stand-in for Pillow with a fixed-pitch font: every character is as wide
    as the font size.  It accepts the [#rrggbb] colours only. *)
Definition fixed_pitch : Pillow :=
  {| getrgb_ok := hash_rrggbb;
     getrgb_hex := fun _ H => H;
     textbbox := fun f s => (0, 0, font_size f * len s, font_size f);
     load_default := {| font_file := "default"; font_size := 10 |};
     math_sqrt := fun x => inject_Z (Z.sqrt (Qfloor x)) |}.

Definition empty_state (p : picture) : state :=
  {| fs := ∅; unwritable := ∅; log := []; canvas := p |}.

(** Two requests that differ in their [background] field at most. *)
Definition same_but_background (r1 r2 : GenerateFinalRequest) : Prop :=
  mood r1 = mood r2 /\ complexity r1 = complexity r2 /\ colors r1 = colors r2 /\
  layout r1 = layout r2 /\ user_text r1 = user_text r2 /\
  rich_text r1 = rich_text r2 /\ text_position r1 = text_position r2 /\
  show_borders r1 = show_borders r2.

(** ** Three rules as the specification words them *)

(** [failure_leaves_no_file]: the reading of "fails atomically" under which a
    call that raises has written nothing. *)
Definition failure_leaves_no_file {A : Type} (m : M A) (s : state) : Prop :=
  forall e s', m s = (Raise e, s') -> fs s' = fs s.

(** The reading of the dot-marker rule in which the fill is the palette entry
    of index 2 whenever there is one, and the accent colour otherwise. *)
Definition dots_filled_from_index_2 {pillow : Pillow} (width height complexity : Z)
    (colors : list string) : Prop :=
  forall ops accent,
    emits (_add_decorative_elements width height complexity colors) ops ->
    accent_of colors = Some accent ->
    forall x0 y0 x1 y1 fill,
      In (Ellipse x0 y0 x1 y1 fill) ops ->
      fill = ColorName (match colors !! 2%nat with
                        | Some c => c
                        | None => accent
                        end).

(** The reading of the photo rule in which an existing file is always
    fitted and pasted. *)
Definition photo_pasted {pillow : Pillow} (request : GenerateFinalRequest)
    (path : string) (content_width content_height : Z) (s : state) : Prop :=
  exists fitted,
    fill_content request (Some path) content_width content_height s
    = (Ok tt, set_canvas (Paste (canvas s) fitted 0 0) s).

(** The reading of the preview size as the exact floor of
    [mm / 25.4 * dpi], for a width and a height of [width_mm] and
    [height_mm] millimetres. *)
Definition preview_size_is_floor (st : Settings) (width_mm height_mm : Q) : Prop :=
  bookmark_size_px_preview st
  = (Qfloor (width_mm / (254 # 10) * inject_Z (PREVIEW_DPI st)),
     Qfloor (height_mm / (254 # 10) * inject_Z (PREVIEW_DPI st))).

(** ** Sample inputs *)

Definition sample_palette : list string :=
  ["#F5F5DC"; "#4A7C59"; "#8B4513"; "#2F4F4F"]%string.

Definition sample_request : GenerateFinalRequest :=
  {| mood := WARM; complexity := 3; colors := ["#F5F5DC"; "#4A7C59"]%string;
     layout := LAYOUT_HORIZONTAL; user_text := []; rich_text := None;
     background := None; text_position := None; show_borders := true |}.

Definition sample_settings : Settings := default_settings "downloads".

(** A bookmark 67.1 mm wide previewed at 254 DPI; the width is the binary64
    that [float("67.1")] gives. *)
Definition settings_67_1_mm : Settings :=
  {| BOOKMARK_WIDTH_MM := 0x1.0c66666666666p+6%float; BOOKMARK_HEIGHT_MM := 180%float;
     BLEED_MM := 3%float; SAFE_MARGIN_MM := 5%float;
     PREVIEW_DPI := 254; FINAL_DPI := 300;
     DOWNLOAD_DIR := "downloads" |}.

(** A bookmark 30.2 mm wide previewed at 254 DPI; the width is the binary64
    that [float("30.2")] gives. *)
Definition settings_30_2_mm : Settings :=
  {| BOOKMARK_WIDTH_MM := 0x1.e333333333333p+4%float; BOOKMARK_HEIGHT_MM := 180%float;
     BLEED_MM := 3%float; SAFE_MARGIN_MM := 5%float;
     PREVIEW_DPI := 254; FINAL_DPI := 300;
     DOWNLOAD_DIR := "downloads" |}.

Definition sample_png : string := "downloads/bookmark_20260101_120000_0123456789ab.png".
Definition sample_pdf : string := "downloads/bookmark_20260101_120000_0123456789ab.pdf".

(** A disk on which the PDF cannot be written. *)
Definition pdf_fails : state :=
  {| fs := ∅; unwritable := {[ sample_pdf ]}; log := [];
     canvas := New "RGB" 0 0 (ColorRGB (0, 0, 0)) |}.

(** An upload that exists but is not an image. *)
Definition bad_upload : state :=
  {| fs := {[ "temp/upload.jpg"%string := OtherFile ]}; unwritable := ∅; log := [];
     canvas := New "RGB" 708 2125 (ColorName "#F5F5DC") |}.

(** A request like [sample_request] with a gradient background. *)
Definition sample_request_gradient : GenerateFinalRequest :=
  {| mood := WARM; complexity := 3; colors := ["#F5F5DC"; "#4A7C59"]%string;
     layout := LAYOUT_HORIZONTAL; user_text := []; rich_text := None;
     background :=
       Some {| background_type := GRADIENT; solid := None;
               gradient := Some {| gradient_direction := GRADIENT_VERTICAL;
                                   gradient_colors := ["#000000"; "#FFFFFF"]%string;
                                   gradient_angle := 90 |};
               image := None |};
     text_position := None; show_borders := true |}.

(** An upload that is a 4000 by 3000 photo. *)
Definition good_upload : state :=
  {| fs := {[ "temp/upload.jpg"%string :=
                ImageFile "JPEG" 72 (Decoded "RGB" 4000 3000 1) ]};
     unwritable := ∅; log := [];
     canvas := New "RGB" 0 0 (ColorRGB (0, 0, 0)) |}.

Definition sample_font : font := {| font_file := "DejaVuSans.ttf"; font_size := 24 |}.

Definition sample_area : text_area :=
  {| x_start := 40; y_start := 40; area_width := 600; area_height := 1800 |}.

(** Thirty-five consecutive CJK ideographs, from U+4E00 on. *)
Definition sample_text_35 : text :=
  (fun i => (19968 + N.of_nat i)%N) <$> seq 0 35.

(** ** Further notions used by the properties *)

(** ASCII letters and digits: the characters on which [int16] agrees with
    Python's [int(s, 16)], which also reads signs, blanks and underscores. *)
Definition is_alnum (c : ascii) : bool :=
  let n := N_of_ascii c in
  ((48 <=? n) && (n <=? 57) || (65 <=? n) && (n <=? 90) || (97 <=? n) && (n <=? 122))%N.

(** Every character of [s] satisfies [p]. *)
Fixpoint all_chars (p : ascii -> bool) (s : string) : bool :=
  match s with
  | EmptyString => true
  | String c r => p c && all_chars p r
  end.

(** Every break between two lines was forced: the first line, with the first
    character of the next one added, is wider than [max_width]. *)
Definition forced_breaks {pillow : Pillow} (max_width : Z) (f : font)
    (lines : list text) : Prop :=
  forall (i : nat) (l : text) (c : N) (l' : text),
    lines !! i = Some l -> lines !! S i = Some (c :: l') ->
    max_width < measure f (l ++ [c]).

(** The abscissa at which [_draw_horizontal_text] draws a line. *)
Definition line_x {pillow : Pillow} (area : text_area) (f : font)
    (alignment : TextAlignment) (line : text) : Z :=
  match alignment with
  | CENTER => x_start area + (area_width area - measure f line) / 2
  | RIGHT => x_start area + area_width area - measure f line
  | LEFT => x_start area + 10
  end.

(** The invariant of the wrapping loop that makes it greedy: nothing has been
    cut yet, or the line being filled is not empty, no line already cut is
    empty, and every cut was forced. *)
Definition greedy {pillow : Pillow} (max_width : Z) (f : font)
    (acc : list text * text) : Prop :=
  (snd acc = [] /\ fst acc = [])
  \/ (snd acc <> [] /\ Forall (fun l => l <> []) (fst acc)
      /\ forced_breaks max_width f (fst acc ++ [snd acc])).

(** A text position with another right margin. *)
Definition with_right_margin (tp : TextPosition) (m : Z) : TextPosition :=
  {| top_margin := top_margin tp; bottom_margin := bottom_margin tp;
     left_margin := left_margin tp; right_margin := m;
     position_width := position_width tp; position_height := position_height tp;
     position_alignment := position_alignment tp;
     position_direction := position_direction tp |}.

(** A size left to the generator: absent, or zero. *)
Definition unset (v : option Z) : Prop := v = None \/ v = Some 0.

(** The first path of a list that holds a font file. *)
Fixpoint first_font (files : gmap string file) (paths : list string) : option string :=
  match paths with
  | [] => None
  | p :: rest =>
      match files !! p with
      | Some FontFile => Some p
      | _ => first_font files rest
      end
  end.

(** The log has only grown. *)
Definition log_grows : relation state :=
  fun s s' => exists extra, log s' = log s ++ extra.

(** [renders s s']: between [s] and [s'] the canvas was drawn on and the log
    written to, and nothing else happened: the canvas has kept its size and
    mode, no file was written or removed, no log entry was lost. *)
Definition renders : relation state :=
  fun s s' =>
    same_size s s' /\ image_mode (canvas s') = image_mode (canvas s)
    /\ same_files s s' /\ log_grows s s'.

(** Three colours of the sample palette. *)
Definition sample_palette_3 : list string := ["#F5F5DC"; "#4A7C59"; "#8B4513"]%string.

(** The canvas after the horizontal strips [(x, c)], each one pixel wide and
    [height] high, and after the vertical ones. *)
Definition columns_filled (height : Z) (p : picture) (strips : list (Z * rgb)) : picture :=
  fold_left (fun q '(x, c) => Fill q c x 0 (x + 1) height) strips p.

Definition rows_filled (width : Z) (p : picture) (strips : list (Z * rgb)) : picture :=
  fold_left (fun q '(y, c) => Fill q c 0 y width (y + 1)) strips p.

(** The shade of channel [v] on row [y] of the full-bleed preview. *)
Definition full_bleed_shade (height v y : Z) : Z :=
  int_of_float (inject_Z v * (1 - inject_Z y / inject_Z height * (3 # 10))).

(** [BookmarkGenerator._add_user_photo]: the zone of the photo by layout
    (its width, height and offsets), then the function. *)
Definition photo_zone (width height : Z) (layout : LayoutType) : Z * Z * Z * Z :=
  match layout with
  | LAYOUT_HORIZONTAL =>
      (int_of_float (inject_Z width * (45 # 100)), height - 40, 20, 20)
  | LAYOUT_VERTICAL =>
      (width - 40, int_of_float (inject_Z height * (55 # 100)), 20, 20)
  | CENTERED =>
      let margin := int_of_float (inject_Z width * (15 # 100)) in
      let target_width := width - 2 * margin - 20 in
      (target_width, int_of_float (inject_Z target_width * (8 # 10)),
       margin + 10, margin + 10)
  | _ =>
      (width - 40, int_of_float (inject_Z height * (6 # 10)), 20, 20)
  end.

Definition _add_user_photo (width height : Z) (layout : LayoutType)
    (photo_path : string) : M unit :=
  try_except
    (user_photo ← Image_open photo_path;
     let '(target_width, target_height, x_offset, y_offset) :=
       photo_zone width height layout in
     fitted_photo ← lift (_fit_image_to_zone user_photo target_width target_height);
     let paste_x := x_offset + (target_width - image_width fitted_photo) / 2 in
     let paste_y := y_offset + (target_height - image_height fitted_photo) / 2 in
     paste fitted_photo paste_x paste_y)
    (fun _ => logger ERROR "Error adding user photo").

(** A text position with another alignment. *)
Definition with_alignment (tp : TextPosition) (a : TextAlignment) : TextPosition :=
  {| top_margin := top_margin tp; bottom_margin := bottom_margin tp;
     left_margin := left_margin tp; right_margin := right_margin tp;
     position_width := position_width tp; position_height := position_height tp;
     position_alignment := a;
     position_direction := position_direction tp |}.

(** ** The routes ([app/api/routes.py]) *)

(** JSON values as [json.loads] returns them.  A dictionary keeps its keys in
    the order of their first insertion. *)
#[warnings="-register-all"]
Inductive json : Type :=
| JNull
| JBool (b : bool)
| JNumber (q : Q)
| JString (s : string)
| JList (l : list json)
| JDict (d : list (string * json)).

(** [d[k] = v] *)
Fixpoint dict_set (d : list (string * json)) (k : string) (v : json)
    : list (string * json) :=
  match d with
  | [] => [(k, v)]
  | (k0, v0) :: rest =>
      if String.eqb k0 k then (k0, v) :: rest else (k0, v0) :: dict_set rest k v
  end.

(** [d.get(k)] *)
Definition dict_get (d : list (string * json)) (k : string) : option json :=
  snd <$> List.find (fun entry => String.eqb (fst entry) k) d.

(** The capital letters [A-Z]. *)
Definition is_upper (c : ascii) : bool :=
  let n := N_of_ascii c in ((65 <=? n) && (n <=? 90))%N.

(** [str.lower] on ASCII characters. *)
Definition lower (c : ascii) : ascii :=
  if is_upper c then ascii_of_N (N_of_ascii c + 32) else c.

Fixpoint str_lower (s : string) : string :=
  match s with
  | EmptyString => EmptyString
  | String c r => String (lower c) (str_lower r)
  end.

(** [re.sub('([A-Z])', r'_\1', s)] *)
Fixpoint underscore_capitals (s : string) : string :=
  match s with
  | EmptyString => EmptyString
  | String c r =>
      if is_upper c then String "_" (String c (underscore_capitals r))
      else String c (underscore_capitals r)
  end.

(** The key computed in the loop of [convert_camel_to_snake]. *)
Definition snake_key (key : string) : string :=
  lstrip "_" (str_lower (underscore_capitals key)).

(** [routes.convert_camel_to_snake] *)
Fixpoint convert_camel_to_snake (data : json) : json :=
  match data with
  | JDict d =>
      JDict (fold_left
               (fun result '(key, value) =>
                  dict_set result (snake_key key) (convert_camel_to_snake value))
               d [])
  | JList l => JList (map convert_camel_to_snake l)
  | _ => data
  end.

(** The value of the last entry of [d] whose key becomes [k] in snake case. *)
Definition last_with_key (k : string) (d : list (string * json)) : option json :=
  snd <$> last (List.filter (fun entry => String.eqb (snake_key (fst entry)) k) d).

(** Keys on which [lower] is [str.lower]: ASCII characters only. *)
Definition ascii_only (s : string) : bool :=
  all_chars (fun c => (N_of_ascii c <? 128)%N) s.

(** A key without capital letters. *)
Definition no_capital (s : string) : bool :=
  all_chars (fun c => negb (is_upper c)) s.

(** A JSON value all of whose keys, at every depth, are ASCII. *)
Fixpoint ascii_keys (data : json) : bool :=
  match data with
  | JDict d => forallb (fun '(key, value) => ascii_only key && ascii_keys value) d
  | JList l => forallb ascii_keys l
  | _ => true
  end.

(** A dictionary as [convert_camel_to_snake] leaves it: distinct keys, each in
    snake case already, and values that the conversion does not change. *)
Definition converted (d : list (string * json)) : Prop :=
  NoDup (map fst d)
  /\ Forall (fun entry => snake_key (fst entry) = fst entry
                          /\ convert_camel_to_snake (snd entry) = snd entry) d.

(** What a route answers: an [HTTPException] with its status code, or a
    [FileResponse]. *)
Inductive response : Type :=
| HTTPException (status_code : Z)
| FileResponse (path media_type filename : string).

(** [needle in hay] *)
Fixpoint contains (needle hay : string) : bool :=
  match hay with
  | EmptyString => String.prefix needle EmptyString
  | String _ rest => String.prefix needle hay || contains needle rest
  end.

(** [s.endswith(suffix)] *)
Definition endswith (s suffix : string) : bool :=
  (String.length suffix <=? String.length s)%nat
  && String.eqb (substring (String.length s - String.length suffix)
                   (String.length suffix) s) suffix.

(** [dir / name] as pathlib builds it for a [name] without separator: the
    directory joined with the name, and the directory itself for the empty
    name and for ['.']. *)
Definition path_div (dir name : string) : string :=
  if String.eqb name "" || String.eqb name "." then dir else path_join dir name.

(** [routes.download_file].  A raised [HTTPException] is the answer of the
    route. *)
Definition download_file (st : Settings) (filename : string) : M response :=
  if contains ".." filename || contains "/" filename || contains "\" filename then
    logger WARNING "[DOWNLOAD] Suspicious filename blocked";;
    mret (HTTPException 400)
  else
    let file_path := path_div (DOWNLOAD_DIR st) filename in
    found ← Path_exists file_path;
    if negb found then
      logger WARNING "[DOWNLOAD] File not found";;
      mret (HTTPException 404)
    else
      Path_stat file_path;;
      let media_type :=
        if endswith filename ".png" then "image/png"
        else if endswith filename ".pdf" then "application/pdf"
        else "application/octet-stream" in
      mret (FileResponse file_path media_type filename).

(** The characters of a time stamp and of a UUID in hexadecimal: letters,
    digits and the underscore. *)
Definition is_word (c : ascii) : bool := is_alnum c || Ascii.eqb c "_".

(** A background as the application sends it, keys in camel case. *)
Definition sample_background_json : json :=
  JDict [("backgroundType", JString "image");
         ("image", JDict [("imagePath", JString "temp/bg.png");
                          ("opacity", JNumber (1 # 2));
                          ("fitMode", JString "cover")])]%string.


(** A rich text of one block whose colour is no colour. *)
Definition sample_rich_text_bad : RichTextContent :=
  {| blocks :=
       [{| block_text := [72; 105]%N;
           style := {| style_font_size := MEDIUM; font_weight := "normal";
                       font_style := "normal"; style_color := "notacolor";
                       style_alignment := CENTER; style_direction := HORIZONTAL |} |}] |}.

(** * Properties *)

(** ** Arithmetic on the rational model of floats *)

Lemma Qltb_true (a b : Q) : Qltb a b = true <-> (a < b)%Q.
Proof.
  unfold Qltb. rewrite negb_true_iff. split.
  - intros E. apply Qnot_le_lt. intros L. apply Qle_bool_iff in L. congruence.
  - intros L. destruct (Qle_bool b a) eqn:E; [|reflexivity].
    apply Qle_bool_iff in E. exfalso. exact (Qlt_not_le _ _ L E).
Qed.

Lemma Qltb_false (a b : Q) : Qltb a b = false <-> (b <= a)%Q.
Proof.
  unfold Qltb. rewrite negb_false_iff. apply Qle_bool_iff.
Qed.

Lemma int_of_float_Qeq (x y : Q) : (x == y)%Q -> int_of_float x = int_of_float y.
Proof.
  intros E. unfold int_of_float.
  rewrite (Qfloor_comp x y E), (Qceiling_comp x y E), E. reflexivity.
Qed.

Lemma int_of_float_inject (n : Z) : int_of_float (inject_Z n) = n.
Proof.
  unfold int_of_float. rewrite Qfloor_Z, Qceiling_Z. destruct (Qle_bool _ _); reflexivity.
Qed.

Lemma int_of_float_is (x : Q) (n : Z) : (x == inject_Z n)%Q -> int_of_float x = n.
Proof.
  intros E. rewrite (int_of_float_Qeq _ _ E). apply int_of_float_inject.
Qed.

Lemma int_of_float_nonneg (x : Q) : (0 <= x)%Q -> int_of_float x = Qfloor x.
Proof.
  intros L. unfold int_of_float. apply Qle_bool_iff in L. rewrite L. reflexivity.
Qed.

Lemma int_of_float_nonneg_le (x : Q) : (0 <= x)%Q -> 0 <= int_of_float x.
Proof.
  intros L. rewrite int_of_float_nonneg by assumption.
  change 0 with (Qfloor 0). apply Qfloor_resp_le. assumption.
Qed.

Lemma clamp_low (ratio : Q) : (ratio <= 0)%Q -> Py.max 0 (Py.min 1 ratio) = 0%Q.
Proof.
  intros L. unfold Py.max, Py.min.
  assert (H1 : Qltb ratio 1 = true).
  { apply Qltb_true. eapply Qle_lt_trans; [exact L | reflexivity]. }
  rewrite H1.
  assert (H0 : Qltb 0 ratio = false) by (apply Qltb_false; exact L).
  rewrite H0. reflexivity.
Qed.

Lemma clamp_high (ratio : Q) : (1 <= ratio)%Q -> Py.max 0 (Py.min 1 ratio) = 1%Q.
Proof.
  intros L. unfold Py.max, Py.min.
  assert (H1 : Qltb ratio 1 = false) by (apply Qltb_false; exact L).
  rewrite H1. reflexivity.
Qed.

Lemma clamp_idempotent (ratio : Q) :
  Py.max 0 (Py.min 1 (Py.max 0 (Py.min 1 ratio))) = Py.max 0 (Py.min 1 ratio).
Proof.
  destruct (Qlt_le_dec 0 ratio) as [P|NP].
  - destruct (Qlt_le_dec ratio 1) as [S|NS].
    + assert (E : Py.max 0 (Py.min 1 ratio) = ratio).
      { unfold Py.max, Py.min.
        apply Qltb_true in S. rewrite S. apply Qltb_true in P. rewrite P. reflexivity. }
      rewrite E. exact E.
    + rewrite (clamp_high ratio NS). reflexivity.
  - rewrite (clamp_low ratio NP). reflexivity.
Qed.

(** ** Lists and colour strings *)

Lemma getitem_lookup {A : Type} (l : list A) (i : Z) (a : A) :
  0 <= i -> l !! Z.to_nat i = Some a -> getitem l i = Ok a.
Proof.
  intros Hi Hl. unfold getitem.
  destruct (i <? 0) eqn:E; [apply Z.ltb_lt in E; lia|].
  rewrite E, Hl. reflexivity.
Qed.

Lemma getitem_in_range {A : Type} (l : list A) (i : Z) :
  0 <= i < len l -> exists a, getitem l i = Ok a /\ l !! Z.to_nat i = Some a.
Proof.
  intros Hi. unfold len in Hi.
  destruct (lookup_lt_is_Some_2 l (Z.to_nat i)) as [a Ha]; [lia|].
  exists a. split; [apply getitem_lookup; [lia | exact Ha] | exact Ha].
Qed.

Lemma getitem_last {A : Type} (l : list A) (a : A) :
  last l = Some a -> getitem l (-1) = Ok a.
Proof.
  intros Hl. unfold getitem. change (-1 <? 0) with true. cbv iota.
  assert (Hn : l <> []) by (intros ->; discriminate).
  assert (0 < len l) by (unfold len; destruct l; [congruence | simpl; lia]).
  destruct (-1 + len l <? 0) eqn:E; [apply Z.ltb_lt in E; lia|].
  rewrite last_lookup in Hl.
  replace (Z.to_nat (-1 + len l)) with (Nat.pred (length l)) by (unfold len; lia).
  rewrite Hl. reflexivity.
Qed.

Lemma hex_digit_range (c : ascii) (d : Z) : hex_digit c = Some d -> 0 <= d <= 15.
Proof.
  unfold hex_digit.
  repeat match goal with
         | |- context [if ?b then _ else _] => destruct b eqn:?
         end; intros [= <-]; lia.
Qed.

Lemma int16_two_digits (a b : ascii) :
  is_hex a = true -> is_hex b = true ->
  exists v, int16 (String a (String b EmptyString)) = Ok v /\ 0 <= v <= 255.
Proof.
  unfold is_hex, int16. cbn [int16_digits].
  destruct (hex_digit a) as [x|] eqn:Ea; [|discriminate].
  destruct (hex_digit b) as [y|] eqn:Eb; [|discriminate].
  intros _ _. apply hex_digit_range in Ea, Eb.
  exists (16 * (16 * 0 + x) + y). split; [reflexivity | lia].
Qed.

Lemma hex_to_rgb_six_digits (s : string) :
  six_hex_digits s = true ->
  exists r g b, (r ← int16 (slice 0 2 s); g ← int16 (slice 2 2 s);
                 b ← int16 (slice 4 2 s); mret (r, g, b)) = Ok (r, g, b)
                /\ channel r /\ channel g /\ channel b.
Proof.
  destruct s as [|c1 [|c2 [|c3 [|c4 [|c5 [|c6 [|? ?]]]]]]]; try discriminate.
  cbn [six_hex_digits]. rewrite !andb_true_iff.
  intros [[[[[H1 H2] H3] H4] H5] H6].
  destruct (int16_two_digits c1 c2 H1 H2) as (r & Er & Hr).
  destruct (int16_two_digits c3 c4 H3 H4) as (g & Eg & Hg).
  destruct (int16_two_digits c5 c6 H5 H6) as (b & Eb & Hb).
  exists r, g, b. unfold slice. cbn [substring].
  unfold mbind, result_bind, Py.bind, mret, result_ret.
  rewrite Er, Eg, Eb. auto.
Qed.

Lemma hex_to_rgb_valid (c : string) :
  valid_color c = true ->
  exists r g b, _hex_to_rgb c = Ok (r, g, b) /\ channel r /\ channel g /\ channel b.
Proof.
  intros V. unfold _hex_to_rgb. apply hex_to_rgb_six_digits. exact V.
Qed.

(** ** Interpolation *)

(** At a node of the subdivision, where the clamped ratio times the number
    of segments is the integer [k], the result is the colour of index [k]. *)
Lemma interpolate_at_node (colors : list string) (ratio : Q) (k : Z)
    (c : string) (v : rgb) :
  len colors <> 1 ->
  (Py.max 0 (Py.min 1 ratio) * inject_Z (len colors - 1) == inject_Z k)%Q ->
  getitem colors k = Ok c ->
  _hex_to_rgb c = Ok v ->
  (exists c' v', getitem colors (Z.min (k + 1) (len colors - 1)) = Ok c'
                 /\ _hex_to_rgb c' = Ok v') ->
  _interpolate_color colors ratio = Ok v.
Proof.
  intros Hlen Hseg Hc Hv (c' & v' & Hc' & Hv').
  unfold _interpolate_color.
  destruct (len colors =? 1) eqn:E; [apply Z.eqb_eq in E; contradiction|].
  cbv zeta.
  rewrite (int_of_float_is _ k Hseg).
  unfold mbind, result_bind, Py.bind. rewrite Hc, Hv, Hc', Hv'.
  destruct v as [[r1 g1] b1], v' as [[r2 g2] b2].
  assert (node : forall a d,
             int_of_float
               (inject_Z a
                + inject_Z d * (Py.max 0 (Py.min 1 ratio) * inject_Z (len colors - 1)
                                - inject_Z k)) = a).
  { intros a d. apply int_of_float_is. rewrite Hseg. ring. }
  rewrite !node. reflexivity.
Qed.

Lemma valid_getitem (colors : list string) (i : Z) :
  Forall (fun c => valid_color c = true) colors ->
  0 <= i < len colors ->
  exists c v, getitem colors i = Ok c /\ colors !! Z.to_nat i = Some c
              /\ _hex_to_rgb c = Ok v.
Proof.
  intros V Hi. destruct (getitem_in_range colors i Hi) as (c & Hc & Hl).
  rewrite Forall_lookup in V. specialize (V _ _ Hl).
  destruct (hex_to_rgb_valid c V) as (r & g & b & E & _).
  exists c, (r, g, b). auto.
Qed.

(** C1.  For a non-empty list of valid colours, [_interpolate_color] answers
    the first colour for every ratio at or below 0 and the last colour for
    every ratio at or above 1; the ratio is clamped to [0, 1] before anything
    else is computed from it; a list of one colour answers that colour for
    every ratio. *)
Theorem interpolate_color_endpoints (colors : list string) (ratio : Q) :
  colors <> [] ->
  Forall (fun c => valid_color c = true) colors ->
  exists (c_first c_last : string) (v_first v_last : rgb),
    head colors = Some c_first /\ last colors = Some c_last /\
    _hex_to_rgb c_first = Ok v_first /\ _hex_to_rgb c_last = Ok v_last /\
    ((ratio <= 0)%Q -> _interpolate_color colors ratio = Ok v_first) /\
    ((1 <= ratio)%Q -> _interpolate_color colors ratio = Ok v_last) /\
    _interpolate_color colors ratio
      = _interpolate_color colors (Py.max 0 (Py.min 1 ratio)) /\
    (length colors = 1%nat -> _interpolate_color colors ratio = Ok v_first).
Proof.
  intros Hne V.
  assert (Hlen : 0 < len colors) by (unfold len; destruct colors; [congruence | simpl; lia]).
  destruct (valid_getitem colors 0 V ltac:(lia)) as (c0 & v0 & G0 & L0 & H0).
  destruct (valid_getitem colors (len colors - 1) V ltac:(lia))
    as (cl & vl & Gl & Ll & Hl).
  exists c0, cl, v0, vl.
  assert (Hhead : head colors = Some c0).
  { rewrite head_lookup. exact L0. }
  assert (Hlast : last colors = Some cl).
  { rewrite last_lookup.
    replace (Nat.pred (length colors)) with (Z.to_nat (len colors - 1))
      by (unfold len; lia).
    exact Ll. }
  assert (Hsingle : len colors = 1 -> forall q, _interpolate_color colors q = Ok v0).
  { intros E q. unfold _interpolate_color. rewrite E. cbn [Z.eqb Pos.eqb].
    unfold mbind, result_bind, Py.bind. rewrite G0. exact H0. }
  repeat split; try assumption.
  - (* ratio <= 0 *)
    intros L. destruct (Z.eq_dec (len colors) 1) as [E|NE]; [apply Hsingle, E|].
    apply (interpolate_at_node colors ratio 0 c0 v0 NE); try assumption.
    + rewrite (clamp_low ratio L). ring.
    + destruct (valid_getitem colors (Z.min (0 + 1) (len colors - 1)) V ltac:(lia))
        as (c' & v' & G' & _ & H'). eauto.
  - (* 1 <= ratio *)
    intros L. destruct (Z.eq_dec (len colors) 1) as [E|NE].
    { rewrite (Hsingle E). replace cl with c0 in Hl; [congruence|].
      rewrite E in Ll. change (Z.to_nat (1 - 1)) with 0%nat in Ll.
      change (Z.to_nat 0) with 0%nat in L0. congruence. }
    apply (interpolate_at_node colors ratio (len colors - 1) cl vl NE); try assumption.
    + rewrite (clamp_high ratio L). ring.
    + replace (Z.min (len colors - 1 + 1) (len colors - 1)) with (len colors - 1) by lia.
      eauto.
  - (* clamping comes first *)
    unfold _interpolate_color. rewrite clamp_idempotent. reflexivity.
  - intros E. apply Hsingle. unfold len. lia.
Qed.

(** ** Line wrapping *)

Section Wrapping.

Context {pillow : Pillow}.
Variables (max_width : Z) (f : font).

Lemma wrap_step_flat (acc : list text * text) (char : N) :
  flat (wrap_step max_width f acc char) = flat acc ++ [char].
Proof.
  destruct acc as [lines current]. unfold wrap_step, flat.
  destruct (measure f (current ++ [char]) <=? max_width); cbn [fst snd].
  - rewrite app_assoc. reflexivity.
  - destruct current; cbn [fst snd].
    + rewrite app_nil_r. reflexivity.
    + rewrite concat_app. cbn [concat]. rewrite app_nil_r. reflexivity.
Qed.

Lemma wrap_fold_flat (s : text) (acc : list text * text) :
  flat (fold_left (wrap_step max_width f) s acc) = flat acc ++ s.
Proof.
  revert acc. induction s as [|char s IH]; intros acc; cbn [fold_left].
  - rewrite app_nil_r. reflexivity.
  - rewrite IH, wrap_step_flat, <- app_assoc. reflexivity.
Qed.

#[local] Abbreviation fits := (line_fits max_width f).
#[local] Abbreviation all_fit := (lines_fit max_width f).

Lemma wrap_step_fits (acc : list text * text) (char : N) :
  fits [char] -> all_fit acc -> all_fit (wrap_step max_width f acc char).
Proof.
  destruct acc as [lines current]. unfold wrap_step, all_fit. cbn [fst snd].
  intros Hc [Hl Hcur].
  destruct (measure f (current ++ [char]) <=? max_width) eqn:E; cbn [fst snd].
  - split; [exact Hl | right; apply Z.leb_le; exact E].
  - split; [|right; exact Hc].
    destruct current as [|c0 rest]; [exact Hl|].
    apply Forall_app. split; [exact Hl|].
    constructor; [|constructor].
    destruct Hcur as [?|?]; [discriminate | assumption].
Qed.

Lemma wrap_fold_fits (s : text) (acc : list text * text) :
  Forall (fun char => fits [char]) s -> all_fit acc ->
  all_fit (fold_left (wrap_step max_width f) s acc).
Proof.
  revert acc. induction s as [|char s IH]; intros acc Hs Hacc; cbn [fold_left].
  - exact Hacc.
  - inversion Hs; subst. apply IH; [assumption|]. apply wrap_step_fits; assumption.
Qed.

(** C4.  When no single character of the text is wider than [max_width],
    no line that [_wrap_text_lines] returns is wider than [max_width]. *)
Theorem wrap_text_lines_fit (s : text) :
  Forall (fun char => measure f [char] <= max_width) s ->
  Forall (fun line => measure f line <= max_width) (_wrap_text_lines s max_width f).
Proof.
  intros Hs. unfold _wrap_text_lines.
  pose proof (wrap_fold_fits s ([], []) Hs) as H.
  destruct (fold_left (wrap_step max_width f) s ([], [])) as [lines current].
  destruct H as [Hl Hc]; [split; [constructor | left; reflexivity]|].
  cbn [fst snd] in *.
  destruct current as [|c0 rest]; [exact Hl|].
  apply Forall_app. split; [exact Hl|].
  constructor; [|constructor].
  destruct Hc as [?|?]; [discriminate | assumption].
Qed.

(** C10.  The lines returned by [_wrap_text_lines], joined in order, are the
    input text: no character is dropped, repeated or moved. *)
Theorem wrap_text_lines_concat (s : text) :
  concat (_wrap_text_lines s max_width f) = s.
Proof.
  unfold _wrap_text_lines.
  pose proof (wrap_fold_flat s ([], [])) as H.
  destruct (fold_left (wrap_step max_width f) s ([], [])) as [lines current].
  unfold flat in H. cbn [fst snd concat app] in H.
  destruct current as [|c0 rest].
  - rewrite app_nil_r in H. exact H.
  - rewrite concat_app. cbn [concat]. rewrite app_nil_r. exact H.
Qed.

End Wrapping.

(** ** Drawing calls *)

Section DrawingRules.

Context {pillow : Pillow}.

Lemma set_canvas_same (s : state) : set_canvas (canvas s) s = s.
Proof. destruct s. reflexivity. Qed.

Lemma emits_ret : emits (mret tt) [].
Proof. intros s. cbn. rewrite set_canvas_same. reflexivity. Qed.

Lemma emits_seq (m1 m2 : M unit) (o1 o2 : list draw_op) :
  emits m1 o1 -> emits m2 o2 -> emits (m1 ;; m2) (o1 ++ o2).
Proof.
  intros H1 H2 s. unfold mbind, M_bind. rewrite H1, H2.
  unfold draw_all. rewrite fold_left_app. reflexivity.
Qed.

Lemma emits_lift {A : Type} (r : result A) (a : A) (k : A -> M unit)
    (ops : list draw_op) :
  r = Ok a -> emits (k a) ops -> emits (x ← lift r; k x) ops.
Proof.
  intros -> H s. unfold mbind, M_bind, lift. apply H.
Qed.

Lemma emits_for {A : Type} (l : list A) (body : A -> M unit)
    (g : A -> list draw_op) :
  (forall x, In x l -> emits (body x) (g x)) ->
  emits (for_ l body) (concat (map g l)).
Proof.
  induction l as [|x l IH]; intros H; cbn [for_ map concat].
  - apply emits_ret.
  - apply emits_seq; [apply H; left; reflexivity|].
    apply IH. intros y Hy. apply H. right. exact Hy.
Qed.

Lemma emits_paint (op : draw_op) : emits (paint op) [op].
Proof. intros s. reflexivity. Qed.

Lemma emits_rectangle (x0 y0 x1 y1 : Z) (fill outline : option color) (w : Z) :
  opt_color_ok fill = true -> opt_color_ok outline = true ->
  x0 <= x1 -> y0 <= y1 ->
  emits (draw_rectangle x0 y0 x1 y1 fill outline w)
        [Rectangle x0 y0 x1 y1 fill outline w].
Proof.
  intros Hf Ho Hx Hy. unfold draw_rectangle. rewrite Hf, Ho. cbn [andb negb].
  destruct (x1 <? x0) eqn:Ex; [apply Z.ltb_lt in Ex; lia|].
  destruct (y1 <? y0) eqn:Ey; [apply Z.ltb_lt in Ey; lia|].
  apply emits_paint.
Qed.

Lemma emits_line (points : list (Z * Z)) (fill : color) (w : Z) :
  color_ok fill = true -> emits (draw_line points fill w) [Line points fill w].
Proof.
  intros Hf. unfold draw_line. rewrite Hf. apply emits_paint.
Qed.

Lemma emits_ellipse (x0 y0 x1 y1 : Z) (fill : color) :
  color_ok fill = true -> x0 <= x1 -> y0 <= y1 ->
  emits (draw_ellipse x0 y0 x1 y1 fill) [Ellipse x0 y0 x1 y1 fill].
Proof.
  intros Hf Hx Hy. unfold draw_ellipse. rewrite Hf. cbn [negb].
  destruct (x1 <? x0) eqn:Ex; [apply Z.ltb_lt in Ex; lia|].
  destruct (y1 <? y0) eqn:Ey; [apply Z.ltb_lt in Ey; lia|].
  apply emits_paint.
Qed.

Lemma emits_text (x y : Z) (s : text) (fill : color) (f : font) :
  color_ok fill = true -> emits (draw_text x y s fill f) [Text x y s fill f].
Proof.
  intros Hf. unfold draw_text. rewrite Hf. apply emits_paint.
Qed.

End DrawingRules.

(** ** Decorative elements *)

Section Decorations.

Context {pillow : Pillow}.

Lemma decorative_elements_emits (width height complexity : Z)
    (colors : list string) (accent dot : string) :
  (if len colors >? 1 then getitem colors 1 else getitem colors 0) = Ok accent ->
  getrgb_ok accent = true ->
  (2 <= complexity -> 21 <= width /\ 21 <= height) ->
  (4 <= complexity ->
   (if len colors >? 2 then getitem colors (-1) else Ok accent) = Ok dot
   /\ getrgb_ok dot = true) ->
  emits (_add_decorative_elements width height complexity colors)
        (decoration_ops width height complexity accent dot).
Proof.
  intros Ha Hac Hsize Hdot. unfold _add_decorative_elements, decoration_ops.
  eapply emits_lift; [exact Ha|].
  apply emits_seq; [|apply emits_seq; [|apply emits_seq]].
  - destruct (complexity >=? 2) eqn:E; [|apply emits_ret].
    apply Z.geb_le in E. destruct (Hsize E).
    apply emits_rectangle; cbn; auto; lia.
  - destruct (complexity >=? 3) eqn:E; [|apply emits_ret].
    repeat (apply (emits_seq _ _ [_]); [apply emits_line; exact Hac|]).
    apply emits_line; exact Hac.
  - destruct (complexity >=? 4) eqn:E; [|apply emits_ret].
    apply Z.geb_le in E. destruct (Hdot E) as [Hd Hdc].
    cbn [for_].
    repeat (apply (emits_seq _ _ [_]);
            [eapply emits_lift; [exact Hd|]; apply emits_ellipse; [exact Hdc|lia|lia]|]).
    apply emits_ret.
  - destruct (complexity >=? 5) eqn:E; [|apply emits_ret].
    apply emits_line; exact Hac.
Qed.

Lemma palette_accent (colors : list string) :
  palette_ok colors ->
  exists accent,
    (if len colors >? 1 then getitem colors 1 else getitem colors 0) = Ok accent
    /\ accent_of colors = Some accent /\ hash_rrggbb accent = true.
Proof.
  intros [Hne V]. unfold accent_of.
  destruct colors as [|c0 [|c1 rest]]; [congruence| |].
  - exists c0. inversion V; subst. auto.
  - exists c1. inversion V as [|? ? ? V']; subst. inversion V'; subst.
    replace (len (c0 :: c1 :: rest) >? 1) with true; [auto|].
    symmetry. apply Z.gtb_lt. unfold len. cbn [length]. lia.
Qed.

Lemma palette_last (colors : list string) :
  palette_ok colors ->
  exists c, last colors = Some c /\ getitem colors (-1) = Ok c
            /\ hash_rrggbb c = true.
Proof.
  intros [Hne V].
  destruct (last colors) as [c|] eqn:E.
  - exists c. split; [reflexivity|]. split; [apply getitem_last; exact E|].
    rewrite Forall_forall in V. apply V.
    rewrite last_lookup in E. eapply list_elem_of_lookup_2. exact E.
  - apply last_None in E. contradiction.
Qed.

Lemma palette_decorations (width height complexity : Z) (colors : list string) :
  palette_ok colors -> 21 <= width -> 21 <= height ->
  exists accent c_last,
    accent_of colors = Some accent /\ last colors = Some c_last /\
    emits (_add_decorative_elements width height complexity colors)
          (decoration_ops width height complexity accent
             (if len colors >? 2 then c_last else accent)).
Proof.
  intros P Hw Hh.
  destruct (palette_accent colors P) as (accent & Ha & Hacc & Hav).
  destruct (palette_last colors P) as (c_last & Hl & Hg & Hlv).
  exists accent, c_last. split; [exact Hacc|]. split; [exact Hl|].
  apply decorative_elements_emits.
  - exact Ha.
  - apply getrgb_hex. exact Hav.
  - intros _. split; assumption.
  - intros _. destruct (len colors >? 2).
    + split; [exact Hg | apply getrgb_hex; exact Hlv].
    + split; [reflexivity | apply getrgb_hex; exact Hav].
Qed.

Lemma In_ornaments_decoration (width height k : Z) (accent dot : string)
    (o : ornament) :
  In o (ornaments (decoration_ops width height k accent dot)) <-> tier o <= k.
Proof.
  unfold decoration_ops, ornaments. rewrite !Z.geb_leb.
  destruct (Z.leb_spec 2 k), (Z.leb_spec 3 k), (Z.leb_spec 4 k), (Z.leb_spec 5 k);
    try lia; destruct o; cbn; split; intros; try lia; try tauto;
    repeat match goal with
           | H : _ \/ _ |- _ => destruct H
           | H : False |- _ => destruct H
           end; try discriminate.
Qed.

(** C8.  On a canvas of at least 21 by 21 pixels and with a valid palette,
    [_add_decorative_elements] at complexity 1 draws nothing; at complexity 5
    it draws a border, corner accents, dot markers and a divider; and the
    tiers are cumulative: every kind of ornament drawn at a tier is drawn at
    every higher tier, and every call other than the border rectangle (whose
    stroke widens at tier 4) is repeated unchanged. *)
Theorem decorative_elements_cumulative (width height : Z) (colors : list string) :
  palette_ok colors -> 21 <= width -> 21 <= height ->
  exists drawn : Z -> list draw_op,
    (forall k, emits (_add_decorative_elements width height k colors) (drawn k)) /\
    drawn 1 = [] /\
    (forall o : ornament, In o (ornaments (drawn 5))) /\
    (forall k k', k <= k' ->
       (forall o, In o (ornaments (drawn k)) -> In o (ornaments (drawn k'))) /\
       (forall op, In op (drawn k) -> ornament_of op <> Some Border ->
                   In op (drawn k'))).
Proof.
  intros P Hw Hh.
  destruct (palette_decorations width height 0 colors P Hw Hh)
    as (accent & c_last & Hacc & Hl & _).
  exists (fun k => decoration_ops width height k accent
                     (if len colors >? 2 then c_last else accent)).
  split.
  { intros k. destruct (palette_decorations width height k colors P Hw Hh)
      as (accent' & c_last' & Hacc' & Hl' & E).
    replace accent' with accent in E by congruence.
    replace c_last' with c_last in E by congruence. exact E. }
  split; [reflexivity|].
  split.
  { intros o. unfold decoration_ops, ornaments. cbn.
    destruct o; tauto. }
  intros k k' Hk. split.
  - intros o. rewrite !In_ornaments_decoration. lia.
  - intros op Hin Hnb.
    assert (mono : forall n, (k >=? n) = true -> (k' >=? n) = true).
    { intros n E. apply Z.geb_le in E. apply Z.geb_le. lia. }
    unfold decoration_ops in *. rewrite !in_app_iff in Hin. rewrite !in_app_iff.
    destruct Hin as [Hin|[Hin|[Hin|Hin]]].
    + destruct (k >=? 2); [|destruct Hin].
      destruct Hin as [<-|[]]. cbn in Hnb. congruence.
    + right; left. destruct (k >=? 3) eqn:E; [|destruct Hin].
      rewrite (mono 3 E). exact Hin.
    + right; right; left. destruct (k >=? 4) eqn:E; [|destruct Hin].
      rewrite (mono 4 E). exact Hin.
    + right; right; right. destruct (k >=? 5) eqn:E; [|destruct Hin].
      rewrite (mono 5 E). exact Hin.
Qed.

(** C5, as the code has it.  At complexity 4 and above the four dot markers
    are filled with the last colour of the palette when it has three or more
    entries (index 2 of a three-colour palette, index 3 of a four-colour one),
    and with the accent colour otherwise. *)
Theorem dot_markers_fill (width height complexity : Z) (colors : list string) :
  palette_ok colors -> 21 <= width -> 21 <= height -> 4 <= complexity ->
  exists (ops : list draw_op) (accent c_last : string),
    emits (_add_decorative_elements width height complexity colors) ops /\
    accent_of colors = Some accent /\ last colors = Some c_last /\
    length (filter is_ellipse ops) = 4%nat /\
    (forall x0 y0 x1 y1 fill, In (Ellipse x0 y0 x1 y1 fill) ops ->
       fill = ColorName (if len colors >? 2 then c_last else accent)) /\
    (len colors = 3 -> colors !! 2%nat = Some c_last) /\
    (len colors = 4 -> colors !! 3%nat = Some c_last).
Proof.
  intros P Hw Hh Hk.
  destruct (palette_decorations width height complexity colors P Hw Hh)
    as (accent & c_last & Hacc & Hl & E).
  eexists _, accent, c_last. split; [exact E|].
  split; [exact Hacc|]. split; [exact Hl|].
  assert (E2 : (complexity >=? 2) = true) by (apply Z.geb_le; lia).
  assert (E3 : (complexity >=? 3) = true) by (apply Z.geb_le; lia).
  assert (E4 : (complexity >=? 4) = true) by (apply Z.geb_le; lia).
  unfold decoration_ops. rewrite E2, E3, E4.
  split; [destruct (complexity >=? 5); reflexivity|].
  split.
  { intros x0 y0 x1 y1 fill Hin.
    destruct (complexity >=? 5); cbn in Hin;
      repeat (destruct Hin as [Hin|Hin]; [congruence|]); destruct Hin. }
  rewrite last_lookup in Hl. unfold len. split; intros L;
    [replace 2%nat with (Nat.pred (length colors)) by lia
    |replace 3%nat with (Nat.pred (length colors)) by lia]; exact Hl.
Qed.

End Decorations.

(** ** Vertical text *)

Section VerticalText.

Context {pillow : Pillow}.

Lemma length_range (n : Z) : length (range n) = Z.to_nat n.
Proof. unfold range. rewrite length_fmap, length_seq. reflexivity. Qed.

Lemma length_enumerate {A : Type} (l : list A) : length (enumerate l) = length l.
Proof.
  unfold enumerate. rewrite length_zip_with, length_range. unfold len. lia.
Qed.

Lemma slice_list_length {A : Type} (i j : Z) (l : list A) :
  0 <= i <= j -> j <= len l -> length (slice_list i j l) = Z.to_nat (j - i).
Proof.
  intros Hi Hj. unfold slice_list, len in *.
  rewrite length_take, length_drop. lia.
Qed.

Lemma slice_list_chain {A : Type} (i j k : Z) (l : list A) :
  0 <= i <= j -> j <= k ->
  slice_list i j l ++ slice_list j k l = slice_list i k l.
Proof.
  intros Hi Hk. unfold slice_list.
  replace (Z.to_nat j) with (Z.to_nat i + Z.to_nat (j - i))%nat by lia.
  rewrite <- drop_drop.
  replace (Z.to_nat (k - i)) with (Z.to_nat (j - i) + Z.to_nat (k - j))%nat by lia.
  rewrite take_take_drop. reflexivity.
Qed.

Lemma slice_list_all {A : Type} (l : list A) (j : Z) :
  len l <= j -> slice_list 0 j l = l.
Proof.
  intros H. unfold slice_list, len in *. cbn [Z.to_nat drop].
  apply take_ge. lia.
Qed.

Lemma concat_map_singleton {A B : Type} (h : A -> B) (l : list A) :
  concat (map (fun x => [h x]) l) = map h l.
Proof.
  induction l as [|x l IH]; [reflexivity|]. cbn. rewrite IH. reflexivity.
Qed.

Lemma column_emits (col_x y row_pitch : Z) (chars : text) (color : string) (f : font) :
  getrgb_ok color = true ->
  emits (for_ (enumerate chars) (fun '(row, char) =>
           let char_x := col_x in
           let char_y := y + row * row_pitch in
           draw_text char_x char_y [char] (ColorName color) f))
        (map (fun '(row, char) =>
                Text col_x (y + row * row_pitch) [char] (ColorName color) f)
             (enumerate chars)).
Proof.
  intros Hc. rewrite <- concat_map_singleton.
  apply emits_for. intros [row char] _. apply emits_text. exact Hc.
Qed.

(** The two nested loops of [_draw_vertical_text], for a text [s] of
    [total_chars <= 30] characters and a block that starts at [x]. *)
Lemma vertical_loops (s : text) (total_chars x current_y : Z) (f : font)
    (color : string) :
  getrgb_ok color = true -> total_chars = len s -> total_chars <= 30 ->
  exists cols : list text,
    emits
      (for_
         (range
            (if (total_chars >? 0) && (Z.min ((total_chars + 10 - 1) / 10) 3 =? 0)
             then 1 else Z.min ((total_chars + 10 - 1) / 10) 3))
         (fun col =>
            for_ (enumerate (slice_list (col * 10)
                               (Z.min (col * 10 + 10) total_chars) s))
              (fun '(row, char) =>
                 draw_text (x + col * Z.max (font_size f) 12)
                   (current_y + row * (font_size f + 8)) [char]
                   (ColorName color) f)))
      (column_ops x current_y (Z.max (font_size f) 12) (font_size f + 8)
         color f cols)
    /\ concat cols = s
    /\ len cols = (total_chars + 9) / 10
    /\ Forall (fun col => 1 <= len col <= 10) cols.
Proof.
  intros Hc HT Hle.
  assert (H0 : 0 <= total_chars) by (subst; unfold len; lia).
  assert (Hcases : total_chars = 0 \/ 1 <= total_chars <= 10
                   \/ 11 <= total_chars <= 20 \/ 21 <= total_chars <= 30) by lia.
  destruct Hcases as [Z0|[C1|[C2|C3]]].
  - exists []. subst total_chars. rewrite Z0. cbn.
    split; [apply emits_ret|].
    split; [destruct s; [reflexivity | unfold len in Z0; cbn in Z0; lia]|].
    split; [reflexivity | constructor].
  - exists [slice_list (0 * 10) (Z.min (0 * 10 + 10) total_chars) s].
    match goal with
    | |- context [range ?n] => replace n with 1
    end.
    2:{ destruct (total_chars >? 0); cbn [andb];
        [destruct (_ =? 0) eqn:E|]; Z.div_mod_to_equations; lia. }
    split.
    { change (range 1) with [0]. cbn [for_].
      unfold column_ops. cbn [enumerate len length Z.of_nat range seq zip_with
        Z.to_nat Pos.to_nat Pos.iter_op Nat.add fmap list_fmap map concat].
      apply emits_seq; [|apply emits_ret].
      apply column_emits. exact Hc. }
    change (0 * 10) with 0. change (0 + 10) with 10.
    replace (Z.min 10 total_chars) with total_chars by lia.
    rewrite slice_list_all by lia.
    split; [cbn; apply app_nil_r|].
    split; [unfold len at 1; cbn; Z.div_mod_to_equations; lia|].
    constructor; [lia | constructor].
  - exists [slice_list (0 * 10) (Z.min (0 * 10 + 10) total_chars) s;
            slice_list (1 * 10) (Z.min (1 * 10 + 10) total_chars) s].
    match goal with
    | |- context [range ?n] => replace n with 2
    end.
    2:{ destruct (total_chars >? 0); cbn [andb];
        [destruct (_ =? 0) eqn:E|]; Z.div_mod_to_equations; lia. }
    split.
    { change (range 2) with [0; 1]. cbn [for_].
      unfold column_ops. cbn [enumerate len length Z.of_nat range seq zip_with
        Z.to_nat Pos.to_nat Pos.iter_op Nat.add fmap list_fmap map concat
        Pos.of_succ_nat Pos.succ].
      repeat (apply emits_seq; [apply column_emits; exact Hc|]).
      apply emits_ret. }
    change (0 * 10) with 0. change (0 + 10) with 10.
    change (1 * 10) with 10. change (10 + 10) with 20.
    replace (Z.min 10 total_chars) with 10 by lia.
    replace (Z.min 20 total_chars) with total_chars by lia.
    split.
    { cbn [concat]. rewrite app_nil_r.
      rewrite slice_list_chain by lia. apply slice_list_all. lia. }
    split; [unfold len at 1; cbn; Z.div_mod_to_equations; lia|].
    unfold len. repeat constructor;
      rewrite slice_list_length by (unfold len in *; lia); lia.
  - exists [slice_list (0 * 10) (Z.min (0 * 10 + 10) total_chars) s;
            slice_list (1 * 10) (Z.min (1 * 10 + 10) total_chars) s;
            slice_list (2 * 10) (Z.min (2 * 10 + 10) total_chars) s].
    match goal with
    | |- context [range ?n] => replace n with 3
    end.
    2:{ destruct (total_chars >? 0); cbn [andb];
        [destruct (_ =? 0) eqn:E|]; Z.div_mod_to_equations; lia. }
    split.
    { change (range 3) with [0; 1; 2]. cbn [for_].
      unfold column_ops. cbn [enumerate len length Z.of_nat range seq zip_with
        Z.to_nat Pos.to_nat Pos.iter_op Nat.add fmap list_fmap map concat
        Pos.of_succ_nat Pos.succ].
      repeat (apply emits_seq; [apply column_emits; exact Hc|]).
      apply emits_ret. }
    change (0 * 10) with 0. change (0 + 10) with 10.
    change (1 * 10) with 10. change (10 + 10) with 20.
    change (2 * 10) with 20. change (20 + 10) with 30.
    replace (Z.min 10 total_chars) with 10 by lia.
    replace (Z.min 20 total_chars) with 20 by lia.
    replace (Z.min 30 total_chars) with total_chars by lia.
    split.
    { cbn [concat]. rewrite app_nil_r.
      rewrite !slice_list_chain by lia. apply slice_list_all. lia. }
    split; [unfold len at 1; cbn; Z.div_mod_to_equations; lia|].
    unfold len. repeat constructor;
      rewrite slice_list_length by (unfold len in *; lia); lia.
Qed.

Lemma columns_length_gen (x0 y pitch row_pitch : Z) (color : string) (f : font)
    (cols : list text) (idx : list Z) :
  length idx = length cols ->
  length (concat (map (fun '(i, col) =>
                         map (fun '(row, char) =>
                                Text (x0 + i * pitch) (y + row * row_pitch) [char]
                                  (ColorName color) f)
                             (enumerate col))
                      (zip idx cols)))
  = length (concat cols).
Proof.
  revert idx. induction cols as [|col cols IH]; intros idx L.
  - destruct idx; reflexivity.
  - destruct idx as [|i idx]; [discriminate|].
    cbn [zip_with map concat]. rewrite !length_app, length_map, length_enumerate.
    rewrite IH by (cbn in L; lia). reflexivity.
Qed.

Lemma column_ops_length (x0 y pitch row_pitch : Z) (color : string) (f : font)
    (cols : list text) :
  length (column_ops x0 y pitch row_pitch color f cols) = length (concat cols).
Proof.
  unfold column_ops, enumerate at 2. apply columns_length_gen.
  rewrite length_range. unfold len. lia.
Qed.

(** C2.  [_draw_vertical_text] draws the first 30 characters of the text, and
    no others, one call per character, in columns of at most ten: [cols]
    lists the characters of each column, from the leftmost on.  There are
    [min(ceil(n / 10), 3)] columns, none of them empty; a warning is logged
    exactly when the text had more than 30 characters. *)
Theorem draw_vertical_text_columns (s : text) (area : text_area) (current_y : Z)
    (f : font) (color : string) (alignment : TextAlignment) (st : state) :
  getrgb_ok color = true ->
  exists (cols : list text) (x : Z) (st' : state),
    _draw_vertical_text s area current_y f color alignment st
      = (Ok (current_y + Z.min (len s) 10 * (font_size f + 8) + 20), st') /\
    canvas st' = draw_all (canvas st)
                   (column_ops x current_y (Z.max (font_size f) 12)
                      (font_size f + 8) color f cols) /\
    fs st' = fs st /\
    log st' = log st ++ (if len s >? 30
                         then [(WARNING, "[VERTICAL] Text truncated"%string)]
                         else []) /\
    concat cols = take 30 s /\
    len (column_ops x current_y (Z.max (font_size f) 12) (font_size f + 8)
           color f cols) = Z.min (len s) 30 /\
    len cols = Z.min ((len s + 9) / 10) 3 /\
    (0 < len s -> 1 <= len cols) /\
    Forall (fun col => 1 <= len col <= 10) cols /\
    (len s = 35 ->
     len cols = 3 /\ len (concat cols) = 30
     /\ In (WARNING, "[VERTICAL] Text truncated"%string) (log st')) /\
    (len s = 7 -> cols = [s]).
Proof.
  intros Hc. unfold _draw_vertical_text. cbv zeta.
  pose (columns := fun total_chars =>
          if (total_chars >? 0) && (Z.min ((total_chars + 10 - 1) / 10) 3 =? 0)
          then 1 else Z.min ((total_chars + 10 - 1) / 10) 3).
  pose (block_x := fun total_chars =>
          match alignment with
          | LEFT => x_start area
          | CENTER =>
              x_start area
              + (area_width area - columns total_chars * Z.max (font_size f) 12) / 2
          | RIGHT =>
              x_start area + area_width area
              - columns total_chars * Z.max (font_size f) 12
          end).
  destruct (len s >? 10 * 3) eqn:E.
  - apply Z.gtb_lt in E. change (10 * 3) with 30 in *.
    assert (L30 : 30 = len (slice_list 0 30 s)).
    { unfold len in *. rewrite slice_list_length; unfold len; lia. }
    assert (T30 : slice_list 0 30 s = take 30 s) by reflexivity.
    destruct (vertical_loops (slice_list 0 30 s) 30 (block_x 30) current_y f color
                Hc L30 ltac:(lia)) as (cols & Hemits & Hcat & Hlen & Hall).
    exists cols, (block_x 30).
    eexists. split.
    { unfold mbind, M_bind, logger, modify, mret, M_ret. rewrite Hemits.
      replace (Z.min 30 10) with (Z.min (len s) 10) by lia. reflexivity. }
    cbn [canvas fs log set_canvas add_log].
    assert (Hn : len (concat cols) = 30) by (rewrite Hcat; lia).
    replace (len s >? 30) with true by (symmetry; apply Z.gtb_lt; exact E).
    change ((30 + 9) / 10) with 3 in Hlen.
    repeat split; try reflexivity; try assumption; try lia.
    + unfold len at 1. rewrite column_ops_length. unfold len in Hn. lia.
    + rewrite Hlen. Z.div_mod_to_equations; lia.
    + apply in_app_iff. right. left. reflexivity.
  - assert (L : len s <= 30).
    { change (10 * 3) with 30 in E. destruct (Z.gtb_spec (len s) 30); [discriminate | lia]. }
    destruct (vertical_loops s (len s) (block_x (len s)) current_y f color
                Hc eq_refl L) as (cols & Hemits & Hcat & Hlen & Hall).
    exists cols, (block_x (len s)).
    eexists. split.
    { unfold mbind, M_bind, mret, M_ret. rewrite Hemits. reflexivity. }
    cbn [canvas fs log set_canvas].
    replace (len s >? 30) with false
      by (symmetry; destruct (Z.gtb_spec (len s) 30); [lia | reflexivity]).
    assert (H0 : 0 <= len s) by (unfold len; lia).
    repeat split; try reflexivity; try assumption; try lia.
    + rewrite app_nil_r. reflexivity.
    + rewrite Hcat. symmetry. apply take_ge. unfold len in L. lia.
    + unfold len at 1. rewrite column_ops_length, Hcat. unfold len in *. lia.
    + rewrite Hlen. Z.div_mod_to_equations; lia.
    + rewrite Hlen. Z.div_mod_to_equations; lia.
    + intros L7. rewrite L7 in Hlen. change ((7 + 9) / 10) with 1 in Hlen.
      destruct cols as [|c0 [|c1 cols]]; try (unfold len in Hlen; cbn in Hlen; lia).
      cbn in Hcat. rewrite app_nil_r in Hcat. congruence.
Qed.

End VerticalText.

(** ** Fitting an image to a zone *)

Lemma truediv_ok (a b : Q) : ~ (b == 0)%Q -> truediv a b = Ok (a / b)%Q.
Proof.
  intros H. unfold truediv. destruct (Qeq_bool b 0) eqn:E; [|reflexivity].
  apply Qeq_bool_iff in E. contradiction.
Qed.

Lemma inject_Z_pos (n : Z) : 1 <= n -> (0 < inject_Z n)%Q.
Proof.
  intros H. change 0%Q with (inject_Z 0). rewrite <- Zlt_Qlt. lia.
Qed.

Lemma resize_size (p : picture) (w h : Z) :
  1 <= w -> 1 <= h ->
  exists q, resize p w h = Ok q /\ image_size q = (w, h).
Proof.
  intros Hw Hh. unfold resize.
  destruct ((image_width p =? w) && (image_height p =? h)) eqn:E.
  - exists p. split; [reflexivity|].
    apply andb_true_iff in E. destruct E as [E1 E2].
    apply Z.eqb_eq in E1, E2. unfold image_width, image_height in *.
    destruct (image_size p). cbn in *. congruence.
  - destruct (w <? 1) eqn:E1; [apply Z.ltb_lt in E1; lia|].
    destruct (h <? 1) eqn:E2; [apply Z.ltb_lt in E2; lia|].
    exists (Resize p w h). split; reflexivity.
Qed.

Lemma crop_ok (p : picture) (l u r b : Z) :
  l <= r -> u <= b -> crop p l u r b = Ok (Crop p l u r b).
Proof.
  intros H1 H2. unfold crop.
  destruct (r <? l) eqn:E1; [apply Z.ltb_lt in E1; lia|].
  destruct (b <? u) eqn:E2; [apply Z.ltb_lt in E2; lia|].
  reflexivity.
Qed.

Lemma fit_image_to_zone_ok (image : picture) (target_width target_height : Z) :
  1 <= image_width image -> 1 <= image_height image ->
  1 <= target_width -> 1 <= target_height ->
  exists fitted,
    _fit_image_to_zone image target_width target_height = Ok fitted
    /\ image_size fitted = (target_width, target_height).
Proof.
  intros Hiw Hih Htw Hth. unfold _fit_image_to_zone.
  pose proof (inject_Z_pos _ Hiw) as Piw. pose proof (inject_Z_pos _ Hih) as Pih.
  pose proof (inject_Z_pos _ Htw) as Ptw. pose proof (inject_Z_pos _ Hth) as Pth.
  rewrite (truediv_ok _ (inject_Z target_height))
    by (intros E; rewrite E in Pth; exact (Qlt_irrefl _ Pth)).
  rewrite (truediv_ok _ (inject_Z (image_height image)))
    by (intros E; rewrite E in Pih; exact (Qlt_irrefl _ Pih)).
  cbn [mbind result_bind Py.bind].
  assert (Pratio : (0 < inject_Z target_width / inject_Z target_height)%Q).
  { apply Qlt_shift_div_l; [exact Pth|]. rewrite Qmult_0_l. exact Ptw. }
  destruct (Qltb _ (1 # 10)); [apply resize_size; assumption|].
  destruct (Qltb _ _).
  - rewrite crop_ok.
    + cbn [Py.bind]. apply resize_size; assumption.
    + assert (0 <= int_of_float (inject_Z (image_height image)
                                 * (inject_Z target_width / inject_Z target_height))).
      { apply int_of_float_nonneg_le. apply Qmult_le_0_compat.
        - apply Qlt_le_weak. exact Pih.
        - apply Qlt_le_weak. exact Pratio. }
      lia.
    + lia.
  - rewrite truediv_ok
      by (intros E; rewrite E in Pratio; exact (Qlt_irrefl _ Pratio)).
    cbn [mbind result_bind Py.bind]. rewrite crop_ok.
    + cbn [Py.bind]. apply resize_size; assumption.
    + lia.
    + assert (0 <= int_of_float (inject_Z (image_width image)
                                 / (inject_Z target_width / inject_Z target_height))).
      { apply int_of_float_nonneg_le. apply Qlt_le_weak.
        apply Qlt_shift_div_l; [exact Pratio|]. rewrite Qmult_0_l. exact Piw. }
      lia.
Qed.

(** C3.  For a source image of at least 1 by 1 pixels and a target of at
    least 1 by 1, [_fit_image_to_zone] returns an image, and its size is the
    target size. *)
Theorem fit_image_to_zone_size (image : picture) (target_width target_height : Z) :
  1 <= image_width image -> 1 <= image_height image ->
  1 <= target_width -> 1 <= target_height ->
  exists fitted,
    _fit_image_to_zone image target_width target_height = Ok fitted
    /\ image_size fitted = (target_width, target_height).
Proof.
  intros Hiw Hih Htw Hth.
  destruct (fit_image_to_zone_ok image target_width target_height Hiw Hih Htw Hth)
    as (fitted & Efit & Esize).
  exists fitted. split; assumption.
Qed.

(** ** What the drawing code leaves alone *)

#[global] Instance same_size_preorder : PreOrder same_size.
Proof.
  split; [intros s; reflexivity|].
  intros a b c H1 H2. unfold same_size in *. congruence.
Qed.

#[global] Instance same_files_preorder : PreOrder same_files.
Proof.
  split; [intros s; split; reflexivity|].
  intros a b c [H1 H1'] [H2 H2']. unfold same_files in *. split; congruence.
Qed.

Create HintDb keeps.

Section Keeps.

Context {pillow : Pillow}.
Context (R : relation state) {R_preorder : PreOrder R}.

Lemma keeps_ret {A : Type} (a : A) : keeps R (mret a : M A).
Proof. intros s. reflexivity. Qed.

Lemma keeps_lift {A : Type} (r : result A) : keeps R (lift r).
Proof. intros s. reflexivity. Qed.

Lemma keeps_get : keeps R get.
Proof. intros s. reflexivity. Qed.

Lemma keeps_bind {A B : Type} (m : M A) (k : A -> M B) :
  keeps R m -> (forall a, keeps R (k a)) -> keeps R (m ≫= k).
Proof.
  intros Hm Hk s. unfold mbind, M_bind. specialize (Hm s).
  destruct (m s) as [[a|e] s1]; cbn [snd] in *.
  - etransitivity; [exact Hm | apply Hk].
  - exact Hm.
Qed.

Lemma keeps_try {A : Type} (body : M A) (handler : exn -> M A) :
  keeps R body -> (forall e, keeps R (handler e)) ->
  keeps R (try_except body handler).
Proof.
  intros Hb Hh s. unfold try_except. specialize (Hb s).
  destruct (body s) as [[a|e] s1]; cbn [snd] in *.
  - exact Hb.
  - etransitivity; [exact Hb | apply Hh].
Qed.

Lemma keeps_for {A : Type} (l : list A) (body : A -> M unit) :
  (forall x, keeps R (body x)) -> keeps R (for_ l body).
Proof.
  intros H. induction l as [|x l IH]; cbn [for_].
  - apply keeps_ret.
  - apply keeps_bind; [apply H | intros _; exact IH].
Qed.

Lemma keeps_fold {A B : Type} (body : B -> A -> M B) (l : list A) (b : B) :
  (forall b x, keeps R (body b x)) -> keeps R (fold_M body l b).
Proof.
  intros H. revert b. induction l as [|x l IH]; intros b; cbn [fold_M].
  - apply keeps_ret.
  - apply keeps_bind; [apply H | intros b'; apply IH].
Qed.

End Keeps.

Section KeepsPrimitives.

Context {pillow : Pillow}.

Lemma files_modify_canvas (f : state -> picture) :
  keeps same_files (modify (fun s => set_canvas (f s) s)).
Proof. intros s. split; reflexivity. Qed.

Lemma keeps_logger (R : relation state) (l : level) (msg : string) :
  (forall s, R s (add_log l msg s)) -> keeps R (logger l msg).
Proof. intros H s. apply H. Qed.

Lemma size_logger (l : level) (msg : string) : keeps same_size (logger l msg).
Proof. apply keeps_logger. intros s. reflexivity. Qed.

Lemma files_logger (l : level) (msg : string) : keeps same_files (logger l msg).
Proof. apply keeps_logger. intros s. split; reflexivity. Qed.

Lemma size_paint (op : draw_op) : keeps same_size (paint op).
Proof. intros s. reflexivity. Qed.

Lemma files_paint (op : draw_op) : keeps same_files (paint op).
Proof. intros s. split; reflexivity. Qed.

Lemma keeps_rectangle (R : relation state) `{!PreOrder R}
    (x0 y0 x1 y1 : Z) (fill outline : option color) (w : Z) :
  (forall op, keeps R (paint op)) ->
  keeps R (draw_rectangle x0 y0 x1 y1 fill outline w).
Proof.
  intros H. unfold draw_rectangle.
  destruct (negb _); [apply keeps_lift; assumption|].
  destruct (_ || _); [apply keeps_lift; assumption | apply H].
Qed.

Lemma keeps_line (R : relation state) `{!PreOrder R}
    (points : list (Z * Z)) (fill : color) (w : Z) :
  (forall op, keeps R (paint op)) -> keeps R (draw_line points fill w).
Proof.
  intros H. unfold draw_line.
  destruct (negb _); [apply keeps_lift; assumption | apply H].
Qed.

Lemma keeps_ellipse (R : relation state) `{!PreOrder R}
    (x0 y0 x1 y1 : Z) (fill : color) :
  (forall op, keeps R (paint op)) -> keeps R (draw_ellipse x0 y0 x1 y1 fill).
Proof.
  intros H. unfold draw_ellipse.
  destruct (negb _); [apply keeps_lift; assumption|].
  destruct (_ || _); [apply keeps_lift; assumption | apply H].
Qed.

Lemma keeps_text (R : relation state) `{!PreOrder R}
    (x y : Z) (s : text) (fill : color) (f : font) :
  (forall op, keeps R (paint op)) -> keeps R (draw_text x y s fill f).
Proof.
  intros H. unfold draw_text.
  destruct (negb _); [apply keeps_lift; assumption | apply H].
Qed.

Lemma keeps_reader {A : Type} (R : relation state) `{!PreOrder R} (m : M A) :
  (forall s, snd (m s) = s) -> keeps R m.
Proof. intros H s. rewrite H. reflexivity. Qed.

Lemma keeps_exists (R : relation state) `{!PreOrder R} (path : string) :
  keeps R (Path_exists path).
Proof. apply keeps_reader; [assumption|]. intros s. reflexivity. Qed.

Lemma keeps_stat (R : relation state) `{!PreOrder R} (path : string) :
  keeps R (Path_stat path).
Proof.
  apply keeps_reader; [assumption|]. intros s. unfold Path_stat.
  destruct (fs s !! path); reflexivity.
Qed.

Lemma keeps_open (R : relation state) `{!PreOrder R} (path : string) :
  keeps R (Image_open path).
Proof.
  apply keeps_reader; [assumption|]. intros s. unfold Image_open.
  destruct (fs s !! path) as [[]|]; reflexivity.
Qed.

Lemma keeps_truetype (R : relation state) `{!PreOrder R} (path : string) (size : Z) :
  keeps R (truetype path size).
Proof.
  apply keeps_reader; [assumption|]. intros s. unfold truetype.
  destruct (fs s !! path) as [[]|]; reflexivity.
Qed.

End KeepsPrimitives.

#[global] Hint Resolve keeps_ret keeps_lift keeps_get size_logger files_logger
  size_paint files_paint keeps_rectangle keeps_line keeps_ellipse keeps_text
  keeps_exists keeps_stat keeps_open keeps_truetype files_modify_canvas : keeps.

Ltac keeps_step :=
  first
    [ solve [auto with keeps typeclass_instances]
    | apply keeps_bind; [try typeclasses eauto| |intros ?]
    | apply keeps_try; [try typeclasses eauto| |intros ?]
    | apply keeps_for; [try typeclasses eauto|intros ?]
    | apply keeps_fold; [try typeclasses eauto|intros ? ?]
    | match goal with
      | |- keeps _ (if ?b then _ else _) => destruct b
      | |- keeps _ (match ?x with _ => _ end) => destruct x
      | |- keeps _ (let '(_, _) := ?x in _) => destruct x
      end ].

Section KeepsGenerator.

Context {pillow : Pillow}.

Lemma size_decorative (width height complexity : Z) (colors : list string) :
  keeps same_size (_add_decorative_elements width height complexity colors).
Proof.
  unfold _add_decorative_elements. repeat keeps_step.
Qed.

Lemma size_layout (width height : Z) (layout : LayoutType) (colors : list string)
    (is_preview : bool) :
  keeps same_size (_apply_layout width height layout colors is_preview).
Proof.
  unfold _apply_layout. destruct layout; repeat keeps_step.
Qed.

Lemma files_paste (src : picture) (x y : Z) : keeps same_files (paste src x y).
Proof. intros s. split; reflexivity. Qed.

Lemma files_paste_color (c : rgb) (l u r b : Z) :
  keeps same_files (paste_color c l u r b).
Proof. intros s. split; reflexivity. Qed.

Lemma files_putpixel (x y : Z) (c : rgb) : keeps same_files (putpixel x y c).
Proof. intros s. split; reflexivity. Qed.

Lemma files_decorative (width height complexity : Z) (colors : list string) :
  keeps same_files (_add_decorative_elements width height complexity colors).
Proof.
  unfold _add_decorative_elements. repeat keeps_step.
Qed.

Lemma files_load_font (size : Z) : keeps same_files (_load_font size).
Proof.
  unfold _load_font. induction font_paths as [|path paths IH]; cbn [load_font_from].
  - repeat keeps_step.
  - apply keeps_bind; [typeclasses eauto | auto with keeps typeclass_instances|].
    intros []; [|exact IH].
    apply keeps_try; [typeclasses eauto | auto with keeps typeclass_instances|].
    intros _. apply keeps_bind; [typeclasses eauto | auto with keeps|].
    intros _. exact IH.
Qed.

Lemma files_draw_vertical_text (s : text) (area : text_area) (current_y : Z)
    (f : font) (color : string) (alignment : TextAlignment) :
  keeps same_files (_draw_vertical_text s area current_y f color alignment).
Proof.
  unfold _draw_vertical_text. repeat keeps_step.
Qed.

Lemma files_draw_horizontal_text (s : text) (area : text_area) (current_y : Z)
    (f : font) (color : string) (alignment : TextAlignment) :
  keeps same_files (_draw_horizontal_text s area current_y f color alignment).
Proof.
  unfold _draw_horizontal_text. repeat keeps_step.
Qed.

Lemma files_wrap_text (s : text) (position : Z * Z) (max_width : Z) (f : font)
    (color : string) :
  keeps same_files (_wrap_text s position max_width f color).
Proof.
  unfold _wrap_text. repeat keeps_step.
Qed.

#[local] Hint Resolve files_paste files_paste_color files_putpixel files_decorative
  files_load_font files_draw_vertical_text files_draw_horizontal_text
  files_wrap_text : keeps.

Lemma files_add_rich_text (width height : Z) (layout : LayoutType)
    (rich_text : RichTextContent) (colors : list string)
    (text_position : option TextPosition) :
  keeps same_files (_add_rich_text width height layout rich_text colors text_position).
Proof.
  unfold _add_rich_text. repeat keeps_step.
Qed.

Lemma files_add_plain_text (width height : Z) (layout : LayoutType) (s : text)
    (colors : list string) (text_position : option TextPosition) :
  keeps same_files (_add_plain_text width height layout s colors text_position).
Proof.
  unfold _add_plain_text. repeat keeps_step.
Qed.

#[local] Hint Resolve files_add_rich_text files_add_plain_text : keeps.

Lemma files_add_user_text (width height : Z) (layout : LayoutType) (s : text)
    (colors : list string) (rich_text : option RichTextContent)
    (text_position : option TextPosition) :
  keeps same_files (_add_user_text width height layout s colors rich_text text_position).
Proof.
  unfold _add_user_text. repeat keeps_step.
Qed.

Lemma files_draw_gradient (direction : GradientDirection) (colors : list string) :
  keeps same_files (_draw_gradient direction colors).
Proof.
  unfold _draw_gradient. repeat keeps_step.
Qed.

Lemma files_draw_image_background (image_path : string) (opacity : Q)
    (fit_mode : string) :
  keeps same_files (_draw_image_background image_path opacity fit_mode).
Proof.
  unfold _draw_image_background. repeat keeps_step.
Qed.

#[local] Hint Resolve files_draw_gradient files_draw_image_background : keeps.

Lemma files_draw_background (background : option BackgroundSettings) :
  keeps same_files (_draw_background background).
Proof.
  unfold _draw_background. repeat keeps_step.
Qed.

#[local] Hint Resolve files_draw_background files_add_user_text : keeps.

Lemma files_fill_content (request : GenerateFinalRequest)
    (user_photo_path : option string) (content_width content_height : Z) :
  keeps same_files (fill_content request user_photo_path content_width content_height).
Proof.
  unfold fill_content. repeat keeps_step.
Qed.

End KeepsGenerator.

(** ** Colour strings produced by [_lighten_color] *)

Lemma format_02X_table :
  forallb (fun n => two_hex_digits (format_02X (Z.of_nat n))) (seq 0 256) = true.
Proof. vm_compute. reflexivity. Qed.

Lemma format_02X_hex (v : Z) :
  channel v -> two_hex_digits (format_02X v) = true.
Proof.
  intros [H0 H1]. pose proof format_02X_table as T.
  rewrite forallb_forall in T. specialize (T (Z.to_nat v)).
  rewrite Z2Nat.id in T by lia. apply T. apply in_seq. lia.
Qed.

Lemma hash_rrggbb_valid (c : string) : hash_rrggbb c = true -> valid_color c = true.
Proof.
  unfold hash_rrggbb, valid_color. destruct c as [|h r]; [discriminate|].
  rewrite andb_true_iff. intros [Hh Hr].
  apply Ascii.eqb_eq in Hh. subst h. cbn [lstrip].
  change (Ascii.eqb "#" "#") with true. cbv iota.
  destruct r as [|a r]; [discriminate|]. cbn [lstrip].
  destruct (Ascii.eqb a "#") eqn:E; [|exact Hr].
  apply Ascii.eqb_eq in E. subst a.
  destruct r as [|? [|? [|? [|? [|? [|? ?]]]]]]; discriminate.
Qed.

Lemma lighten_color_valid (c : string) (percent : Z) :
  hash_rrggbb c = true -> 0 <= percent ->
  exists c', _lighten_color c percent = Ok c' /\ hash_rrggbb c' = true.
Proof.
  intros V Hp. unfold _lighten_color.
  destruct (hex_to_rgb_valid c (hash_rrggbb_valid c V)) as (r & g & b & E & Hr & Hg & Hb).
  rewrite E. cbn [mbind result_bind Py.bind mret result_ret].
  assert (F : (0 <= 1 + inject_Z percent / 100)%Q).
  { apply Qle_trans with 1%Q; [discriminate|].
    rewrite <- (Qplus_0_r 1) at 1. apply Qplus_le_r.
    apply Qle_shift_div_l; [reflexivity|]. rewrite Qmult_0_l.
    change 0%Q with (inject_Z 0). rewrite <- Zle_Qle. exact Hp. }
  assert (scaled : forall v, channel v ->
            channel (Z.min 255 (int_of_float (inject_Z v * (1 + inject_Z percent / 100))))).
  { intros v [V0 V1]. split; [|lia].
    apply Z.min_glb; [lia|]. apply int_of_float_nonneg_le.
    apply Qmult_le_0_compat; [|exact F].
    change 0%Q with (inject_Z 0). rewrite <- Zle_Qle. exact V0. }
  eexists. split; [reflexivity|].
  pose proof (format_02X_hex _ (scaled r Hr)) as Fr.
  pose proof (format_02X_hex _ (scaled g Hg)) as Fg.
  pose proof (format_02X_hex _ (scaled b Hb)) as Fb.
  destruct (format_02X (Z.min 255 (int_of_float (inject_Z r * _))))
    as [|r1 [|r2 [|? ?]]]; try discriminate.
  destruct (format_02X (Z.min 255 (int_of_float (inject_Z g * _))))
    as [|g1 [|g2 [|? ?]]]; try discriminate.
  destruct (format_02X (Z.min 255 (int_of_float (inject_Z b * _))))
    as [|b1 [|b2 [|? ?]]]; try discriminate.
  cbn in Fr, Fg, Fb.
  apply andb_true_iff in Fr, Fg, Fb. destruct Fr, Fg, Fb.
  change (hash_rrggbb
            (String "#" (String r1 (String r2 (String g1 (String g2
               (String b1 (String b2 EmptyString))))))) = true).
  cbn. repeat (apply andb_true_iff; split); assumption.
Qed.

Lemma int_of_float_scale (w a : Z) (b : positive) :
  0 <= w * a -> int_of_float (inject_Z w * (a # b)) = w * a / Z.pos b.
Proof.
  intros H. rewrite int_of_float_nonneg.
  - reflexivity.
  - unfold Qle. cbn. lia.
Qed.

(** ** The preview *)

Section Preview.

Context {pillow : Pillow}.

Lemma draws_ret : draws (mret tt).
Proof. exists []. apply emits_ret. Qed.

Lemma draws_seq (m1 m2 : M unit) : draws m1 -> draws m2 -> draws (m1 ;; m2).
Proof.
  intros [o1 H1] [o2 H2]. exists (o1 ++ o2). apply emits_seq; assumption.
Qed.

Lemma draws_lift {A : Type} (r : result A) (a : A) (k : A -> M unit) :
  r = Ok a -> draws (k a) -> draws (x ← lift r; k x).
Proof.
  intros E [ops H]. exists ops. eapply emits_lift; eassumption.
Qed.

Lemma draws_for {A : Type} (l : list A) (body : A -> M unit) :
  (forall x, In x l -> draws (body x)) -> draws (for_ l body).
Proof.
  induction l as [|x l IH]; intros H; cbn [for_].
  - apply draws_ret.
  - apply draws_seq; [apply H; left; reflexivity|].
    apply IH. intros y Hy. apply H. right. exact Hy.
Qed.

Lemma draws_rectangle (x0 y0 x1 y1 : Z) (fill outline : option color) (w : Z) :
  opt_color_ok fill = true -> opt_color_ok outline = true ->
  x0 <= x1 -> y0 <= y1 ->
  draws (draw_rectangle x0 y0 x1 y1 fill outline w).
Proof. intros. eexists. apply emits_rectangle; assumption. Qed.

Lemma In_range (n y : Z) : In y (range n) -> 0 <= y < n.
Proof.
  unfold range. intros H. apply list_elem_of_In in H.
  apply list_elem_of_fmap in H. destruct H as (k & -> & Hk).
  apply list_elem_of_In, in_seq in Hk. lia.
Qed.

Lemma palette_head (colors : list string) :
  palette_ok colors ->
  exists c rest, colors = c :: rest /\ hash_rrggbb c = true
                 /\ getitem colors 0 = Ok c.
Proof.
  intros [Hne V]. destruct colors as [|c rest]; [congruence|].
  inversion V; subst. exists c, rest. auto.
Qed.

Lemma palette_outline (colors : list string) :
  palette_ok colors ->
  exists o, (if len colors >? 1 then getitem colors 1 else Ok "#CCCCCC"%string) = Ok o
            /\ hash_rrggbb o = true.
Proof.
  intros P. destruct (len colors >? 1) eqn:E.
  - destruct (palette_accent colors P) as (a & Ha & _ & Hv).
    rewrite E in Ha. eauto.
  - eexists. split; reflexivity.
Qed.

Lemma palette_getitem (colors : list string) (i : Z) :
  palette_ok colors -> 0 <= i < len colors ->
  exists c, getitem colors i = Ok c /\ hash_rrggbb c = true.
Proof.
  intros [_ V] Hi. destruct (getitem_in_range colors i Hi) as (c & G & L).
  exists c. split; [exact G|]. rewrite Forall_lookup in V. exact (V _ _ L).
Qed.

Lemma apply_layout_draws (width height : Z) (layout : LayoutType)
    (colors : list string) (is_preview : bool) :
  palette_ok colors -> 45 <= width -> 40 <= height -> 3 * width <= 10 * height ->
  draws (_apply_layout width height layout colors is_preview).
Proof.
  intros P Hw Hh Hr.
  destruct (palette_head colors P) as (c0 & rest & Ecolors & V0 & G0).
  destruct (palette_outline colors P) as (o & Eo & Vo).
  pose proof (getrgb_hex c0 V0) as K0. pose proof (getrgb_hex o Vo) as Ko.
  unfold _apply_layout. rewrite Eo. subst colors.
  destruct layout.
  - destruct (lighten_color_valid c0 20 V0 ltac:(lia)) as (l & El & Vl).
    rewrite int_of_float_scale by lia.
    eapply draws_lift; [exact El|]. eapply draws_lift; [reflexivity|].
    apply draws_seq; apply draws_rectangle; cbn; auto using getrgb_hex;
      Z.div_mod_to_equations; lia.
  - destruct (lighten_color_valid c0 20 V0 ltac:(lia)) as (l & El & Vl).
    rewrite int_of_float_scale by lia.
    eapply draws_lift; [exact El|]. eapply draws_lift; [reflexivity|].
    apply draws_seq; apply draws_rectangle; cbn; auto using getrgb_hex;
      Z.div_mod_to_equations; lia.
  - destruct (lighten_color_valid c0 10 V0 ltac:(lia)) as (l & El & Vl).
    rewrite int_of_float_scale by lia.
    eapply draws_lift; [exact El|]. eapply draws_lift; [reflexivity|].
    apply draws_rectangle; cbn; auto using getrgb_hex;
      Z.div_mod_to_equations; lia.
  - assert (Hlen : 0 < len (c0 :: rest)) by (unfold len; cbn [length]; lia).
    apply draws_for. intros i Hi. apply draws_for. intros j Hj.
    apply In_range in Hi, Hj.
    destruct (len (c0 :: rest) =? 0) eqn:E0; [apply Z.eqb_eq in E0; lia|].
    eapply draws_lift; [reflexivity|].
    destruct (palette_getitem (c0 :: rest) ((i * 2 + j) mod len (c0 :: rest)) P
                ltac:(apply Z.mod_pos_bound; lia)) as (sh & Gs & Vs).
    eapply draws_lift; [exact Gs|].
    destruct (lighten_color_valid sh 15 Vs ltac:(lia)) as (l & El & Vl).
    eapply draws_lift; [exact El|]. eapply draws_lift; [exact G0|].
    apply draws_rectangle; cbn; auto using getrgb_hex;
      Z.div_mod_to_equations; lia.
  - destruct (hex_to_rgb_valid c0 (hash_rrggbb_valid c0 V0)) as (r & g & b & E & _).
    apply draws_for. intros y Hy. apply In_range in Hy.
    rewrite truediv_ok.
    2:{ intros Z0. assert (P0 : (0 < inject_Z height)%Q) by (apply inject_Z_pos; lia).
        rewrite Z0 in P0. exact (Qlt_irrefl _ P0). }
    eapply draws_lift; [reflexivity|].
    eapply draws_lift; [exact E|]. cbv beta iota.
    eapply draws_lift; [exact E|]. cbv beta iota.
    eapply draws_lift; [exact E|]. cbv beta iota.
    eexists. apply emits_line. reflexivity.
Qed.

Lemma Image_new_size (mode : string) (w h : Z) (c : color) (p : picture) :
  Image_new mode w h c = Ok p -> image_size p = (w, h) /\ 0 <= w /\ 0 <= h.
Proof.
  unfold Image_new. destruct (_ || _) eqn:E; [discriminate|].
  destruct (negb _); [discriminate|]. intros [= <-].
  apply orb_false_iff in E. destruct E as [E1 E2].
  apply Z.ltb_ge in E1, E2. auto.
Qed.

(** C9 (amended).  For a size in millimetres and a preview DPI whose product
    is a finite float, the preview has the pixel size of
    [Settings.bookmark_size_px_preview], each dimension being
    [int((mm / 25.4) * dpi)] evaluated in binary64 at the preview DPI,
    whatever the mood, the complexity, the colours and the layout: this is
    the size it returns and the size of the PNG it has saved whenever it
    returns; it does return for every valid palette when the canvas has room
    for the layout frames and the file can be written; the defaults give 170
    by 510. *)
Theorem generate_preview_dimensions (st : Settings) (mood : MoodType)
    (complexity : Z) (colors : list string) (layout : LayoutType)
    (uuid_hex : string) (s : state) :
  PrimFloat.is_finite (mm_to_px (BOOKMARK_WIDTH_MM st) (PREVIEW_DPI st)) = true ->
  PrimFloat.is_finite (mm_to_px (BOOKMARK_HEIGHT_MM st) (PREVIEW_DPI st)) = true ->
  let w := int_of_binary64 (mm_to_px (BOOKMARK_WIDTH_MM st) (PREVIEW_DPI st)) in
  let h := int_of_binary64 (mm_to_px (BOOKMARK_HEIGHT_MM st) (PREVIEW_DPI st)) in
  let filepath :=
    path_join (DOWNLOAD_DIR st) ("preview_" +:+ slice 0 8 uuid_hex +:+ ".png") in
  bookmark_size_px_preview st = (w, h) /\
  (forall path w' h' s',
      generate_preview st mood complexity colors layout uuid_hex s
        = (Ok (path, w', h'), s') ->
      path = filepath /\ w' = w /\ h' = h /\
      exists p, fs s' !! path = Some (ImageFile "PNG" (PREVIEW_DPI st) p)
                /\ image_size p = (w, h)) /\
  (palette_ok colors -> 45 <= w -> 40 <= h -> 3 * w <= 10 * h ->
   filepath ∉ unwritable s ->
   exists s', generate_preview st mood complexity colors layout uuid_hex s
              = (Ok (filepath, w, h), s')) /\
  (forall dir, bookmark_size_px_preview (default_settings dir) = (170, 510)).
Proof.
  intros _ _ w h filepath.
  split; [reflexivity|].
  unfold generate_preview, bookmark_size_px_preview. cbv zeta.
  fold w h filepath.
  split; [|split].
  - intros path w' h' s' Hrun.
    unfold mbind, M_bind, lift, modify, get in Hrun.
    destruct (getitem colors 0) as [c|]; [|discriminate].
    destruct (Image_new "RGB" w h (ColorName c)) as [image|] eqn:EI; [|discriminate].
    apply Image_new_size in EI. destruct EI as (EI & _ & _).
    pose proof (size_layout w h layout colors true (set_canvas image s)) as S1.
    destruct (_apply_layout w h layout colors true (set_canvas image s))
      as [[[]|] s1]; [|discriminate].
    pose proof (size_decorative w h complexity colors s1) as S2.
    destruct (_add_decorative_elements w h complexity colors s1)
      as [[[]|] s2]; [|discriminate].
    unfold same_size in S1, S2. cbn [snd canvas set_canvas] in S1, S2.
    unfold Image_save, Path_stat, mret, M_ret in Hrun.
    destruct (bool_decide (filepath ∈ unwritable s2)); [discriminate|].
    cbn [fs set_fs] in Hrun. rewrite lookup_insert_eq in Hrun.
    injection Hrun as <- <- <- <-.
    repeat split; try reflexivity.
    exists (canvas s2). cbn [fs set_fs]. rewrite lookup_insert_eq.
    split; [reflexivity | congruence].
  - intros P Hw Hh Hr Hwr.
    destruct (palette_head colors P) as (c0 & rest & Ecolors & V0 & G0).
    destruct (apply_layout_draws w h layout colors true P Hw Hh Hr) as [o1 D1].
    destruct (palette_decorations w h complexity colors P ltac:(lia) ltac:(lia))
      as (accent & c_last & _ & _ & D2).
    unfold mbind, M_bind, lift, modify, get. rewrite G0.
    unfold Image_new.
    destruct (w <? 0) eqn:E1; [apply Z.ltb_lt in E1; lia|].
    destruct (h <? 0) eqn:E2; [apply Z.ltb_lt in E2; lia|].
    cbn [orb color_ok]. rewrite (getrgb_hex c0 V0). cbn [negb].
    rewrite D1, D2.
    unfold Image_save, Path_stat, mret, M_ret. cbn [unwritable set_canvas].
    rewrite bool_decide_eq_false_2 by exact Hwr.
    cbn [fs set_fs]. rewrite lookup_insert_eq. eauto.
  - intros dir. vm_compute. reflexivity.
Qed.

End Preview.

(** ** The final rendering *)

Section Final.

Context {pillow : Pillow}.

Lemma string_app_inv_head (a b c : string) : a +:+ b = a +:+ c -> b = c.
Proof.
  induction a as [|ch a IH]; cbn; [auto|]. intros [= H]. auto.
Qed.

Lemma png_is_not_pdf (dir timestamp bookmark_id : string) :
  path_join dir ("bookmark_" +:+ timestamp +:+ "_" +:+ bookmark_id +:+ ".png")
  <> path_join dir ("bookmark_" +:+ timestamp +:+ "_" +:+ bookmark_id +:+ ".pdf").
Proof.
  unfold path_join. intros H.
  repeat (apply string_app_inv_head in H). discriminate.
Qed.

Lemma bind_ext {A B : Type} (m : M A) (k1 k2 : A -> M B) (s : state) :
  (forall a s', m s = (Ok a, s') -> k1 a s' = k2 a s') ->
  (m ≫= k1) s = (m ≫= k2) s.
Proof.
  intros H. unfold mbind, M_bind. destruct (m s) as [[a|e] s']; auto.
Qed.

Lemma bind_cong_l {A B : Type} (m1 m2 : M A) (k : A -> M B) (s : state) :
  m1 s = m2 s -> (m1 ≫= k) s = (m2 ≫= k) s.
Proof.
  intros H. unfold mbind, M_bind. rewrite H. reflexivity.
Qed.

Lemma bind_inv {A B : Type} (m : M A) (k : A -> M B) (s s2 : state) (r : result B) :
  (m ≫= k) s = (r, s2) ->
  (exists a s1, m s = (Ok a, s1) /\ k a s1 = (r, s2))
  \/ (exists e, m s = (Raise e, s2) /\ r = Raise e).
Proof.
  unfold mbind, M_bind. destruct (m s) as [[a|e] s1]; intros H.
  - left. eauto.
  - right. injection H as <- <-. eauto.
Qed.

Lemma keeps_run {A : Type} (R : relation state) (m : M A) (s s1 : state)
    (r : result A) :
  keeps R m -> m s = (r, s1) -> R s s1.
Proof.
  intros K E. specialize (K s). rewrite E in K. exact K.
Qed.

Lemma fill_content_ignores_background (r1 r2 : GenerateFinalRequest)
    (path : string) (content_width content_height : Z) (s : state) :
  path <> EmptyString -> is_Some (fs s !! path) ->
  fill_content r1 (Some path) content_width content_height s
  = fill_content r2 (Some path) content_width content_height s.
Proof.
  intros Hp He. unfold fill_content.
  destruct path as [|c p]; [congruence|].
  unfold mbind, M_bind, Path_exists.
  rewrite bool_decide_eq_true_2 by exact He. reflexivity.
Qed.

Lemma fill_content_pastes_photo (request : GenerateFinalRequest) (path : string)
    (content_width content_height : Z) (s : state)
    (format : string) (dpi : Z) (photo : picture) :
  path <> EmptyString ->
  fs s !! path = Some (ImageFile format dpi photo) ->
  1 <= image_width photo -> 1 <= image_height photo ->
  1 <= content_width -> 1 <= content_height ->
  exists fitted,
    _fit_image_to_zone photo content_width content_height = Ok fitted /\
    image_size fitted = (content_width, content_height) /\
    fill_content request (Some path) content_width content_height s
    = (Ok tt, set_canvas (Paste (canvas s) fitted 0 0) s).
Proof.
  intros Hp Hf Hw Hh Hcw Hch.
  destruct (fit_image_to_zone_ok photo content_width content_height Hw Hh Hcw Hch)
    as (fitted & Efit & Esize).
  exists fitted. split; [exact Efit|]. split; [exact Esize|].
  unfold fill_content. destruct path as [|c p]; [congruence|].
  unfold mbind, M_bind, Path_exists.
  rewrite bool_decide_eq_true_2 by (rewrite Hf; eauto).
  unfold try_except, mbind, M_bind, Image_open, lift. rewrite Hf, Efit. reflexivity.
Qed.

Lemma Image_new_inv (mode : string) (w h : Z) (c : color) (p : picture) :
  Image_new mode w h c = Ok p -> p = New mode w h c.
Proof.
  unfold Image_new. destruct (_ || _); [discriminate|].
  destruct (negb _); [discriminate|]. congruence.
Qed.

Lemma Image_save_inv (p : picture) (path format : string) (dpi : Z)
    (s s1 : state) (r : result unit) :
  Image_save p path format dpi s = (r, s1) ->
  (r = Ok tt /\ (path ∉ unwritable s)
   /\ s1 = set_fs (<[path := ImageFile format dpi p]> (fs s)) s)
  \/ (r = Raise OSError /\ path ∈ unwritable s /\ s1 = s).
Proof.
  unfold Image_save. destruct (bool_decide (path ∈ unwritable s)) eqn:E.
  - apply bool_decide_eq_true in E. intros [= <- <-]. right. auto.
  - apply bool_decide_eq_false in E. intros [= <- <-]. left. auto.
Qed.

Lemma Path_stat_inv (path : string) (s s1 : state) (r : result unit) :
  Path_stat path s = (r, s1) ->
  s1 = s /\ (is_Some (fs s !! path) -> r = Ok tt).
Proof.
  unfold Path_stat. destruct (fs s !! path) eqn:E; intros [= <- <-].
  - auto.
  - split; [reflexivity|]. intros [? ?]. discriminate.
Qed.

(** C6, as the code has it.  [generate_final] returns a pair of paths only
    after the PNG and the PDF have both been written, from the same image and
    at the final DPI.  When it raises it returns nothing and has written no
    PDF; either it has written no file at all, or the failure came after the
    PNG was saved (the PDF could not be written) and the PNG stays where it
    was saved. *)
Theorem generate_final_outputs (st : Settings) (request : GenerateFinalRequest)
    (user_photo_path : option string) (uuid_hex timestamp : string) (s : state) :
  let png := path_join (DOWNLOAD_DIR st)
               ("bookmark_" +:+ timestamp +:+ "_" +:+ slice 0 12 uuid_hex +:+ ".png") in
  let pdf := path_join (DOWNLOAD_DIR st)
               ("bookmark_" +:+ timestamp +:+ "_" +:+ slice 0 12 uuid_hex +:+ ".pdf") in
  (forall a b s',
      generate_final st request user_photo_path uuid_hex timestamp s
        = (Ok (a, b), s') ->
      a = png /\ b = pdf /\ png <> pdf /\
      exists image,
        fs s' !! png = Some (ImageFile "PNG" (FINAL_DPI st) image) /\
        fs s' !! pdf = Some (ImageFile "PDF" (FINAL_DPI st) image) /\
        fs s' = <[pdf := ImageFile "PDF" (FINAL_DPI st) image]>
                  (<[png := ImageFile "PNG" (FINAL_DPI st) image]> (fs s))) /\
  (forall e s',
      generate_final st request user_photo_path uuid_hex timestamp s
        = (Raise e, s') ->
      fs s' = fs s
      \/ (pdf ∈ unwritable s /\
          exists image,
            fs s' = <[png := ImageFile "PNG" (FINAL_DPI st) image]> (fs s) /\
            fs s' !! pdf = fs s !! pdf)).
Proof.
  intros png pdf.
  assert (Hne : png <> pdf) by apply png_is_not_pdf.
  assert (run : forall r s',
             generate_final st request user_photo_path uuid_hex timestamp s = (r, s') ->
             (exists e, r = Raise e /\ fs s' = fs s)
             \/ (exists e image, r = Raise e /\ pdf ∈ unwritable s /\
                   fs s' = <[png := ImageFile "PNG" (FINAL_DPI st) image]> (fs s))
             \/ (exists image, r = Ok (png, pdf) /\
                   fs s' = <[pdf := ImageFile "PDF" (FINAL_DPI st) image]>
                             (<[png := ImageFile "PNG" (FINAL_DPI st) image]> (fs s)))).
  { intros r s' H. unfold generate_final in H. cbv zeta in H. fold png pdf in H.
    apply bind_inv in H. destruct H as [(c & s1 & E1 & H) | (e & E & ->)].
    2:{ left. exists e. injection E as _ <-. auto. }
    injection E1 as _ <-.
    apply bind_inv in H. destruct H as [(image0 & s2 & E2 & H) | (e & E & ->)].
    2:{ left. exists e. injection E as _ <-. auto. }
    injection E2 as E2 <-. apply Image_new_inv in E2. subst image0.
    apply bind_inv in H. destruct H as [(content & s3 & E3 & H) | (e & E & ->)].
    2:{ left. exists e. injection E as _ <-. auto. }
    injection E3 as _ <-.
    apply bind_inv in H. destruct H as [([] & s4 & E4 & H) | (e & E & ->)].
    2:{ discriminate E. }
    injection E4 as <-.
    apply bind_inv in H. destruct H as [([] & s5 & E5 & H) | (e & E & ->)].
    2:{ left. exists e. split; [reflexivity|].
        apply (keeps_run same_files) in E; [|apply files_fill_content]. apply E. }
    apply (keeps_run same_files) in E5; [|apply files_fill_content].
    apply bind_inv in H. destruct H as [([] & s6 & E6 & H) | (e & E & ->)].
    2:{ left. exists e. split; [reflexivity|].
        apply (keeps_run same_files) in E; [|apply files_add_user_text].
        destruct E5, E. cbn in *. congruence. }
    apply (keeps_run same_files) in E6; [|apply files_add_user_text].
    assert (K7 : keeps same_files
                   (if show_borders request
                    then _add_decorative_elements (fst (bookmark_size_px_final st))
                           (snd (bookmark_size_px_final st)) (complexity request)
                           (colors request)
                    else mret tt)).
    { destruct (show_borders request); [apply files_decorative | apply keeps_ret].
      typeclasses eauto. }
    apply bind_inv in H. destruct H as [([] & s7 & E7 & H) | (e & E & ->)].
    2:{ left. exists e. split; [reflexivity|].
        apply (keeps_run same_files _ _ _ _ K7) in E.
        destruct E5, E6, E. cbn in *. congruence. }
    apply (keeps_run same_files _ _ _ _ K7) in E7.
    assert (F7 : fs s7 = fs s /\ unwritable s7 = unwritable s).
    { destruct E5, E6, E7. cbn in *. split; congruence. }
    destruct F7 as [F7 U7]. clear E5 E6 E7 K7.
    apply bind_inv in H. destruct H as [(s7' & s8 & E8 & H) | (e & E & ->)].
    2:{ discriminate E. }
    injection E8 as <- <-.
    apply bind_inv in H. destruct H as [([] & s9 & E9 & H) | (e & E & ->)].
    2:{ left. exists e. split; [reflexivity|].
        apply Image_save_inv in E. destruct E as [(? & _)|(_ & _ & ->)];
          [discriminate | exact F7]. }
    apply Image_save_inv in E9. destruct E9 as [(_ & W9 & ->)|(? & _)];
      [|discriminate].
    apply bind_inv in H. destruct H as [([] & s10 & E10 & H) | (e & E & ->)].
    2:{ exfalso. apply Path_stat_inv in E. destruct E as [_ E].
        cbn [fs set_fs] in E. rewrite lookup_insert_eq in E.
        discriminate E. eauto. }
    apply Path_stat_inv in E10. destruct E10 as [-> _].
    change (String.eqb (image_mode
              (Paste (New "RGB" (fst (bookmark_size_px_final st) + 2 * bleed_px_final st)
                        (snd (bookmark_size_px_final st) + 2 * bleed_px_final st)
                        (ColorName c))
                     (canvas s7) (bleed_px_final st) (bleed_px_final st))) "RGB")
      with true in H. cbv iota in H.
    apply bind_inv in H. destruct H as [([] & s11 & E11 & H) | (e & E & ->)].
    2:{ right. left. apply Image_save_inv in E.
        destruct E as [(? & _)|(_ & W & ->)]; [discriminate|].
        eexists e, _. split; [reflexivity|].
        cbn [unwritable set_fs fs] in *. rewrite U7 in W.
        split; [exact W|]. rewrite F7. reflexivity. }
    apply Image_save_inv in E11. destruct E11 as [(_ & W11 & ->)|(? & _)];
      [|discriminate].
    apply bind_inv in H. destruct H as [([] & s12 & E12 & H) | (e & E & ->)].
    2:{ exfalso. apply Path_stat_inv in E. destruct E as [_ E].
        cbn [fs set_fs] in E. rewrite lookup_insert_eq in E.
        discriminate E. eauto. }
    apply Path_stat_inv in E12. destruct E12 as [-> _].
    injection H as <- <-. right. right. eexists. split; [reflexivity|].
    cbn [fs set_fs]. rewrite F7. reflexivity. }
  split.
  - intros a b s' H. destruct (run _ _ H) as [(e & ? & _)|[(e & ? & ? & _)|(image & E & F)]];
      try discriminate.
    injection E as -> ->. repeat split; try assumption.
    exists image. rewrite F. split; [|split; [|reflexivity]].
    + rewrite lookup_insert_ne by congruence. apply lookup_insert_eq.
    + apply lookup_insert_eq.
  - intros e s' H. destruct (run _ _ H) as [(e' & _ & F)|[(e' & image & _ & W & F)|(? & ? & _)]];
      try discriminate; [left; exact F|].
    right. split; [exact W|]. exists image. split; [exact F|].
    rewrite F. apply lookup_insert_ne. exact Hne.
Qed.

(** C7, as the code has it.  When a photo path is given and the file exists,
    two requests that differ in their background settings only are rendered
    to the same files, pixels and log; when the file opens as an image of
    at least 1 by 1 pixels, the content area receives the photo, fitted by
    [_fit_image_to_zone] to the full content size and pasted at its origin;
    and when opening the file or fitting the photo raises, the two error
    entries are logged, nothing is pasted and the content area is left as it
    was handed over: the crop of the base image that [generate_final] has
    filled with [colors[0]]. *)
Theorem user_photo_replaces_background (st : Settings)
    (r1 r2 : GenerateFinalRequest) (path uuid_hex timestamp : string) (s : state) :
  same_but_background r1 r2 -> path <> EmptyString -> is_Some (fs s !! path) ->
  generate_final st r1 (Some path) uuid_hex timestamp s
  = generate_final st r2 (Some path) uuid_hex timestamp s
  /\
  (forall format dpi photo,
      fs s !! path = Some (ImageFile format dpi photo) ->
      1 <= image_width photo -> 1 <= image_height photo ->
      1 <= fst (bookmark_size_px_final st) -> 1 <= snd (bookmark_size_px_final st) ->
      exists fitted,
        _fit_image_to_zone photo (fst (bookmark_size_px_final st))
          (snd (bookmark_size_px_final st)) = Ok fitted /\
        image_size fitted = bookmark_size_px_final st /\
        forall content_image,
          fill_content r1 (Some path) (fst (bookmark_size_px_final st))
            (snd (bookmark_size_px_final st)) (set_canvas content_image s)
          = (Ok tt, set_canvas (Paste content_image fitted 0 0) s))
  /\
  ((forall format dpi photo,
       fs s !! path = Some (ImageFile format dpi photo) ->
       exists e,
         _fit_image_to_zone photo (fst (bookmark_size_px_final st))
           (snd (bookmark_size_px_final st)) = Raise e) ->
   (forall content_image,
       fill_content r1 (Some path) (fst (bookmark_size_px_final st))
         (snd (bookmark_size_px_final st)) (set_canvas content_image s)
       = (Ok tt,
          add_log ERROR "Full traceback:"
            (add_log ERROR "[GENERATOR] Error applying user photo as background"
               (set_canvas content_image s))))
   /\
   (forall c,
       getitem (colors r1) 0 = Ok c ->
       let content_width := fst (bookmark_size_px_final st) in
       let content_height := snd (bookmark_size_px_final st) in
       let bleed_px := bleed_px_final st in
       let image :=
         New "RGB" (content_width + 2 * bleed_px) (content_height + 2 * bleed_px)
           (ColorName c) in
       let content_image :=
         Crop image bleed_px bleed_px (bleed_px + content_width)
           (bleed_px + content_height) in
       canvas (snd (fill_content r1 (Some path) content_width content_height
                      (set_canvas content_image s)))
       = content_image)).
Proof.
  intros Hsame Hp He. split; [|split].
  - destruct r1, r2. unfold same_but_background in Hsame. cbn in Hsame.
    destruct Hsame as (-> & -> & -> & -> & -> & -> & -> & ->).
    unfold generate_final. cbv zeta. cbn [colors layout user_text rich_text text_position show_borders
      complexity].
    apply bind_ext. intros c s1 [= _ <-].
    apply bind_ext. intros image0 s2 [= _ <-].
    apply bind_ext. intros content_image s3 [= _ <-].
    apply bind_ext. intros [] s4 [= <-].
    apply bind_cong_l.
    apply fill_content_ignores_background; assumption.
  - intros format dpi photo Hf Hw Hh Hcw Hch.
    destruct (fit_image_to_zone_ok photo _ _ Hw Hh Hcw Hch)
      as (fitted & Efit & Esize).
    exists fitted. split; [exact Efit|].
    split; [rewrite Esize; destruct (bookmark_size_px_final st); reflexivity|].
    intros content_image.
    destruct (fill_content_pastes_photo r1 path _ _ (set_canvas content_image s)
                format dpi photo Hp Hf Hw Hh Hcw Hch) as (fitted' & Efit' & _ & Erun).
    rewrite Erun. assert (fitted' = fitted) by congruence. subst fitted'.
    reflexivity.
  - intros Hraise.
    assert (Erun : forall content_image,
      fill_content r1 (Some path) (fst (bookmark_size_px_final st))
        (snd (bookmark_size_px_final st)) (set_canvas content_image s)
      = (Ok tt,
         add_log ERROR "Full traceback:"
           (add_log ERROR "[GENERATOR] Error applying user photo as background"
              (set_canvas content_image s)))).
    { intros content_image. unfold fill_content. destruct path as [|ch p]; [congruence|].
      unfold mbind, M_bind, Path_exists. cbn [fs set_canvas].
      rewrite bool_decide_eq_true_2 by exact He.
      unfold try_except, mbind, M_bind, Image_open, lift. cbn [fs set_canvas].
      destruct He as [f Hf]. rewrite Hf.
      destruct f as [format dpi photo| |]; try reflexivity.
      destruct (Hraise format dpi photo Hf) as [e Ee]. rewrite Ee. reflexivity. }
    split; [exact Erun|].
    intros c _ content_width content_height bleed_px image content_image.
    unfold content_width, content_height. rewrite Erun. reflexivity.
Qed.

End Final.


(** ** Concrete runs *)

Example hex_to_rgb_beige : _hex_to_rgb "#F5F5DC" = Ok (245, 245, 220).
Proof. reflexivity. Qed.

Example interpolate_quarter :
  _interpolate_color ["#000000"; "#FFFFFF"; "#FF0000"]%string (1 # 4)
  = Ok (127, 127, 127).
Proof. vm_compute. reflexivity. Qed.

Example interpolate_three_quarters :
  _interpolate_color ["#000000"; "#FFFFFF"; "#FF0000"]%string (3 # 4)
  = Ok (255, 127, 127).
Proof. vm_compute. reflexivity. Qed.

Example lighten_beige : _lighten_color "#F5F5DC" 20 = Ok "#FFFFFF"%string.
Proof. vm_compute. reflexivity. Qed.

Example final_size_default :
  bookmark_size_px_final sample_settings = (708, 2125)
  /\ bleed_px_final sample_settings = 35.
Proof. split; vm_compute; reflexivity. Qed.

Example wrap_fixed_pitch :
  @_wrap_text_lines fixed_pitch [72; 101; 108; 108; 111; 33; 33]%N 30
    {| font_file := "f"; font_size := 10 |}
  = [[72; 101; 108]; [108; 111; 33]; [33]]%N.
Proof. vm_compute. reflexivity. Qed.

Lemma interpolate_color_endpoints_witness :
  _interpolate_color ["#F5F5DC"; "#4A7C59"; "#8B4513"]%string (-(1 # 2))
  = Ok (245, 245, 220)
  /\ _interpolate_color ["#F5F5DC"; "#4A7C59"; "#8B4513"]%string (3 # 2)
     = Ok (139, 69, 19).
Proof.
  destruct (interpolate_color_endpoints
              ["#F5F5DC"; "#4A7C59"; "#8B4513"]%string (-(1 # 2)))
    as (c1 & c2 & v1 & v2 & Hh & _ & H1 & _ & Lo & _);
    [discriminate | repeat constructor |].
  destruct (interpolate_color_endpoints
              ["#F5F5DC"; "#4A7C59"; "#8B4513"]%string (3 # 2))
    as (c1' & c2' & v1' & v2' & _ & Hl & _ & H2 & _ & Hi & _);
    [discriminate | repeat constructor |].
  injection Hh as <-. injection Hl as <-.
  split.
  - rewrite Lo by discriminate. rewrite <- H1. reflexivity.
  - rewrite Hi by discriminate. rewrite <- H2. reflexivity.
Defined.

Lemma wrap_text_lines_fit_witness :
  Forall (fun line => @measure fixed_pitch {| font_file := "f"; font_size := 10 |} line <= 30)
    (@_wrap_text_lines fixed_pitch [72; 101; 108; 108; 111; 33; 33]%N 30
       {| font_file := "f"; font_size := 10 |}).
Proof.
  apply (@wrap_text_lines_fit fixed_pitch).
  repeat constructor; vm_compute; discriminate.
Defined.

Lemma fit_image_to_zone_size_witness :
  exists fitted,
    _fit_image_to_zone (Decoded "RGB" 4000 3000 1) 708 2125 = Ok fitted
    /\ image_size fitted = (708, 2125).
Proof.
  apply fit_image_to_zone_size; vm_compute; discriminate.
Defined.

Lemma draw_vertical_text_columns_witness :
  exists (cols : list text) (st' : state),
    fst (@_draw_vertical_text fixed_pitch sample_text_35 sample_area 40 sample_font
           "#2F4F4F" CENTER (empty_state (New "RGB" 708 2125 (ColorName "#F5F5DC"))))
    = Ok (40 + 10 * 32 + 20)
    /\ len cols = 3 /\ concat cols = take 30 sample_text_35
    /\ log st' = [(WARNING, "[VERTICAL] Text truncated"%string)].
Proof.
  destruct (@draw_vertical_text_columns fixed_pitch sample_text_35 sample_area 40
              sample_font "#2F4F4F" CENTER
              (empty_state (New "RGB" 708 2125 (ColorName "#F5F5DC"))) eq_refl)
    as (cols & x & st' & Hrun & _ & _ & Hlog & Hcat & _ & Hlen & _).
  exists cols, st'. rewrite Hrun. repeat split; assumption.
Defined.

Lemma decorative_elements_cumulative_witness :
  exists drawn : Z -> list draw_op,
    (forall k, emits (@_add_decorative_elements fixed_pitch 170 510 k sample_palette)
                 (drawn k)) /\
    drawn 1 = [] /\
    (forall o : ornament, In o (ornaments (drawn 5))) /\
    (forall k k', k <= k' ->
       (forall o, In o (ornaments (drawn k)) -> In o (ornaments (drawn k'))) /\
       (forall op, In op (drawn k) -> ornament_of op <> Some Border ->
                   In op (drawn k'))).
Proof.
  apply (@decorative_elements_cumulative fixed_pitch 170 510 sample_palette).
  - split; [discriminate | repeat constructor].
  - vm_compute; discriminate.
  - vm_compute; discriminate.
Defined.

Lemma dot_markers_fill_witness :
  exists (ops : list draw_op),
    emits (@_add_decorative_elements fixed_pitch 170 510 4 sample_palette) ops /\
    forall x0 y0 x1 y1 fill, In (Ellipse x0 y0 x1 y1 fill) ops ->
      fill = ColorName "#2F4F4F".
Proof.
  destruct (@dot_markers_fill fixed_pitch 170 510 4 sample_palette)
    as (ops & accent & c_last & He & _ & Hl & _ & Hfill & _).
  - split; [discriminate | repeat constructor].
  - vm_compute; discriminate.
  - vm_compute; discriminate.
  - vm_compute; discriminate.
  - exists ops. split; [exact He|]. injection Hl as <-. exact Hfill.
Defined.

(** C5, as stated, fails on a palette of four colours: the dots take the
    fourth colour, not the one of index 2. *)
Lemma dot_markers_index_2_counterexample :
  ~ @dots_filled_from_index_2 fixed_pitch 170 510 4 sample_palette.
Proof.
  intros H.
  specialize (H (decoration_ops 170 510 4 "#4A7C59" "#2F4F4F") "#4A7C59"%string).
  specialize (H ltac:(intros s; reflexivity) eq_refl
                (20 - 4) (20 - 4) (20 + 4) (20 + 4) (ColorName "#2F4F4F")).
  assert (E : ColorName "#2F4F4F" = ColorName "#8B4513").
  { apply H. cbn. auto 10. }
  discriminate E.
Qed.

(** C6, as stated, fails when the PDF cannot be written: the call raises and
    the PNG it has saved before stays on the disk, without a PDF. *)
Lemma generate_final_not_atomic :
  ~ failure_leaves_no_file
      (@generate_final fixed_pitch sample_settings sample_request None
         "0123456789abcdef0123456789abcdef" "20260101_120000")
      pdf_fails.
Proof.
  intros H.
  assert (E : exists s',
             @generate_final fixed_pitch sample_settings sample_request None
               "0123456789abcdef0123456789abcdef" "20260101_120000" pdf_fails
             = (Raise OSError, s')
             /\ is_Some (fs s' !! sample_png)).
  { eexists. split; [vm_compute; reflexivity|]. vm_compute. eauto. }
  destruct E as (s' & Erun & [f Ef]).
  rewrite (H _ _ Erun) in Ef. vm_compute in Ef. discriminate Ef.
Qed.

Example generate_final_pdf_failure :
  exists s',
    @generate_final fixed_pitch sample_settings sample_request None
      "0123456789abcdef0123456789abcdef" "20260101_120000" pdf_fails
    = (Raise OSError, s')
    /\ is_Some (fs s' !! sample_png) /\ fs s' !! sample_pdf = None.
Proof.
  eexists. split; [vm_compute; reflexivity|]. split; vm_compute; eauto.
Qed.

Example generate_final_writes_both :
  exists s',
    @generate_final fixed_pitch sample_settings sample_request None
      "0123456789abcdef0123456789abcdef" "20260101_120000"
      (empty_state (New "RGB" 0 0 (ColorRGB (0, 0, 0))))
    = (Ok (sample_png, sample_pdf), s')
    /\ is_Some (fs s' !! sample_png) /\ is_Some (fs s' !! sample_pdf).
Proof.
  eexists. split; [vm_compute; reflexivity|]. split; vm_compute; eauto.
Qed.

(** C7, as stated, fails for a file that exists but is not an image: the
    failure is logged and nothing is pasted. *)
Lemma unreadable_photo_not_pasted :
  is_Some (fs bad_upload !! "temp/upload.jpg"%string)
  /\ ~ @photo_pasted fixed_pitch sample_request "temp/upload.jpg" 708 2125 bad_upload.
Proof.
  split; [vm_compute; eauto|].
  intros [fitted H]. vm_compute in H. discriminate H.
Qed.

Example unreadable_photo_is_logged :
  @fill_content fixed_pitch sample_request (Some "temp/upload.jpg"%string) 708 2125
    bad_upload
  = (Ok tt,
     add_log ERROR "Full traceback:"
       (add_log ERROR "[GENERATOR] Error applying user photo as background"
          bad_upload)).
Proof. vm_compute. reflexivity. Qed.

Lemma user_photo_replaces_background_witness :
  @generate_final fixed_pitch sample_settings sample_request
    (Some "temp/upload.jpg"%string) "0123456789abcdef0123456789abcdef"
    "20260101_120000" good_upload
  = @generate_final fixed_pitch sample_settings sample_request_gradient
      (Some "temp/upload.jpg"%string) "0123456789abcdef0123456789abcdef"
      "20260101_120000" good_upload
  /\ @photo_pasted fixed_pitch sample_request "temp/upload.jpg" 708 2125
       (set_canvas (New "RGB" 708 2125 (ColorName "#F5F5DC")) good_upload)
  /\ @fill_content fixed_pitch sample_request (Some "temp/upload.jpg"%string) 708 2125
       (set_canvas (New "RGB" 708 2125 (ColorName "#F5F5DC")) bad_upload)
     = (Ok tt,
        add_log ERROR "Full traceback:"
          (add_log ERROR "[GENERATOR] Error applying user photo as background"
             (set_canvas (New "RGB" 708 2125 (ColorName "#F5F5DC")) bad_upload))).
Proof.
  destruct (@user_photo_replaces_background fixed_pitch sample_settings
              sample_request sample_request_gradient "temp/upload.jpg"
              "0123456789abcdef0123456789abcdef" "20260101_120000" good_upload)
    as (Hsame & Hpaste & _).
  - repeat split.
  - discriminate.
  - vm_compute. eauto.
  - split; [exact Hsame|]. split.
    + destruct (Hpaste "JPEG"%string 72 (Decoded "RGB" 4000 3000 1))
        as (fitted & _ & _ & Hrun);
        [vm_compute; reflexivity | vm_compute; discriminate ..|].
      exists fitted. apply Hrun.
    + destruct (@user_photo_replaces_background fixed_pitch sample_settings
                  sample_request sample_request_gradient "temp/upload.jpg"
                  "0123456789abcdef0123456789abcdef" "20260101_120000" bad_upload)
        as (_ & _ & Hfail).
      * repeat split.
      * discriminate.
      * vm_compute. eauto.
      * destruct Hfail as [Hlog _].
        -- intros format dpi photo F. vm_compute in F. discriminate F.
        -- apply (Hlog (New "RGB" 708 2125 (ColorName "#F5F5DC"))).
Defined.

Lemma generate_preview_dimensions_witness :
  exists s',
    @generate_preview fixed_pitch sample_settings WARM 3
      ["#F5F5DC"; "#4A7C59"]%string LAYOUT_HORIZONTAL
      "0123456789abcdef0123456789abcdef"
      (empty_state (New "RGB" 0 0 (ColorRGB (0, 0, 0))))
    = (Ok ("downloads/preview_01234567.png"%string, 170, 510), s').
Proof.
  destruct (@generate_preview_dimensions fixed_pitch sample_settings WARM 3
              ["#F5F5DC"; "#4A7C59"]%string LAYOUT_HORIZONTAL
              "0123456789abcdef0123456789abcdef"
              (empty_state (New "RGB" 0 0 (ColorRGB (0, 0, 0)))))
    as (_ & _ & Hruns & _); [reflexivity | reflexivity |].
  apply Hruns.
  - split; [discriminate | repeat constructor].
  - vm_compute; discriminate.
  - vm_compute; discriminate.
  - vm_compute; discriminate.
  - apply not_elem_of_empty.
Defined.

(** C9, as stated, fails away from the defaults.  At 67.1 mm and 254 DPI
    the exact quotient is 671 and the code gives 670: the width is stored as
    the binary64 nearest to 67.1, which is below it.  Nor is the size the
    exact floor for the stored binary64 itself: at 30.2 mm and 254 DPI that
    floor is 301 and the code gives 302. *)
Lemma preview_size_not_exact_floor :
  (Qabs (float_value (BOOKMARK_WIDTH_MM settings_67_1_mm) - (671 # 10)) <= 1 # 2 ^ 47)%Q
  /\ fst (bookmark_size_px_preview settings_67_1_mm) = 670
  /\ ~ preview_size_is_floor settings_67_1_mm (671 # 10) 180
  /\ (Qabs (float_value (BOOKMARK_WIDTH_MM settings_30_2_mm) - (302 # 10)) <= 1 # 2 ^ 48)%Q
  /\ fst (bookmark_size_px_preview settings_30_2_mm) = 302
  /\ ~ preview_size_is_floor settings_30_2_mm
        (float_value (BOOKMARK_WIDTH_MM settings_30_2_mm)) 180.
Proof.
  repeat split; vm_compute; (reflexivity || discriminate).
Qed.

Example preview_size_defaults_exact_floor :
  preview_size_is_floor sample_settings 60 180.
Proof. vm_compute. reflexivity. Qed.

Example preview_full_bleed_runs :
  exists s',
    @generate_preview fixed_pitch sample_settings ELEGANT 5 sample_palette FULL_BLEED
      "0123456789abcdef0123456789abcdef"
      (empty_state (New "RGB" 0 0 (ColorRGB (0, 0, 0))))
    = (Ok ("downloads/preview_01234567.png"%string, 170, 510), s').
Proof. eexists. vm_compute. reflexivity. Qed.

(** * Further properties *)

(** ** More on colours *)

Lemma int16_short (s : string) :
  (String.length s <= 2)%nat ->
  int16 s = Raise ValueError \/ exists v, int16 s = Ok v /\ channel v.
Proof.
  destruct s as [|a [|b [|c s]]]; cbn [String.length]; intros L; try lia.
  - left. reflexivity.
  - unfold int16. cbn [int16_digits].
    destruct (hex_digit a) as [x|] eqn:Ea; [|left; reflexivity].
    apply hex_digit_range in Ea. right. eexists. split; [reflexivity|].
    unfold channel. lia.
  - unfold int16. cbn [int16_digits].
    destruct (hex_digit a) as [x|] eqn:Ea; [|left; reflexivity].
    destruct (hex_digit b) as [y|] eqn:Eb; [|left; reflexivity].
    apply hex_digit_range in Ea, Eb. right. eexists. split; [reflexivity|].
    unfold channel. lia.
Qed.

Lemma substring_length_le (i n : nat) (s : string) :
  (String.length (substring i n s) <= n)%nat.
Proof.
  revert i n. induction s as [|c s IH]; intros i n.
  - destruct i, n; cbn; lia.
  - destruct i as [|i].
    + destruct n as [|n]; cbn; [lia|]. specialize (IH 0%nat n). lia.
    + cbn. apply IH.
Qed.

Lemma substring_short (i n : nat) (s : string) :
  (String.length s <= i)%nat -> substring i n s = EmptyString.
Proof.
  revert i n. induction s as [|c s IH]; intros i n L.
  - destruct i, n; reflexivity.
  - destruct i as [|i]; cbn in L; [lia|]. cbn. apply IH. lia.
Qed.

(** X1.  Which colour strings [_hex_to_rgb] reads.  On a string whose first
    six characters after the leading [#] signs are ASCII letters or digits
    (the strings on which [int16] is Python's [int(s, 16)]: no sign, blank or
    underscore), [_hex_to_rgb] returns three channels, each between 0 and 255,
    when there are at least five characters and the first six are hexadecimal
    digits, and raises [ValueError] otherwise.  So the three-digit shorthand
    [#FFF] is refused, and five digits are read with a one-digit blue. *)
Theorem hex_to_rgb_accepts (hex_color : string) :
  let s := lstrip "#" hex_color in
  all_chars is_alnum (slice 0 6 s) = true ->
  if (5 <=? String.length s)%nat && all_chars is_hex (slice 0 6 s)
  then exists r g b, _hex_to_rgb hex_color = Ok (r, g, b)
                     /\ channel r /\ channel g /\ channel b
  else _hex_to_rgb hex_color = Raise ValueError.
Proof.
  intros s _. unfold _hex_to_rgb. fold s. clearbody s. unfold slice, int16, is_hex.
  destruct s as [|c1 [|c2 [|c3 [|c4 [|c5 [|c6 rest]]]]]];
    cbn [String.length Nat.leb andb substring all_chars int16_digits
         mbind result_bind Py.bind mret result_ret];
    try reflexivity;
    repeat match goal with
      | |- context [hex_digit ?c] =>
          let E := fresh "E" in
          destruct (hex_digit c) eqn:E;
          [apply hex_digit_range in E|];
          cbn [String.length Nat.leb andb substring all_chars int16_digits
               mbind result_bind Py.bind mret result_ret]
      end;
    try reflexivity;
    try (destruct rest);
    cbn [substring all_chars int16_digits mbind result_bind Py.bind mret result_ret];
    eexists _, _, _; (split; [reflexivity|]); unfold channel; lia.
Qed.

Lemma is_hex_not_hash (a : ascii) : is_hex a = true -> Ascii.eqb a "#" = false.
Proof.
  intros H. destruct (Ascii.eqb a "#") eqn:E; [|reflexivity].
  apply Ascii.eqb_eq in E. subst a. discriminate H.
Qed.

Lemma six_hex_digits_head (a : ascii) (d : string) :
  six_hex_digits (String a d) = true -> is_hex a = true.
Proof.
  destruct d as [|? [|? [|? [|? [|? [|? ?]]]]]]; try discriminate.
  cbn. rewrite !andb_true_iff. tauto.
Qed.

Lemma lstrip_hex_head (d rest : string) :
  six_hex_digits d = true -> lstrip "#" (d +:+ rest) = d +:+ rest.
Proof.
  destruct d as [|a d]; [discriminate|]. intros H.
  apply six_hex_digits_head, is_hex_not_hash in H.
  change (String a d +:+ rest) with (String a (d +:+ rest)).
  cbn [lstrip]. rewrite H. reflexivity.
Qed.

Lemma string_app_nil_r (s : string) : s +:+ "" = s.
Proof.
  induction s as [|c s IH]; [reflexivity|].
  change (String c s +:+ "") with (String c (s +:+ "")). rewrite IH. reflexivity.
Qed.

(** X2.  [_hex_to_rgb] reads six digits and nothing else: characters after
    the sixth digit are ignored (an eight-digit [RRGGBBAA] string gives the
    channels of its first six digits), and so is a leading [#]. *)
Theorem hex_to_rgb_reads_six_digits (d rest : string) :
  six_hex_digits d = true ->
  _hex_to_rgb (d +:+ rest) = _hex_to_rgb d
  /\ _hex_to_rgb ("#" +:+ d +:+ rest) = _hex_to_rgb d
  /\ exists r g b, _hex_to_rgb d = Ok (r, g, b).
Proof.
  intros H.
  assert (E : _hex_to_rgb (d +:+ rest) = _hex_to_rgb d).
  { pose proof (lstrip_hex_head d rest H) as L1.
    pose proof (lstrip_hex_head d "" H) as L2. rewrite string_app_nil_r in L2.
    unfold _hex_to_rgb. rewrite L1, L2.
    destruct d as [|c1 [|c2 [|c3 [|c4 [|c5 [|c6 [|? ?]]]]]]]; try discriminate.
    unfold slice. cbv [String.app]. cbn [substring].
    destruct rest; reflexivity. }
  split; [exact E|]. split.
  - unfold _hex_to_rgb at 1. change ("#" +:+ d +:+ rest) with (String "#" (d +:+ rest)).
    cbn [lstrip]. change (Ascii.eqb "#" "#") with true. cbv iota. exact E.
  - destruct (hex_to_rgb_six_digits d H) as (r & g & b & Ed & _).
    exists r, g, b. unfold _hex_to_rgb.
    pose proof (lstrip_hex_head d "" H) as L2. rewrite string_app_nil_r in L2.
    rewrite L2. exact Ed.
Qed.

Lemma format_02X_round_trip_table :
  forallb (fun n => match int16 (format_02X (Z.of_nat n)) with
                    | Ok v => v =? Z.of_nat n
                    | Raise _ => false
                    end) (seq 0 256) = true.
Proof. vm_compute. reflexivity. Qed.

Lemma format_02X_round_trip (v : Z) : channel v -> int16 (format_02X v) = Ok v.
Proof.
  intros [H0 H1]. pose proof format_02X_round_trip_table as T.
  rewrite forallb_forall in T. specialize (T (Z.to_nat v)).
  rewrite Z2Nat.id in T by lia.
  destruct (int16 (format_02X v)) as [w|]; [|discriminate T; apply in_seq; lia].
  f_equal. apply Z.eqb_eq. apply T. apply in_seq. lia.
Qed.

Lemma hex_to_rgb_formatted (r g b : Z) :
  channel r -> channel g -> channel b ->
  hash_rrggbb ("#" +:+ format_02X r +:+ format_02X g +:+ format_02X b) = true
  /\ _hex_to_rgb ("#" +:+ format_02X r +:+ format_02X g +:+ format_02X b) = Ok (r, g, b).
Proof.
  intros Hr Hg Hb.
  pose proof (format_02X_hex r Hr) as Fr. pose proof (format_02X_round_trip r Hr) as Rr.
  pose proof (format_02X_hex g Hg) as Fg. pose proof (format_02X_round_trip g Hg) as Rg.
  pose proof (format_02X_hex b Hb) as Fb. pose proof (format_02X_round_trip b Hb) as Rb.
  destruct (format_02X r) as [|r1 [|r2 [|? ?]]]; try discriminate.
  destruct (format_02X g) as [|g1 [|g2 [|? ?]]]; try discriminate.
  destruct (format_02X b) as [|b1 [|b2 [|? ?]]]; try discriminate.
  change ("#" +:+ String r1 (String r2 "") +:+ String g1 (String g2 "")
          +:+ String b1 (String b2 ""))
    with (String "#" (String r1 (String r2 (String g1 (String g2
            (String b1 (String b2 EmptyString))))))).
  cbn in Fr, Fg, Fb. apply andb_true_iff in Fr, Fg, Fb.
  destruct Fr as [Fr1 Fr2], Fg as [Fg1 Fg2], Fb as [Fb1 Fb2].
  assert (V : six_hex_digits (String r1 (String r2 (String g1 (String g2
                 (String b1 (String b2 EmptyString)))))) = true).
  { cbn. repeat (apply andb_true_iff; split); assumption. }
  split; [exact V|].
  unfold _hex_to_rgb. cbn [lstrip]. change (Ascii.eqb "#" "#") with true. cbv iota.
  rewrite (is_hex_not_hash r1 Fr1). unfold slice. cbn [substring].
  rewrite Rr, Rg, Rb. reflexivity.
Qed.

Lemma hex_to_rgb_channels (hex_color : string) (r g b : Z) :
  _hex_to_rgb hex_color = Ok (r, g, b) -> channel r /\ channel g /\ channel b.
Proof.
  unfold _hex_to_rgb. set (s := lstrip "#" hex_color).
  destruct (int16_short (slice 0 2 s) (substring_length_le _ _ _)) as [E1|(r0 & E1 & Hr)];
  destruct (int16_short (slice 2 2 s) (substring_length_le _ _ _)) as [E2|(g0 & E2 & Hg)];
  destruct (int16_short (slice 4 2 s) (substring_length_le _ _ _)) as [E3|(b0 & E3 & Hb)];
  rewrite E1, E2, E3; cbn [mbind result_bind Py.bind mret result_ret];
  intros E; inversion E; subst; auto.
Qed.

Lemma lighten_factor (percent : Z) : 0 <= percent -> (1 <= 1 + inject_Z percent / 100)%Q.
Proof.
  intros Hp. rewrite <- (Qplus_0_r 1) at 1. apply Qplus_le_r.
  apply Qle_shift_div_l; [reflexivity|]. rewrite Qmult_0_l.
  change 0%Q with (inject_Z 0). rewrite <- Zle_Qle. exact Hp.
Qed.

Lemma lighten_channel (v percent : Z) :
  channel v -> 0 <= percent ->
  v <= Z.min 255 (int_of_float (inject_Z v * (1 + inject_Z percent / 100))) <= 255
  /\ (percent = 0 ->
      Z.min 255 (int_of_float (inject_Z v * (1 + inject_Z percent / 100))) = v).
Proof.
  intros [V0 V1] Hp. pose proof (lighten_factor percent Hp) as F.
  assert (V : (0 <= inject_Z v)%Q).
  { change 0%Q with (inject_Z 0). rewrite <- Zle_Qle. exact V0. }
  assert (L : (inject_Z v <= inject_Z v * (1 + inject_Z percent / 100))%Q).
  { rewrite <- (Qmult_1_r (inject_Z v)) at 1.
    rewrite !(Qmult_comm (inject_Z v)). apply Qmult_le_compat_r; assumption. }
  split.
  - split; [|lia]. apply Z.min_glb; [lia|].
    rewrite int_of_float_nonneg by (eapply Qle_trans; eassumption).
    rewrite <- (Qfloor_Z v) at 1. apply Qfloor_resp_le. exact L.
  - intros ->. rewrite (int_of_float_is _ v); [lia|].
    unfold Qeq. cbn. lia.
Qed.

(** X3.  [_lighten_color] with a percentage from 0 to 1000000, on a colour
    string whose first six characters after the leading [#] signs are ASCII
    letters or digits (no sign, blank or underscore, so that [int16] is
    Python's [int(s, 16)]) and that [_hex_to_rgb] reads, returns a [#RRGGBB]
    string; read back by [_hex_to_rgb], no channel is lower than the channel
    it comes from and none exceeds 255; at 0 percent the channels are
    unchanged. *)
Theorem lighten_color_never_darker (hex_color : string) (percent r g b : Z) :
  0 <= percent <= 1000000 ->
  all_chars is_alnum (slice 0 6 (lstrip "#" hex_color)) = true ->
  _hex_to_rgb hex_color = Ok (r, g, b) ->
  exists c' r' g' b',
    _lighten_color hex_color percent = Ok c' /\
    hash_rrggbb c' = true /\
    _hex_to_rgb c' = Ok (r', g', b') /\
    r <= r' <= 255 /\ g <= g' <= 255 /\ b <= b' <= 255 /\
    (percent = 0 -> (r', g', b') = (r, g, b)).
Proof.
  intros [Hp _] _ E. destruct (hex_to_rgb_channels _ _ _ _ E) as (Hr & Hg & Hb).
  unfold _lighten_color. rewrite E. cbn [mbind result_bind Py.bind mret result_ret].
  destruct (lighten_channel r percent Hr Hp) as [Br Zr].
  destruct (lighten_channel g percent Hg Hp) as [Bg Zg].
  destruct (lighten_channel b percent Hb Hp) as [Bb Zb].
  set (r' := Z.min 255 (int_of_float (inject_Z r * _))) in *.
  set (g' := Z.min 255 (int_of_float (inject_Z g * _))) in *.
  set (b' := Z.min 255 (int_of_float (inject_Z b * _))) in *.
  destruct (hex_to_rgb_formatted r' g' b') as [V P];
    try (unfold channel in *; lia).
  exists ("#" +:+ format_02X r' +:+ format_02X g' +:+ format_02X b'), r', g', b'.
  repeat split; try assumption; try lia.
  intros Z0. rewrite (Zr Z0), (Zg Z0), (Zb Z0). reflexivity.
Qed.

(** ** Interpolation stays between the two neighbouring colours *)

Lemma clamp_range (ratio : Q) : (0 <= Py.max 0 (Py.min 1 ratio) <= 1)%Q.
Proof.
  unfold Py.max, Py.min.
  destruct (Qltb ratio 1) eqn:E1.
  - apply Qltb_true in E1. destruct (Qltb 0 ratio) eqn:E0.
    + apply Qltb_true in E0. split; apply Qlt_le_weak; assumption.
    + split; [apply Qle_refl|discriminate].
  - destruct (Qltb 0 1) eqn:E0; split; try apply Qle_refl; discriminate.
Qed.

Lemma lerp_between (a b : Z) (t : Q) :
  0 <= a -> 0 <= b -> (0 <= t <= 1)%Q ->
  Z.min a b <= int_of_float (inject_Z a + inject_Z (b - a) * t) <= Z.max a b.
Proof.
  intros Ha Hb [T0 T1].
  assert (A : (0 <= inject_Z a)%Q) by (change 0%Q with (inject_Z 0); rewrite <- Zle_Qle; lia).
  assert (B : (0 <= inject_Z b)%Q) by (change 0%Q with (inject_Z 0); rewrite <- Zle_Qle; lia).
  assert (D : (inject_Z (b - a) == inject_Z b - inject_Z a)%Q).
  { unfold Z.sub. rewrite inject_Z_plus, inject_Z_opp. reflexivity. }
  assert (X : (inject_Z (Z.min a b) <= inject_Z a + inject_Z (b - a) * t
               <= inject_Z (Z.max a b))%Q).
  { destruct (Z.le_ge_cases a b) as [L|L].
    - rewrite Z.min_l, Z.max_r by lia.
      assert (L' : (inject_Z a <= inject_Z b)%Q) by (rewrite <- Zle_Qle; lia).
      rewrite D. split; nra.
    - rewrite Z.min_r, Z.max_l by lia.
      assert (L' : (inject_Z b <= inject_Z a)%Q) by (rewrite <- Zle_Qle; lia).
      rewrite D. split; nra. }
  destruct X as [X0 X1].
  assert (M : (0 <= inject_Z (Z.min a b))%Q).
  { change 0%Q with (inject_Z 0). rewrite <- Zle_Qle. lia. }
  rewrite int_of_float_nonneg by (eapply Qle_trans; eassumption).
  split.
  - rewrite <- (Qfloor_Z (Z.min a b)). apply Qfloor_resp_le. exact X0.
  - rewrite <- (Qfloor_Z (Z.max a b)). apply Qfloor_resp_le. exact X1.
Qed.

Lemma segment_index (t : Q) (n : Z) :
  (0 <= t <= 1)%Q -> 0 <= n ->
  0 <= int_of_float (t * inject_Z n) <= n
  /\ (0 <= t * inject_Z n - inject_Z (int_of_float (t * inject_Z n)) <= 1)%Q.
Proof.
  intros [T0 T1] Hn.
  assert (N : (0 <= inject_Z n)%Q) by (change 0%Q with (inject_Z 0); rewrite <- Zle_Qle; lia).
  assert (S0 : (0 <= t * inject_Z n)%Q) by nra.
  assert (S1 : (t * inject_Z n <= inject_Z n)%Q) by nra.
  rewrite int_of_float_nonneg by exact S0.
  pose proof (Qfloor_le (t * inject_Z n)) as F0.
  pose proof (Qlt_floor (t * inject_Z n)) as F1.
  rewrite inject_Z_plus in F1. change (inject_Z 1) with 1%Q in F1.
  repeat split.
  - change 0 with (Qfloor 0). apply Qfloor_resp_le. exact S0.
  - rewrite <- (Qfloor_Z n) at 2. apply Qfloor_resp_le. exact S1.
  - lra.
  - lra.
Qed.

Lemma interpolate_between_ok (colors : list string) (ratio : Q) :
  colors <> [] ->
  Forall (fun c => valid_color c = true) colors ->
  exists (i : Z) (c1 c2 : string) (r1 g1 b1 r2 g2 b2 r g b : Z),
    0 <= i < len colors /\
    getitem colors i = Ok c1 /\
    getitem colors (Z.min (i + 1) (len colors - 1)) = Ok c2 /\
    _hex_to_rgb c1 = Ok (r1, g1, b1) /\
    _hex_to_rgb c2 = Ok (r2, g2, b2) /\
    _interpolate_color colors ratio = Ok (r, g, b) /\
    Z.min r1 r2 <= r <= Z.max r1 r2 /\
    Z.min g1 g2 <= g <= Z.max g1 g2 /\
    Z.min b1 b2 <= b <= Z.max b1 b2.
Proof.
  intros NE V.
  assert (Hlen : 1 <= len colors).
  { destruct colors; [congruence|]. unfold len. cbn [length]. lia. }
  pose proof (clamp_range ratio) as T.
  destruct (segment_index _ (len colors - 1) T ltac:(lia)) as [I L].
  set (idx := int_of_float (Py.max 0 (Py.min 1 ratio) * inject_Z (len colors - 1))) in *.
  destruct (valid_getitem colors idx V ltac:(lia)) as (c1 & v1 & G1 & _ & H1).
  destruct (valid_getitem colors (Z.min (idx + 1) (len colors - 1)) V ltac:(lia))
    as (c2 & v2 & G2 & _ & H2).
  destruct v1 as [[r1 g1] b1], v2 as [[r2 g2] b2].
  destruct (hex_to_rgb_channels _ _ _ _ H1) as (R1 & Gr1 & B1).
  destruct (hex_to_rgb_channels _ _ _ _ H2) as (R2 & Gr2 & B2).
  unfold channel in *.
  destruct (len colors =? 1) eqn:One.
  - apply Z.eqb_eq in One.
    assert (idx = 0) by lia.
    exists 0, c1, c1, r1, g1, b1, r1, g1, b1, r1, g1, b1.
    replace (Z.min (0 + 1) (len colors - 1)) with 0 by lia.
    replace idx with 0 in G1 by lia.
    unfold _interpolate_color. rewrite One, G1. cbn [mbind result_bind Py.bind].
    repeat split; try assumption; try lia.
  - exists idx, c1, c2, r1, g1, b1, r2, g2, b2.
    eexists _, _, _.
    split; [apply Z.eqb_neq in One; lia|].
    split; [exact G1|]. split; [exact G2|]. split; [exact H1|]. split; [exact H2|].
    split.
    { unfold _interpolate_color. rewrite One. fold idx.
      rewrite G1. cbn [mbind result_bind Py.bind]. rewrite H1.
      cbn [mbind result_bind Py.bind]. rewrite G2. cbn [mbind result_bind Py.bind].
      rewrite H2. cbn [mbind result_bind Py.bind]. reflexivity. }
    repeat split; apply lerp_between; try lia; exact L.
Qed.

(** X4.  [_interpolate_color] never leaves the palette: for every ratio and
    every non-empty list of valid colours it returns a colour, and there are
    two neighbouring entries of the list (the last entry being its own
    neighbour) such that each returned channel lies between their two
    channels. *)
Theorem interpolate_color_between (colors : list string) (ratio : Q) :
  colors <> [] ->
  Forall (fun c => valid_color c = true) colors ->
  exists (i : Z) (c1 c2 : string) (r1 g1 b1 r2 g2 b2 r g b : Z),
    0 <= i < len colors /\
    getitem colors i = Ok c1 /\
    getitem colors (Z.min (i + 1) (len colors - 1)) = Ok c2 /\
    _hex_to_rgb c1 = Ok (r1, g1, b1) /\
    _hex_to_rgb c2 = Ok (r2, g2, b2) /\
    _interpolate_color colors ratio = Ok (r, g, b) /\
    Z.min r1 r2 <= r <= Z.max r1 r2 /\
    Z.min g1 g2 <= g <= Z.max g1 g2 /\
    Z.min b1 b2 <= b <= Z.max b1 b2.
Proof.
  intros NE V.
  destruct (interpolate_between_ok colors ratio NE V)
    as (i & c1 & c2 & r1 & g1 & b1 & r2 & g2 & b2 & r & g & b & H).
  exists i, c1, c2, r1, g1, b1, r2, g2, b2, r, g, b. exact H.
Qed.

(** ** Line wrapping is greedy *)

Section Greedy.

Context {pillow : Pillow}.
Variables (max_width : Z) (f : font).

Lemma forced_breaks_grow (lines : list text) (current : text) (char : N) :
  current <> [] ->
  forced_breaks max_width f (lines ++ [current]) ->
  forced_breaks max_width f (lines ++ [current ++ [char]]).
Proof.
  intros NE H i l c l' Hi HSi. unfold forced_breaks, text in *.
  destruct (decide (S i < length lines)%nat) as [Lt|Ge].
  - rewrite lookup_app_l in Hi by lia. rewrite lookup_app_l in HSi by lia.
    apply (H i l c l'); rewrite lookup_app_l by lia; assumption.
  - pose proof (lookup_lt_Some _ _ _ HSi) as B. rewrite length_app in B.
    cbn [length] in B. assert (Ei : S i = length lines) by lia.
    rewrite lookup_app_l in Hi by lia.
    rewrite Ei, list_lookup_middle in HSi by reflexivity.
    destruct current as [|c0 rest]; [congruence|].
    cbn [app] in HSi. inversion HSi; subst c l'.
    apply (H i l c0 rest).
    + rewrite lookup_app_l by lia. exact Hi.
    + rewrite Ei, list_lookup_middle by reflexivity. reflexivity.
Qed.

Lemma forced_breaks_cut (lines : list text) (current : text) (char : N) :
  max_width < measure f (current ++ [char]) ->
  forced_breaks max_width f (lines ++ [current]) ->
  forced_breaks max_width f ((lines ++ [current]) ++ [[char]]).
Proof.
  intros W H i l c l' Hi HSi. unfold forced_breaks, text in *.
  destruct (decide (S i < length (lines ++ [current]))%nat) as [Lt|Ge].
  - rewrite lookup_app_l in Hi by lia. rewrite lookup_app_l in HSi by lia.
    apply (H i l c l'); assumption.
  - pose proof (lookup_lt_Some _ _ _ HSi) as B. rewrite length_app in B.
    cbn [length] in B. assert (Ei : S i = length (lines ++ [current])) by lia.
    rewrite Ei, list_lookup_middle in HSi by reflexivity.
    inversion HSi; subst c l'.
    rewrite length_app in Ei. cbn [length] in Ei.
    assert (Ei' : i = length lines) by lia.
    rewrite lookup_app_l in Hi by (rewrite length_app; cbn [length]; lia).
    rewrite Ei', list_lookup_middle in Hi by reflexivity.
    inversion Hi; subst l. exact W.
Qed.

Lemma forced_breaks_single (l : text) : forced_breaks max_width f [l].
Proof. intros i l0 c l' Hi HSi. destruct i; discriminate HSi. Qed.

Lemma wrap_step_greedy (acc : list text * text) (char : N) :
  greedy max_width f acc -> greedy max_width f (wrap_step max_width f acc char).
Proof.
  destruct acc as [lines current]. unfold wrap_step, greedy. cbn [fst snd].
  intros H. right.
  destruct (measure f (current ++ [char]) <=? max_width) eqn:E; cbn [fst snd].
  - split; [destruct current; discriminate|].
    destruct H as [[-> ->]|(NE & Hl & Hf)].
    + split; [constructor|]. apply forced_breaks_single.
    + split; [exact Hl|]. apply forced_breaks_grow; assumption.
  - apply Z.leb_gt in E. split; [discriminate|].
    destruct H as [[-> ->]|(NE & Hl & Hf)].
    + split; [constructor|]. apply forced_breaks_single.
    + destruct current as [|c0 rest]; [congruence|]. split.
      * apply Forall_app. split; [exact Hl|]. constructor; [discriminate|constructor].
      * apply forced_breaks_cut; assumption.
Qed.

Lemma wrap_fold_greedy (s : text) (acc : list text * text) :
  greedy max_width f acc -> greedy max_width f (fold_left (wrap_step max_width f) s acc).
Proof.
  revert acc. induction s as [|char s IH]; intros acc H; cbn [fold_left].
  - exact H.
  - apply IH, wrap_step_greedy, H.
Qed.

(** X5.  [_wrap_text_lines] is greedy.  No line it returns is empty; every
    break was forced, that is, a line followed by another one would have been
    wider than [max_width] with the first character of the next line; and it
    returns no line exactly for the empty text. *)
Theorem wrap_text_lines_greedy (s : text) :
  Forall (fun line => line <> []) (_wrap_text_lines s max_width f)
  /\ forced_breaks max_width f (_wrap_text_lines s max_width f)
  /\ (s = [] <-> _wrap_text_lines s max_width f = []).
Proof.
  assert (G : Forall (fun line => line <> []) (_wrap_text_lines s max_width f)
              /\ forced_breaks max_width f (_wrap_text_lines s max_width f)).
  { unfold _wrap_text_lines.
    pose proof (wrap_fold_greedy s ([], []) (or_introl (conj eq_refl eq_refl))) as H.
    destruct (fold_left (wrap_step max_width f) s ([], [])) as [lines current].
    unfold greedy in H. cbn [fst snd] in H.
    destruct H as [[-> ->]|(NE & Hl & Hf)].
    - split; [constructor|]. intros i l c l' Hi. discriminate Hi.
    - destruct current as [|c0 rest]; [congruence|]. split; [|exact Hf].
      apply Forall_app. split; [exact Hl|]. constructor; [discriminate|constructor]. }
  destruct G as [G1 G2]. split; [exact G1|]. split; [exact G2|].
  pose proof (wrap_fold_flat max_width f s ([], [])) as C.
  unfold _wrap_text_lines in *.
  destruct (fold_left (wrap_step max_width f) s ([], [])) as [lines current].
  unfold flat in C. cbn [fst snd concat app] in C. split.
  - intros ->. cbn [app] in C. apply app_eq_nil in C. destruct C as [C1 ->].
    destruct lines as [|l lines]; [reflexivity|].
    inversion G1; subst. cbn [concat] in C1. apply app_eq_nil in C1. tauto.
  - intros E. destruct current as [|c0 rest].
    + subst lines. symmetry. exact C.
    + destruct lines; discriminate E.
Qed.

End Greedy.

(** ** Horizontal text *)

Section HorizontalText.

Context {pillow : Pillow}.

Lemma set_canvas_twice (p q : picture) (s : state) :
  set_canvas q (set_canvas p s) = set_canvas q s.
Proof. reflexivity. Qed.

Lemma wrap_text_lines_nil (s : text) (max_width : Z) (f : font) :
  _wrap_text_lines s max_width f = [] -> s = [].
Proof.
  intros E. pose proof (wrap_fold_flat max_width f s ([], [])) as C.
  unfold _wrap_text_lines in E.
  destruct (fold_left (wrap_step max_width f) s ([], [])) as [lines current].
  unfold flat in C. cbn [fst snd concat app] in C.
  destruct current as [|c0 rest].
  - subst lines. symmetry. exact C.
  - destruct lines; discriminate E.
Qed.

Lemma horizontal_loop (lines : list text) (k : nat) (area : text_area) (y0 : Z)
    (f : font) (color : string) (alignment : TextAlignment) (st : state) :
  getrgb_ok color = true ->
  fold_M (fun current_y line =>
            let line_width := measure f line in
            let x :=
              match alignment with
              | CENTER => x_start area + (area_width area - line_width) / 2
              | RIGHT => x_start area + area_width area - line_width
              | LEFT => x_start area + 10
              end in
            draw_text x current_y line (ColorName color) f;;
            mret (current_y + (font_size f + 8)))
         lines (y0 + Z.of_nat k * (font_size f + 8)) st
  = (Ok (y0 + (Z.of_nat k + len lines) * (font_size f + 8)),
     set_canvas
       (draw_all (canvas st)
          (map (fun '(i, line) =>
                  Text (line_x area f alignment line) (y0 + i * (font_size f + 8))
                    line (ColorName color) f)
               (zip (Z.of_nat <$> seq k (length lines)) lines)))
       st).
Proof.
  intros C. revert k st. induction lines as [|line lines IH]; intros k st.
  - cbn [fold_M length seq fmap list_fmap zip zip_with map draw_all fold_left].
    rewrite set_canvas_same. unfold len. cbn [length]. unfold mret, M_ret.
    do 2 f_equal. lia.
  - cbn [fold_M]. unfold mbind at 1, M_bind at 1.
    unfold mbind at 1, M_bind at 1. unfold draw_text at 1.
    cbn [color_ok]. rewrite C. cbn [negb]. unfold paint, modify at 1.
    unfold mret at 1, M_ret at 1.
    replace (y0 + Z.of_nat k * (font_size f + 8) + (font_size f + 8))
      with (y0 + Z.of_nat (S k) * (font_size f + 8)) by lia.
    rewrite IH. cbn [canvas set_canvas]. rewrite set_canvas_twice.
    cbn [length seq fmap list_fmap zip zip_with map draw_all fold_left].
    unfold len. cbn [length]. f_equal. f_equal. lia.
Qed.

(** X6.  [_draw_horizontal_text] in closed form.  With a colour Pillow
    accepts it draws the lines of [_wrap_text_lines text (width - 20)] once
    each, in order, line [i] at [current_y + i * (font.size + 8)], changes
    nothing else and returns [current_y + n * (font.size + 8)] for [n] lines.
    With a colour Pillow refuses and a text that is not empty it raises
    [ValueError] before anything is drawn.  The abscissa of a line leaves 10
    pixels on the left (left alignment), the same gap on both sides up to one
    pixel (centre), or no gap on the right (right alignment). *)
Theorem draw_horizontal_text_lines (s : text) (area : text_area) (current_y : Z)
    (f : font) (color : string) (alignment : TextAlignment) (st : state) :
  let lines := _wrap_text_lines s (area_width area - 20) f in
  (getrgb_ok color = true ->
   _draw_horizontal_text s area current_y f color alignment st
   = (Ok (current_y + len lines * (font_size f + 8)),
      set_canvas
        (draw_all (canvas st)
           (map (fun '(i, line) =>
                   Text (line_x area f alignment line)
                     (current_y + i * (font_size f + 8)) line (ColorName color) f)
                (enumerate lines)))
        st))
  /\ (getrgb_ok color = false -> s <> [] ->
      _draw_horizontal_text s area current_y f color alignment st
      = (Raise ValueError, st))
  /\ (forall line,
        let x := line_x area f alignment line in
        let left_gap := x - x_start area in
        let right_gap := x_start area + area_width area - (x + measure f line) in
        match alignment with
        | LEFT => left_gap = 10
        | CENTER => left_gap <= right_gap <= left_gap + 1
        | RIGHT => right_gap = 0
        end).
Proof.
  intros lines. split; [|split].
  3:{ intros line. unfold line_x. destruct alignment; cbv zeta;
      Z.div_mod_to_equations; lia. }
  - intros C. unfold _draw_horizontal_text. fold lines.
    pose proof (horizontal_loop lines 0 area current_y f color alignment st C) as H.
    cbn [Z.of_nat] in H. rewrite Z.mul_0_l, Z.add_0_r, Z.add_0_l in H.
    rewrite H. unfold enumerate, range, len. rewrite Nat2Z.id. reflexivity.
  - intros C NE. unfold _draw_horizontal_text. fold lines.
    destruct lines as [|line rest] eqn:E.
    + apply wrap_text_lines_nil in E. contradiction.
    + cbn [fold_M]. unfold mbind at 1, M_bind at 1.
      unfold mbind at 1, M_bind at 1. unfold draw_text at 1.
      cbn [color_ok]. rewrite C. reflexivity.
Qed.

End HorizontalText.

(** ** Text areas *)

(** X7.  The default text areas of [_get_text_area] (no custom position), on
    a canvas at least 120 wide and not wider than high: the area has a
    positive width and height, starts at least 20 pixels from the left edge
    and 40 from the top, and ends at least 20 pixels before the right edge.
    Its lower edge is the canvas height for [left-right], 20 pixels above it
    for [center-focused], [mosaic-grid] and [full-bleed-image], and 20 pixels
    BELOW the canvas for [top-bottom]. *)
Theorem text_area_default_edges (width height : Z) (layout : LayoutType) :
  120 <= width -> width <= height ->
  let area := _get_text_area width height layout None in
  20 <= x_start area /\ 0 < area_width area /\
  x_start area + area_width area <= width - 20 /\
  40 <= y_start area /\ 0 < area_height area /\
  y_start area + area_height area
  = (match layout with
     | LAYOUT_HORIZONTAL => height
     | LAYOUT_VERTICAL => height + 20
     | _ => height - 20
     end).
Proof.
  intros W H.
  destruct layout; cbn [_get_text_area x_start y_start area_width area_height];
    repeat rewrite int_of_float_scale by (Z.div_mod_to_equations; lia);
    repeat split; Z.div_mod_to_equations; lia.
Qed.

Lemma text_area_ignores (width height : Z) (layout layout' : LayoutType)
    (tp : TextPosition) (m : Z) :
  position_direction tp = HORIZONTAL
  \/ (exists w, position_width tp = Some w /\ w <> 0) ->
  _get_text_area width height layout' (Some (with_right_margin tp m))
  = _get_text_area width height layout (Some tp).
Proof.
  intros H. unfold _get_text_area, with_right_margin.
  cbn [top_margin bottom_margin left_margin right_margin position_width
       position_height position_alignment position_direction].
  destruct H as [D|(w & E & N)].
  - rewrite D. reflexivity.
  - rewrite E. apply Z.eqb_neq in N. rewrite N. reflexivity.
Qed.

Section CustomPosition.

Context {pillow : Pillow}.

(** X8.  What a custom text position fixes and what it ignores.  With no
    height (or height 0) the text area ends [bottom_margin] above the lower
    edge; with vertical text and no width (or width 0) it ends [right_margin]
    before the right edge.  In every other case, horizontal text or a width
    of its own, neither the right margin nor the layout has any effect on
    what [_add_user_text] renders, for plain and for rich text alike. *)
Theorem text_area_custom_position (width height : Z) (layout layout' : LayoutType)
    (tp : TextPosition) (s : text) (colors : list string)
    (rich_text : option RichTextContent) (m : Z) (st : state) :
  let area := _get_text_area width height layout (Some tp) in
  (unset (position_height tp) ->
   y_start area + area_height area = height - bottom_margin tp)
  /\ (unset (position_width tp) -> position_direction tp = VERTICAL ->
      x_start area + area_width area = width - right_margin tp)
  /\ (position_direction tp = HORIZONTAL
      \/ (exists w, position_width tp = Some w /\ w <> 0) ->
      _add_user_text width height layout' s colors rich_text
        (Some (with_right_margin tp m)) st
      = _add_user_text width height layout s colors rich_text (Some tp) st).
Proof.
  cbn zeta. split; [|split].
  - intros [E|E]; cbn [_get_text_area x_start y_start area_width area_height];
      rewrite E; cbn [Z.eqb]; lia.
  - intros [E|E] D; cbn [_get_text_area x_start y_start area_width area_height];
      rewrite E, D; cbn [Z.eqb]; lia.
  - intros H. pose proof (text_area_ignores width height layout layout' tp m H) as A.
    unfold _add_user_text, _add_rich_text, _add_plain_text. rewrite A.
    reflexivity.
Qed.

End CustomPosition.

(** ** Fonts *)

(** X9.  The four font sizes of [_get_font_size_pixels] on a base size of at
    least 14 (the rich-text base size is [max(14, width // 20)]): small is at
    least 9 pixels, medium is the base size, and
    small < medium < large < extra large <= twice the base size. *)
Theorem font_size_tiers (base_size : Z) :
  14 <= base_size ->
  9 <= _get_font_size_pixels SMALL base_size
  /\ _get_font_size_pixels SMALL base_size < _get_font_size_pixels MEDIUM base_size
  /\ _get_font_size_pixels MEDIUM base_size = base_size
  /\ _get_font_size_pixels MEDIUM base_size < _get_font_size_pixels LARGE base_size
  /\ _get_font_size_pixels LARGE base_size < _get_font_size_pixels EXTRA_LARGE base_size
  /\ _get_font_size_pixels EXTRA_LARGE base_size <= 2 * base_size.
Proof.
  intros B. unfold _get_font_size_pixels.
  rewrite !int_of_float_scale by lia.
  repeat split; Z.div_mod_to_equations; lia.
Qed.

Lemma first_font_In (files : gmap string file) (paths : list string) (p : string) :
  first_font files paths = Some p -> In p paths /\ files !! p = Some FontFile.
Proof.
  induction paths as [|q rest IH]; [discriminate|]. cbn [first_font].
  destruct (files !! q) as [[| |]|] eqn:E; intros H.
  - destruct (IH H). split; [right|]; assumption.
  - inversion H; subst. split; [left; reflexivity|exact E].
  - destruct (IH H). split; [right|]; assumption.
  - destruct (IH H). split; [right|]; assumption.
Qed.

Section Fonts.

Context {pillow : Pillow}.

Lemma load_font_from_first (paths : list string) (size : Z) (s : state) :
  exists extra,
    load_font_from paths size s
    = (Ok (match first_font (fs s) paths with
           | Some p => {| font_file := p; font_size := size |}
           | None => load_default
           end),
       {| fs := fs s; unwritable := unwritable s; log := log s ++ extra;
          canvas := canvas s |})
    /\ Forall (fun entry => fst entry = WARNING) extra
    /\ (first_font (fs s) paths = None ->
        exists skipped,
          extra = skipped ++
            [(WARNING, "[FONT] No Chinese font found, using default font"%string);
             (WARNING, "[FONT] Please install Chinese fonts"%string)]).
Proof.
  revert s. induction paths as [|p rest IH]; intros s.
  - exists [(WARNING, "[FONT] No Chinese font found, using default font"%string);
            (WARNING, "[FONT] Please install Chinese fonts"%string)].
    split; [|split].
    + cbn [load_font_from first_font]. unfold mbind, M_bind, logger, modify, mret, M_ret.
      unfold add_log. cbn [fs unwritable log canvas]. rewrite <- app_assoc. reflexivity.
    + repeat constructor.
    + intros _. exists []. reflexivity.
  - cbn [load_font_from first_font]. unfold mbind at 1, M_bind at 1, Path_exists at 1.
    destruct (fs s !! p) as [file|] eqn:E.
    + rewrite bool_decide_eq_true_2 by (eexists; reflexivity).
      unfold try_except, truetype. rewrite E.
      destruct file as [fmt dpi pic| |].
      * unfold mbind, M_bind, logger, modify.
        destruct (IH (add_log WARNING "[FONT] Failed to load" s)) as (extra & R & W & N).
        exists ((WARNING, "[FONT] Failed to load"%string) :: extra).
        cbn [fs add_log unwritable log canvas] in R. rewrite R.
        split; [|split].
        -- rewrite <- app_assoc. reflexivity.
        -- constructor; [reflexivity|exact W].
        -- intros F. destruct (N F) as (skipped & ->).
           exists ((WARNING, "[FONT] Failed to load"%string) :: skipped). reflexivity.
      * exists []. split; [|split].
        -- rewrite app_nil_r. destruct s; reflexivity.
        -- constructor.
        -- discriminate.
      * unfold mbind, M_bind, logger, modify.
        destruct (IH (add_log WARNING "[FONT] Failed to load" s)) as (extra & R & W & N).
        exists ((WARNING, "[FONT] Failed to load"%string) :: extra).
        cbn [fs add_log unwritable log canvas] in R. rewrite R.
        split; [|split].
        -- rewrite <- app_assoc. reflexivity.
        -- constructor; [reflexivity|exact W].
        -- intros F. destruct (N F) as (skipped & ->).
           exists ((WARNING, "[FONT] Failed to load"%string) :: skipped). reflexivity.
    + rewrite bool_decide_eq_false_2 by (intros [x Hx]; discriminate Hx).
      apply IH.
Qed.

(** X10.  [_load_font] never raises.  It returns the font of the first path
    of its list that holds a font file, at the requested size, and Pillow's
    default font when no path does, after warning about it; all it changes is
    the log, to which it only adds warnings. *)
Theorem load_font_first_usable (size : Z) (s : state) :
  exists (f : font) (s' : state),
    _load_font size s = (Ok f, s')
    /\ fs s' = fs s /\ unwritable s' = unwritable s /\ canvas s' = canvas s
    /\ (exists extra, log s' = log s ++ extra
                      /\ Forall (fun entry => fst entry = WARNING) extra)
    /\ (forall p, first_font (fs s) font_paths = Some p ->
          f = {| font_file := p; font_size := size |}
          /\ In p font_paths /\ fs s !! p = Some FontFile)
    /\ (first_font (fs s) font_paths = None ->
          f = load_default
          /\ In (WARNING, "[FONT] No Chinese font found, using default font"%string)
                (log s')).
Proof.
  destruct (load_font_from_first font_paths size s) as (extra & R & W & N).
  unfold _load_font. rewrite R. eexists _, _. split; [reflexivity|].
  cbn [fs unwritable log canvas].
  repeat split; try reflexivity.
  - exists extra. split; [reflexivity|exact W].
  - rewrite H. reflexivity.
  - apply first_font_In in H. tauto.
  - apply first_font_In in H. tauto.
  - rewrite H. reflexivity.
  - destruct (N H) as (skipped & ->). apply in_or_app. right.
    apply in_or_app. right. left. reflexivity.
Qed.

End Fonts.

(** ** What rendering leaves alone *)

#[global] Instance log_grows_preorder : PreOrder log_grows.
Proof.
  split.
  - intros s. exists []. rewrite app_nil_r. reflexivity.
  - intros s1 s2 s3 [e1 H1] [e2 H2]. exists (e1 ++ e2).
    rewrite H2, H1, app_assoc. reflexivity.
Qed.

#[global] Instance renders_preorder : PreOrder renders.
Proof.
  split.
  - intros s. repeat split; reflexivity.
  - intros s1 s2 s3 (A1 & B1 & C1 & D1) (A2 & B2 & C2 & D2). split; [|split; [|split]].
    + etransitivity; eassumption.
    + congruence.
    + etransitivity; eassumption.
    + etransitivity; eassumption.
Qed.

Section Renders.

Context {pillow : Pillow}.

Lemma renders_canvas (g : state -> picture) :
  (forall s, image_size (g s) = image_size (canvas s)) ->
  (forall s, image_mode (g s) = image_mode (canvas s)) ->
  keeps renders (modify (fun s => set_canvas (g s) s)).
Proof.
  intros Hs Hm s. unfold modify. cbn [snd]. split; [|split; [|split]].
  - apply Hs.
  - apply Hm.
  - split; reflexivity.
  - exists []. cbn [log set_canvas]. rewrite app_nil_r. reflexivity.
Qed.

Lemma renders_paint (op : draw_op) : keeps renders (paint op).
Proof. apply renders_canvas; reflexivity. Qed.

Lemma renders_paste (src : picture) (x y : Z) : keeps renders (paste src x y).
Proof. apply renders_canvas; reflexivity. Qed.

Lemma renders_paste_color (c : rgb) (l u r b : Z) : keeps renders (paste_color c l u r b).
Proof. apply renders_canvas; reflexivity. Qed.

Lemma renders_putpixel (x y : Z) (c : rgb) : keeps renders (putpixel x y c).
Proof. apply renders_canvas; reflexivity. Qed.

Lemma renders_logger (l : level) (msg : string) : keeps renders (logger l msg).
Proof.
  apply keeps_logger. intros s. split; [|split; [|split]]; try reflexivity.
  - split; reflexivity.
  - exists [(l, msg)]. reflexivity.
Qed.

#[local] Hint Resolve renders_paint renders_paste renders_paste_color renders_putpixel
  renders_logger : keeps.

Lemma renders_decorative (width height complexity : Z) (colors : list string) :
  keeps renders (_add_decorative_elements width height complexity colors).
Proof. unfold _add_decorative_elements. repeat keeps_step. Qed.

Lemma renders_load_font (size : Z) : keeps renders (_load_font size).
Proof.
  unfold _load_font. induction font_paths as [|path paths IH]; cbn [load_font_from].
  - repeat keeps_step.
  - apply keeps_bind; [typeclasses eauto | auto with keeps typeclass_instances|].
    intros []; [|exact IH].
    apply keeps_try; [typeclasses eauto | auto with keeps typeclass_instances|].
    intros _. apply keeps_bind; [typeclasses eauto | auto with keeps|].
    intros _. exact IH.
Qed.

Lemma renders_draw_vertical_text (s : text) (area : text_area) (current_y : Z)
    (f : font) (color : string) (alignment : TextAlignment) :
  keeps renders (_draw_vertical_text s area current_y f color alignment).
Proof. unfold _draw_vertical_text. repeat keeps_step. Qed.

Lemma renders_draw_horizontal_text (s : text) (area : text_area) (current_y : Z)
    (f : font) (color : string) (alignment : TextAlignment) :
  keeps renders (_draw_horizontal_text s area current_y f color alignment).
Proof. unfold _draw_horizontal_text. repeat keeps_step. Qed.

Lemma renders_wrap_text (s : text) (position : Z * Z) (max_width : Z) (f : font)
    (color : string) :
  keeps renders (_wrap_text s position max_width f color).
Proof. unfold _wrap_text. repeat keeps_step. Qed.

#[local] Hint Resolve renders_decorative renders_load_font renders_draw_vertical_text
  renders_draw_horizontal_text renders_wrap_text : keeps.

Lemma renders_add_rich_text (width height : Z) (layout : LayoutType)
    (rich_text : RichTextContent) (colors : list string)
    (text_position : option TextPosition) :
  keeps renders (_add_rich_text width height layout rich_text colors text_position).
Proof. unfold _add_rich_text. repeat keeps_step. Qed.

Lemma renders_add_plain_text (width height : Z) (layout : LayoutType) (s : text)
    (colors : list string) (text_position : option TextPosition) :
  keeps renders (_add_plain_text width height layout s colors text_position).
Proof. unfold _add_plain_text. repeat keeps_step. Qed.

#[local] Hint Resolve renders_add_rich_text renders_add_plain_text : keeps.

Lemma renders_add_user_text (width height : Z) (layout : LayoutType) (s : text)
    (colors : list string) (rich_text : option RichTextContent)
    (text_position : option TextPosition) :
  keeps renders (_add_user_text width height layout s colors rich_text text_position).
Proof. unfold _add_user_text. repeat keeps_step. Qed.

Lemma renders_draw_gradient (direction : GradientDirection) (colors : list string) :
  keeps renders (_draw_gradient direction colors).
Proof. unfold _draw_gradient. repeat keeps_step. Qed.

Lemma renders_draw_image_background (image_path : string) (opacity : Q)
    (fit_mode : string) :
  keeps renders (_draw_image_background image_path opacity fit_mode).
Proof. unfold _draw_image_background. repeat keeps_step. Qed.

#[local] Hint Resolve renders_draw_gradient renders_draw_image_background : keeps.

Lemma renders_draw_background (background : option BackgroundSettings) :
  keeps renders (_draw_background background).
Proof. unfold _draw_background. repeat keeps_step. Qed.

#[local] Hint Resolve renders_draw_background renders_add_user_text : keeps.

Lemma renders_fill_content (request : GenerateFinalRequest)
    (user_photo_path : option string) (content_width content_height : Z) :
  keeps renders (fill_content request user_photo_path content_width content_height).
Proof. unfold fill_content. repeat keeps_step. Qed.

Lemma try_except_logged (body : M unit) (l1 l2 : level) (m1 m2 : string) (s : state) :
  exists s', try_except body (fun _ => logger l1 m1;; logger l2 m2) s = (Ok tt, s').
Proof.
  unfold try_except. destruct (body s) as [[[]|e] s1]; eexists; reflexivity.
Qed.

(** X11.  [_add_user_text] never raises: whatever happens while the text is
    rendered, it returns, and between the two states the canvas has kept its
    size and mode, no file was touched and no log entry was lost.  When the
    rich text has blocks the plain text is not looked at; with no block and
    no plain text the state is left as it was. *)
Theorem add_user_text_never_raises (width height : Z) (layout : LayoutType)
    (s : text) (colors : list string) (rich_text : option RichTextContent)
    (text_position : option TextPosition) (st : state) :
  (exists st',
     _add_user_text width height layout s colors rich_text text_position st
     = (Ok tt, st')
     /\ renders st st')
  /\ (forall rt, rich_text = Some rt -> blocks rt <> [] ->
        _add_user_text width height layout s colors rich_text text_position st
        = _add_user_text width height layout [] colors rich_text text_position st)
  /\ (s = [] -> (forall rt, rich_text = Some rt -> blocks rt = []) ->
        _add_user_text width height layout s colors rich_text text_position st
        = (Ok tt, st)).
Proof.
  split; [|split].
  - destruct (try_except_logged
                (match rich_text with
                 | Some rt =>
                     match blocks rt with
                     | _ :: _ => _add_rich_text width height layout rt colors text_position
                     | [] =>
                         match s with
                         | _ :: _ =>
                             _add_plain_text width height layout s colors text_position
                         | [] => mret tt
                         end
                     end
                 | None =>
                     match s with
                     | _ :: _ => _add_plain_text width height layout s colors text_position
                     | [] => mret tt
                     end
                 end) ERROR ERROR "Error adding user text" "Full traceback:" st)
      as [st' E].
    exists st'. split; [exact E|].
    pose proof (renders_add_user_text width height layout s colors rich_text
                  text_position st) as K.
    unfold _add_user_text in K. rewrite E in K. exact K.
  - intros rt -> NE. unfold _add_user_text.
    destruct (blocks rt); [congruence|reflexivity].
  - intros -> B. unfold _add_user_text. destruct rich_text as [rt|]; [|reflexivity].
    rewrite (B rt eq_refl). reflexivity.
Qed.

End Renders.

(** ** Image backgrounds *)

Lemma Qfloor_ge (n : Z) (x : Q) : (inject_Z n <= x)%Q -> n <= Qfloor x.
Proof. intros H. rewrite <- (Qfloor_Z n). apply Qfloor_resp_le. exact H. Qed.

Lemma contain_ok (bg_img : picture) (target_width target_height : Z) :
  1 <= image_width bg_img -> 1 <= image_height bg_img ->
  1 <= target_width -> 1 <= target_height ->
  exists fitted,
    (img_ratio ← truediv (inject_Z (image_width bg_img))
                         (inject_Z (image_height bg_img));
     target_ratio ← truediv (inject_Z target_width) (inject_Z target_height);
     if Qltb target_ratio img_ratio then
       let new_width := int_of_float (inject_Z target_height * img_ratio) in
       resized ← resize bg_img new_width target_height;
       let x := (new_width - target_width) / 2 in
       crop resized x 0 (x + target_width) target_height
     else
       h ← truediv (inject_Z target_width) img_ratio;
       let new_height := int_of_float h in
       resized ← resize bg_img target_width new_height;
       let y := (new_height - target_height) / 2 in
       crop resized 0 y target_width (y + target_height)) = Ok fitted
    /\ image_size fitted = (target_width, target_height).
Proof.
  intros Hiw Hih Htw Hth.
  pose proof (inject_Z_pos _ Hiw) as Piw. pose proof (inject_Z_pos _ Hih) as Pih.
  pose proof (inject_Z_pos _ Htw) as Ptw. pose proof (inject_Z_pos _ Hth) as Pth.
  assert (Nth : ~ (inject_Z target_height == 0)%Q).
  { intros E. rewrite E in Pth. exact (Qlt_irrefl _ Pth). }
  rewrite (truediv_ok _ (inject_Z (image_height bg_img)))
    by (intros E; rewrite E in Pih; exact (Qlt_irrefl _ Pih)).
  cbn [mbind result_bind Py.bind].
  rewrite (truediv_ok _ (inject_Z target_height)) by exact Nth.
  cbn [mbind result_bind Py.bind].
  set (img_ratio := (inject_Z (image_width bg_img) / inject_Z (image_height bg_img))%Q).
  set (target_ratio := (inject_Z target_width / inject_Z target_height)%Q).
  assert (Pimg : (0 < img_ratio)%Q).
  { apply Qlt_shift_div_l; [exact Pih|]. rewrite Qmult_0_l. exact Piw. }
  assert (T : (inject_Z target_height * target_ratio == inject_Z target_width)%Q).
  { apply Qmult_div_r. exact Nth. }
  destruct (Qltb target_ratio img_ratio) eqn:E.
  - apply Qltb_true in E.
    assert (L : (inject_Z target_width <= inject_Z target_height * img_ratio)%Q).
    { rewrite <- T. apply Qlt_le_weak. apply Qmult_lt_l; assumption. }
    assert (W : target_width <= int_of_float (inject_Z target_height * img_ratio)).
    { rewrite int_of_float_nonneg.
      - apply Qfloor_ge. exact L.
      - eapply Qle_trans; [|exact L]. apply Qlt_le_weak. exact Ptw. }
    destruct (resize_size bg_img
                (int_of_float (inject_Z target_height * img_ratio)) target_height
                ltac:(lia) Hth) as (resized & R & _).
    rewrite R. cbn [mbind result_bind Py.bind].
    rewrite crop_ok by lia. eexists. split; [reflexivity|].
    cbn [image_size]. f_equal; lia.
  - apply Qltb_false in E.
    rewrite truediv_ok by (intros Z0; rewrite Z0 in Pimg; exact (Qlt_irrefl _ Pimg)).
    cbn [mbind result_bind Py.bind].
    assert (L : (inject_Z target_height <= inject_Z target_width / img_ratio)%Q).
    { apply Qle_shift_div_l; [exact Pimg|]. rewrite <- T.
      apply Qmult_le_l; assumption. }
    assert (H : target_height <= int_of_float (inject_Z target_width / img_ratio)).
    { rewrite int_of_float_nonneg.
      - apply Qfloor_ge. exact L.
      - eapply Qle_trans; [|exact L]. apply Qlt_le_weak. exact Pth. }
    destruct (resize_size bg_img target_width
                (int_of_float (inject_Z target_width / img_ratio))
                Htw ltac:(lia)) as (resized & R & _).
    rewrite R. cbn [mbind result_bind Py.bind].
    rewrite crop_ok by lia. eexists. split; [reflexivity|].
    cbn [image_size]. f_equal; lia.
Qed.

Section ImageBackground.

Context {pillow : Pillow}.

Lemma image_size_eta (p : picture) : image_size p = (image_width p, image_height p).
Proof. unfold image_width, image_height. destruct (image_size p). reflexivity. Qed.

(** X12.  [_draw_image_background] never raises, and does one of two things:
    it logs one error and leaves the canvas alone, or it pastes one layer of
    the size of the canvas at the origin.  It logs when the path holds no
    image.  When the file is an image of at least 1 by 1 pixels and the canvas
    is at least 2 by 2, it pastes, for every fit mode ([cover], [contain], any
    other string), and the fitted image has the size of the canvas. *)
Theorem draw_image_background_outcome (image_path : string) (opacity : Q)
    (fit_mode : string) (s : state) :
  (exists s',
     _draw_image_background image_path opacity fit_mode s = (Ok tt, s')
     /\ (s' = add_log ERROR "[BG] Error drawing image background" s
         \/ exists layer,
              image_size layer = image_size (canvas s)
              /\ s' = set_canvas (Paste (canvas s) layer 0 0) s))
  /\ ((forall format dpi p, fs s !! image_path <> Some (ImageFile format dpi p)) ->
      _draw_image_background image_path opacity fit_mode s
      = (Ok tt, add_log ERROR "[BG] Error drawing image background" s))
  /\ (forall format dpi p,
        fs s !! image_path = Some (ImageFile format dpi p) ->
        1 <= image_width p -> 1 <= image_height p ->
        2 <= image_width (canvas s) -> 2 <= image_height (canvas s) ->
        exists fitted,
          image_size fitted = image_size (canvas s)
          /\ _draw_image_background image_path opacity fit_mode s
             = (Ok tt,
                set_canvas
                  (Paste (canvas s)
                     (Convert (PasteMask (Convert (canvas s) "RGBA") fitted 0 0 fitted)
                        "RGB") 0 0) s)).
Proof.
  split; [|split].
  - unfold _draw_image_background, try_except.
    unfold mbind at 1, M_bind at 1, Image_open.
    destruct (fs s !! image_path) as [[format dpi p| |]|];
      try (eexists; split; [reflexivity|left; reflexivity]).
    unfold mbind at 1, M_bind at 1, get at 1.
    destruct (image_size (canvas s)) as [tw th] eqn:Sz.
    unfold mbind at 1, M_bind at 1.
    match goal with |- context [lift ?r] => destruct r as [fitted|e] end;
      unfold lift.
    + eexists. split; [reflexivity|]. right. eexists. split; [|reflexivity].
      cbn [image_size canvas]. exact Sz.
    + eexists. split; [reflexivity|left; reflexivity].
  - intros N. unfold _draw_image_background, try_except.
    unfold mbind at 1, M_bind at 1, Image_open.
    destruct (fs s !! image_path) as [[format dpi p| |]|]; try reflexivity.
    exfalso. exact (N format dpi p eq_refl).
  - intros format dpi p F Hiw Hih Htw2 Hth2.
    assert (Htw : 1 <= image_width (canvas s)) by lia.
    assert (Hth : 1 <= image_height (canvas s)) by lia.
    unfold _draw_image_background, try_except.
    unfold mbind at 1, M_bind at 1, Image_open. rewrite F.
    unfold mbind at 1, M_bind at 1, get at 1.
    rewrite (image_size_eta (canvas s)). cbv beta zeta iota.
    set (bg0 := if String.eqb (image_mode p) "RGBA" then p else Convert p "RGBA").
    set (bg := if Qltb opacity 1 then ScaleAlpha bg0 opacity else bg0).
    assert (B : image_size bg = image_size p).
    { unfold bg, bg0. destruct (Qltb opacity 1), (String.eqb (image_mode p) "RGBA");
        reflexivity. }
    assert (Bw : 1 <= image_width bg) by (unfold image_width; rewrite B; exact Hiw).
    assert (Bh : 1 <= image_height bg) by (unfold image_height; rewrite B; exact Hih).
    assert (Fit : exists fitted,
               (if String.eqb fit_mode "cover" then
                  _fit_image_to_zone bg (image_width (canvas s)) (image_height (canvas s))
                else if String.eqb fit_mode "contain" then
                  img_ratio ← truediv (inject_Z (image_width bg))
                                      (inject_Z (image_height bg));
                  target_ratio ← truediv (inject_Z (image_width (canvas s)))
                                         (inject_Z (image_height (canvas s)));
                  if Qltb target_ratio img_ratio then
                    let new_width :=
                      int_of_float (inject_Z (image_height (canvas s)) * img_ratio) in
                    resized ← resize bg new_width (image_height (canvas s));
                    let x := (new_width - image_width (canvas s)) / 2 in
                    crop resized x 0 (x + image_width (canvas s)) (image_height (canvas s))
                  else
                    h ← truediv (inject_Z (image_width (canvas s))) img_ratio;
                    let new_height := int_of_float h in
                    resized ← resize bg (image_width (canvas s)) new_height;
                    let y := (new_height - image_height (canvas s)) / 2 in
                    crop resized 0 y (image_width (canvas s))
                      (y + image_height (canvas s))
                else resize bg (image_width (canvas s)) (image_height (canvas s)))
               = Ok fitted
               /\ image_size fitted = (image_width (canvas s), image_height (canvas s))).
    { destruct (String.eqb fit_mode "cover").
      - apply fit_image_to_zone_ok; assumption.
      - destruct (String.eqb fit_mode "contain").
        + apply contain_ok; assumption.
        + apply resize_size; assumption. }
    destruct Fit as (fitted & E & Sz). exists fitted. split; [exact Sz|].
    cbv beta zeta iota in E.
    unfold mbind at 1, M_bind at 1. rewrite E. unfold lift. reflexivity.
Qed.

End ImageBackground.

(** ** More on the final rendering *)

Section FinalMore.

Context {pillow : Pillow}.

Lemma fill_content_missing_photo (request : GenerateFinalRequest) (path : string)
    (content_width content_height : Z) (s : state) :
  path = EmptyString \/ fs s !! path = None ->
  fill_content request (Some path) content_width content_height s
  = fill_content request None content_width content_height s.
Proof.
  intros H. unfold fill_content. destruct path as [|c p]; [reflexivity|].
  destruct H as [H|H]; [discriminate|].
  unfold mbind at 1, M_bind at 1, Path_exists.
  rewrite bool_decide_eq_false_2 by (rewrite H; intros [x Hx]; discriminate Hx).
  reflexivity.
Qed.

(** X14.  A photo path that is empty, or at which no file exists, is as good
    as no photo: [generate_final] does what it does without one (same result,
    files, pixels and log), with no error. *)
Theorem generate_final_missing_photo (st : Settings) (request : GenerateFinalRequest)
    (path uuid_hex timestamp : string) (s : state) :
  path = EmptyString \/ fs s !! path = None ->
  generate_final st request (Some path) uuid_hex timestamp s
  = generate_final st request None uuid_hex timestamp s.
Proof.
  intros H. unfold generate_final. cbv zeta.
  apply bind_ext. intros c s1 [= _ <-].
  apply bind_ext. intros image0 s2 [= _ <-].
  apply bind_ext. intros content_image s3 [= _ <-].
  apply bind_ext. intros [] s4 [= <-].
  apply bind_cong_l. apply fill_content_missing_photo. exact H.
Qed.


Lemma generate_final_ok_inv (st : Settings) (request : GenerateFinalRequest)
    (user_photo_path : option string) (uuid_hex timestamp : string)
    (s s' : state) (a b : string) :
  generate_final st request user_photo_path uuid_hex timestamp s = (Ok (a, b), s') ->
  let bleed := bleed_px_final st in
  let cw := fst (bookmark_size_px_final st) in
  let ch := snd (bookmark_size_px_final st) in
  exists (c : string) (s7 : state),
    getitem (colors request) 0 = Ok c
    /\ 0 <= cw + 2 * bleed /\ 0 <= ch + 2 * bleed
    /\ 0 <= cw /\ 0 <= ch
    /\ renders
         (set_canvas
            (Crop (New "RGB" (cw + 2 * bleed) (ch + 2 * bleed) (ColorName c))
               bleed bleed (bleed + cw) (bleed + ch)) s) s7
    /\ fs s' !! a
       = Some (ImageFile "PNG" (FINAL_DPI st)
                 (Paste (New "RGB" (cw + 2 * bleed) (ch + 2 * bleed) (ColorName c))
                    (canvas s7) bleed bleed))
    /\ log s' = log s7
    /\ a = path_join (DOWNLOAD_DIR st)
             ("bookmark_" +:+ timestamp +:+ "_" +:+ slice 0 12 uuid_hex +:+ ".png")
    /\ b = path_join (DOWNLOAD_DIR st)
             ("bookmark_" +:+ timestamp +:+ "_" +:+ slice 0 12 uuid_hex +:+ ".pdf")
    /\ is_Some (fs s' !! b).
Proof.
  intros H bleed cw ch. unfold generate_final in H. cbv zeta in H.
  fold bleed cw ch in H.
  apply bind_inv in H. destruct H as [(c & s1 & E1 & H) | (e & E & ?)]; [|discriminate].
  injection E1 as E1 <-.
  apply bind_inv in H. destruct H as [(image0 & s2 & E2 & H) | (e & E & ?)]; [|discriminate].
  injection E2 as E2 <-. pose proof (Image_new_size _ _ _ _ _ E2) as (_ & T0 & T1).
  apply Image_new_inv in E2. subst image0.
  apply bind_inv in H. destruct H as [(content & s3 & E3 & H) | (e & E & ?)]; [|discriminate].
  injection E3 as E3 <-.
  assert (C : content = Crop (New "RGB" (cw + 2 * bleed) (ch + 2 * bleed) (ColorName c))
                          bleed bleed (bleed + cw) (bleed + ch)
              /\ 0 <= cw /\ 0 <= ch).
  { unfold crop in E3.
    destruct (bleed + cw <? bleed) eqn:X; [discriminate|].
    destruct (bleed + ch <? bleed) eqn:Y; [discriminate|].
    apply Z.ltb_ge in X, Y. cbn [orb] in E3. inversion E3. repeat split; lia. }
  destruct C as (-> & C0 & C1).
  apply bind_inv in H. destruct H as [([] & s4 & E4 & H) | (e & E & ?)]; [|discriminate].
  injection E4 as <-.
  apply bind_inv in H. destruct H as [([] & s5 & E5 & H) | (e & E & ?)]; [|discriminate].
  apply (keeps_run renders) in E5; [|apply renders_fill_content].
  apply bind_inv in H. destruct H as [([] & s6 & E6 & H) | (e & E & ?)]; [|discriminate].
  apply (keeps_run renders) in E6; [|apply renders_add_user_text].
  assert (K7 : keeps renders
                 (if show_borders request
                  then _add_decorative_elements cw ch (complexity request) (colors request)
                  else mret tt)).
  { destruct (show_borders request); [apply renders_decorative | apply keeps_ret].
    typeclasses eauto. }
  apply bind_inv in H. destruct H as [([] & s7 & E7 & H) | (e & E & ?)]; [|discriminate].
  apply (keeps_run renders _ _ _ _ K7) in E7.
  assert (R : renders
                (set_canvas
                   (Crop (New "RGB" (cw + 2 * bleed) (ch + 2 * bleed) (ColorName c))
                      bleed bleed (bleed + cw) (bleed + ch)) s) s7).
  { etransitivity; [exact E5|]. etransitivity; [exact E6|exact E7]. }
  clear E5 E6 E7 K7.
  apply bind_inv in H. destruct H as [(s7' & s8 & E8 & H) | (e & E & ?)]; [|discriminate].
  injection E8 as <- <-.
  apply bind_inv in H. destruct H as [([] & s9 & E9 & H) | (e & E & ?)]; [|discriminate].
  apply Image_save_inv in E9. destruct E9 as [(_ & W9 & ->)|(? & _)]; [|discriminate].
  apply bind_inv in H. destruct H as [([] & s10 & E10 & H) | (e & E & ?)]; [|discriminate].
  apply Path_stat_inv in E10. destruct E10 as [-> _].
  change (String.eqb (image_mode
            (Paste (New "RGB" (cw + 2 * bleed) (ch + 2 * bleed) (ColorName c))
                   (canvas s7) bleed bleed)) "RGB")
    with true in H. cbv iota in H.
  apply bind_inv in H. destruct H as [([] & s11 & E11 & H) | (e & E & ?)]; [|discriminate].
  apply Image_save_inv in E11. destruct E11 as [(_ & W11 & ->)|(? & _)]; [|discriminate].
  apply bind_inv in H. destruct H as [([] & s12 & E12 & H) | (e & E & ?)]; [|discriminate].
  apply Path_stat_inv in E12. destruct E12 as [-> _].
  injection H as <- <- <-.
  exists c, s7. repeat split; try assumption; try apply R.
  - cbn [fs set_fs].
    rewrite lookup_insert_ne by (symmetry; apply png_is_not_pdf).
    apply lookup_insert_eq.
  - cbn [fs set_fs]. rewrite lookup_insert_eq. eauto.
Qed.

(** X13.  The geometry of what [generate_final] saves.  Whenever it returns,
    the PNG holds the content image pasted at ([bleed], [bleed]) on a base
    filled with the first palette colour; the content image has the content
    size and mode RGB, the saved image the content size plus twice the bleed
    in each direction; and the log has only grown. *)
Theorem generate_final_image_geometry (st : Settings) (request : GenerateFinalRequest)
    (user_photo_path : option string) (uuid_hex timestamp : string)
    (s s' : state) (a b : string) :
  generate_final st request user_photo_path uuid_hex timestamp s = (Ok (a, b), s') ->
  let bleed := bleed_px_final st in
  let cw := fst (bookmark_size_px_final st) in
  let ch := snd (bookmark_size_px_final st) in
  exists (base content : picture) (c : string),
    fs s' !! a = Some (ImageFile "PNG" (FINAL_DPI st) (Paste base content bleed bleed))
    /\ head (colors request) = Some c
    /\ base = New "RGB" (cw + 2 * bleed) (ch + 2 * bleed) (ColorName c)
    /\ image_size content = (cw, ch)
    /\ image_size (Paste base content bleed bleed) = (cw + 2 * bleed, ch + 2 * bleed)
    /\ image_mode content = "RGB"%string
    /\ 0 <= cw /\ 0 <= ch
    /\ log_grows s s'.
Proof.
  intros H bleed cw ch.
  destruct (generate_final_ok_inv _ _ _ _ _ _ _ _ _ H)
    as (c & s7 & G & T0 & T1 & C0 & C1 & (Rs & Rm & Rf & Rl) & F & L & _).
  fold bleed cw ch in T0, T1, C0, C1, Rs, Rm, Rf, Rl, F.
  exists (New "RGB" (cw + 2 * bleed) (ch + 2 * bleed) (ColorName c)), (canvas s7), c.
  split; [exact F|]. split.
  { destruct (colors request) as [|c0 rest]; [discriminate G|].
    unfold getitem in G. cbn in G. inversion G. reflexivity. }
  split; [reflexivity|]. split.
  { unfold same_size in Rs. rewrite Rs. cbn [canvas set_canvas image_size].
    f_equal; lia. }
  split; [reflexivity|]. split; [exact Rm|]. split; [exact C0|]. split; [exact C1|].
  destruct Rl as [extra E]. exists extra. rewrite L, E. reflexivity.
Qed.

End FinalMore.

(** ** Gradients *)

Section Gradients.

Context {pillow : Pillow}.

Lemma for_ok {A : Type} (l : list A) (body : A -> M unit) :
  (forall x, In x l -> forall s, exists s', body x s = (Ok tt, s')) ->
  forall s, exists s', for_ l body s = (Ok tt, s').
Proof.
  induction l as [|x l IH]; intros H s.
  - eexists. reflexivity.
  - cbn [for_]. unfold mbind, M_bind.
    destruct (H x (or_introl eq_refl) s) as [s1 E]. rewrite E.
    apply IH. intros y Hy. apply H. right. exact Hy.
Qed.

Lemma for_painted {A : Type} (l : list A) (body : A -> M unit) :
  (forall x, In x l -> forall s, exists p, body x s = (Ok tt, set_canvas p s)) ->
  forall s, exists p, for_ l body s = (Ok tt, set_canvas p s).
Proof.
  induction l as [|x l IH]; intros H s.
  - exists (canvas s). cbn. rewrite set_canvas_same. reflexivity.
  - cbn [for_]. unfold mbind, M_bind.
    destruct (H x (or_introl eq_refl) s) as [p E]. rewrite E.
    destruct (IH (fun y Hy => H y (or_intror Hy)) (set_canvas p s)) as [q R].
    rewrite R. exists q. reflexivity.
Qed.

Lemma strips_loop (l : list Z) (body : Z -> M unit) (P : Z -> rgb -> Prop)
    (mk : picture -> Z * rgb -> picture) :
  (forall x, In x l ->
     exists c, P x c /\ forall s, body x s = (Ok tt, set_canvas (mk (canvas s) (x, c)) s)) ->
  forall s, exists cs,
    Forall2 P l cs
    /\ for_ l body s = (Ok tt, set_canvas (fold_left mk (zip l cs) (canvas s)) s).
Proof.
  induction l as [|x l IH]; intros H s.
  - exists []. split; [constructor|]. cbn. rewrite set_canvas_same. reflexivity.
  - destruct (H x (or_introl eq_refl)) as (c & Pc & E).
    destruct (IH (fun y Hy => H y (or_intror Hy)) (set_canvas (mk (canvas s) (x, c)) s))
      as (cs & F & R).
    exists (c :: cs). split; [constructor; assumption|].
    cbn [for_]. unfold mbind, M_bind. rewrite E, R. reflexivity.
Qed.

Lemma ratio_in_loop (x n : Z) :
  In x (range n) ->
  truediv (inject_Z x) (inject_Z n) = Ok (inject_Z x / inject_Z n)%Q.
Proof.
  intros H. apply In_range in H. apply truediv_ok.
  intros E. pose proof (inject_Z_pos n ltac:(lia)) as P.
  rewrite E in P. exact (Qlt_irrefl _ P).
Qed.

Lemma interpolate_total (colors : list string) (ratio : Q) :
  colors <> [] -> Forall (fun c => valid_color c = true) colors ->
  exists c, _interpolate_color colors ratio = Ok c.
Proof.
  intros NE V.
  destruct (interpolate_between_ok colors ratio NE V)
    as (i & c1 & c2 & r1 & g1 & b1 & r2 & g2 & b2 & r & g & b & _ & _ & _ & _ & _ & E & _).
  eauto.
Qed.

(** X16.  The linear gradients of [_draw_gradient] (horizontal, vertical,
    diagonal) never fail on a non-empty list of valid colours, whatever the
    size of the canvas, an empty canvas included: they return, the canvas
    keeps its size and mode, no file and no log entry is touched.  The
    horizontal gradient fills the columns [x = 0 .. width - 1], each one pixel
    wide and as high as the canvas, in order, column [x] with
    [_interpolate_color colors (x / width)]; the vertical one does the same
    with the rows. *)
Theorem draw_gradient_linear (direction : GradientDirection) (colors : list string)
    (s : state) :
  colors <> [] -> Forall (fun c => valid_color c = true) colors ->
  direction <> RADIAL ->
  let width := image_width (canvas s) in
  let height := image_height (canvas s) in
  exists s',
    _draw_gradient direction colors s = (Ok tt, s')
    /\ renders s s' /\ log s' = log s
    /\ (direction = GRADIENT_HORIZONTAL ->
        exists cs,
          Forall2 (fun x c =>
                     _interpolate_color colors (inject_Z x / inject_Z width) = Ok c)
                  (range width) cs
          /\ canvas s' = columns_filled height (canvas s) (zip (range width) cs))
    /\ (direction = GRADIENT_VERTICAL ->
        exists cs,
          Forall2 (fun y c =>
                     _interpolate_color colors (inject_Z y / inject_Z height) = Ok c)
                  (range height) cs
          /\ canvas s' = rows_filled width (canvas s) (zip (range height) cs)).
Proof.
  intros NE V NR width height.
  pose proof (renders_draw_gradient direction colors s) as K.
  unfold _draw_gradient in *. unfold mbind at 1, M_bind at 1, get at 1.
  unfold mbind at 1, M_bind at 1, get at 1 in K. cbn [snd] in K.
  rewrite (image_size_eta (canvas s)) in *. fold width height in K |- *.
  cbv beta iota in K |- *.
  destruct direction; [| | |congruence].
  - destruct (strips_loop (range width)
                (fun x =>
                   ratio ← lift (truediv (inject_Z x) (inject_Z width));
                   color ← lift (_interpolate_color colors ratio);
                   paste_color color x 0 (x + 1) height)
                (fun x c => _interpolate_color colors (inject_Z x / inject_Z width) = Ok c)
                (fun q '(x, c) => Fill q c x 0 (x + 1) height)) with (s := s)
      as (cs & F & R).
    { intros x Hx.
      destruct (interpolate_total colors (inject_Z x / inject_Z width) NE V) as [c E].
      exists c. split; [exact E|]. intros s0.
      unfold mbind, M_bind, lift. rewrite (ratio_in_loop _ _ Hx), E. reflexivity. }
    rewrite R in K |- *. eexists. split; [reflexivity|]. split; [exact K|].
    split; [reflexivity|]. split; [|discriminate].
    intros _. exists cs. split; [exact F|reflexivity].
  - destruct (strips_loop (range height)
                (fun y =>
                   ratio ← lift (truediv (inject_Z y) (inject_Z height));
                   color ← lift (_interpolate_color colors ratio);
                   paste_color color 0 y width (y + 1))
                (fun y c => _interpolate_color colors (inject_Z y / inject_Z height) = Ok c)
                (fun q '(y, c) => Fill q c 0 y width (y + 1))) with (s := s)
      as (cs & F & R).
    { intros y Hy.
      destruct (interpolate_total colors (inject_Z y / inject_Z height) NE V) as [c E].
      exists c. split; [exact E|]. intros s0.
      unfold mbind, M_bind, lift. rewrite (ratio_in_loop _ _ Hy), E. reflexivity. }
    rewrite R in K |- *. eexists. split; [reflexivity|]. split; [exact K|].
    split; [reflexivity|]. split; [discriminate|].
    intros _. exists cs. split; [exact F|reflexivity].
  - assert (D : exists p,
               for_ (range height) (fun y =>
                 for_ (range width) (fun x =>
                   ratio ← lift (truediv (inject_Z (x + y)) (inject_Z (width + height)));
                   color ← lift (_interpolate_color colors ratio);
                   putpixel x y color)) s
               = (Ok tt, set_canvas p s)).
    { apply for_painted. intros y Hy s0. apply for_painted. intros x Hx s1.
      destruct (interpolate_total colors
                  (inject_Z (x + y) / inject_Z (width + height)) NE V) as [c E].
      eexists. unfold mbind, M_bind, lift. rewrite truediv_ok, E; [reflexivity|].
      apply In_range in Hx, Hy. intros Z0.
      pose proof (inject_Z_pos (width + height) ltac:(lia)) as P.
      rewrite Z0 in P. exact (Qlt_irrefl _ P). }
    destruct D as (p & R). rewrite R in K |- *.
    eexists. split; [reflexivity|]. split; [exact K|]. split; [reflexivity|].
    split; discriminate.
Qed.

End Gradients.

Section Radial.

Context {pillow : Pillow}.

(** X17.  The radial gradient of [_draw_gradient], for a square root that is
    0 at 0 and positive on positive integers.  On a canvas of 1 by 1 pixel the
    largest radius is 0 and the call raises [ZeroDivisionError], leaving the
    state as it was; on a canvas of any other size it returns, for every
    non-empty list of valid colours, and touches nothing but the pixels. *)
Theorem draw_gradient_radial (colors : list string) (s : state) :
  (math_sqrt 0 == 0)%Q ->
  (forall n, 0 < n -> (0 < math_sqrt (inject_Z n))%Q) ->
  (image_size (canvas s) = (1, 1) ->
   _draw_gradient RADIAL colors s = (Raise ZeroDivisionError, s))
  /\ (image_size (canvas s) <> (1, 1) ->
      colors <> [] -> Forall (fun c => valid_color c = true) colors ->
      exists s', _draw_gradient RADIAL colors s = (Ok tt, s') /\ renders s s'
                 /\ log s' = log s).
Proof.
  intros S0 Spos. split.
  - intros Sz. unfold _draw_gradient. unfold mbind at 1, M_bind at 1, get at 1.
    rewrite Sz. cbv beta iota zeta.
    change (range 1) with [0]. cbn [for_].
    unfold mbind at 1, M_bind at 1. unfold mbind at 1, M_bind at 1.
    unfold mbind at 1, M_bind at 1.
    change (inject_Z ((1 / 2) ^ 2 + (1 / 2) ^ 2)) with 0%Q.
    unfold truediv. rewrite (proj2 (Qeq_bool_iff _ _) S0). reflexivity.
  - intros Sz NE V.
    pose proof (renders_draw_gradient RADIAL colors s) as K.
    unfold _draw_gradient in *. unfold mbind at 1, M_bind at 1, get at 1.
    unfold mbind at 1, M_bind at 1, get at 1 in K. cbn [snd] in K.
    destruct (image_size (canvas s)) as [width height] eqn:E.
    cbv beta iota zeta in K |- *.
    assert (D : exists p,
               for_ (range height) (fun y =>
                 for_ (range width) (fun x =>
                   q ← lift (truediv
                               (math_sqrt (inject_Z ((x - width / 2) ^ 2
                                                     + (y - height / 2) ^ 2)))
                               (math_sqrt (inject_Z ((width / 2) ^ 2 + (height / 2) ^ 2))));
                   color ← lift (_interpolate_color colors (Py.min q 1));
                   putpixel x y color)) s
               = (Ok tt, set_canvas p s)).
    { apply for_painted. intros y Hy s0. apply for_painted. intros x Hx s1.
      apply In_range in Hx, Hy.
      assert (R : 0 < (width / 2) ^ 2 + (height / 2) ^ 2).
      { assert (2 <= width \/ 2 <= height) as [W|H].
        { destruct (Z.eq_dec width 1) as [->|]; [|lia].
          destruct (Z.eq_dec height 1) as [->|]; [congruence|lia]. }
        - assert (1 <= width / 2) by (Z.div_mod_to_equations; lia). nia.
        - assert (1 <= height / 2) by (Z.div_mod_to_equations; lia). nia. }
      pose proof (Spos _ R) as P.
      rewrite truediv_ok by (intros Z0; rewrite Z0 in P; exact (Qlt_irrefl _ P)).
      unfold mbind at 1, M_bind at 1, lift at 1.
      match goal with
      | |- context [_interpolate_color colors ?r] =>
          destruct (interpolate_total colors r NE V) as [c Ec]
      end.
      eexists. unfold mbind, M_bind, lift. rewrite Ec. reflexivity. }
    destruct D as (p & R). rewrite R in K |- *.
    eexists. split; [reflexivity|]. split; [exact K|reflexivity].
Qed.

End Radial.

(** ** The crop of [_fit_image_to_zone] *)

Lemma Qfloor_le_Z (x : Q) (n : Z) : (x <= inject_Z n)%Q -> Qfloor x <= n.
Proof. intros H. rewrite <- (Qfloor_Z n). apply Qfloor_resp_le. exact H. Qed.

(** X18.  Where [_fit_image_to_zone] crops.  For a source and a target of at
    least 1 by 1 pixels the result is the resize of the source itself, or of a
    crop of it whose box lies inside the source, keeps its full height (or its
    full width) and is centred: what is cut on the two sides (above and
    below) differs by one pixel at most. *)
Theorem fit_image_to_zone_crop (image : picture) (target_width target_height : Z) :
  1 <= image_width image -> 1 <= image_height image ->
  1 <= target_width -> 1 <= target_height ->
  _fit_image_to_zone image target_width target_height
  = resize image target_width target_height
  \/ exists left upper right lower,
       _fit_image_to_zone image target_width target_height
       = resize (Crop image left upper right lower) target_width target_height
       /\ 0 <= left <= right /\ right <= image_width image
       /\ 0 <= upper <= lower /\ lower <= image_height image
       /\ ((upper = 0 /\ lower = image_height image
            /\ left <= image_width image - right <= left + 1)
           \/ (left = 0 /\ right = image_width image
               /\ upper <= image_height image - lower <= upper + 1)).
Proof.
  intros Hiw Hih Htw Hth. unfold _fit_image_to_zone.
  pose proof (inject_Z_pos _ Hiw) as Piw. pose proof (inject_Z_pos _ Hih) as Pih.
  pose proof (inject_Z_pos _ Htw) as Ptw. pose proof (inject_Z_pos _ Hth) as Pth.
  assert (Nih : ~ (inject_Z (image_height image) == 0)%Q).
  { intros E. rewrite E in Pih. exact (Qlt_irrefl _ Pih). }
  rewrite (truediv_ok _ (inject_Z target_height))
    by (intros E; rewrite E in Pth; exact (Qlt_irrefl _ Pth)).
  rewrite (truediv_ok _ (inject_Z (image_height image))) by exact Nih.
  cbn [mbind result_bind Py.bind].
  set (target_ratio := (inject_Z target_width / inject_Z target_height)%Q).
  set (img_ratio := (inject_Z (image_width image) / inject_Z (image_height image))%Q).
  assert (Pratio : (0 < target_ratio)%Q).
  { apply Qlt_shift_div_l; [exact Pth|]. rewrite Qmult_0_l. exact Ptw. }
  assert (I : (inject_Z (image_height image) * img_ratio
               == inject_Z (image_width image))%Q).
  { apply Qmult_div_r. exact Nih. }
  destruct (Qltb _ (1 # 10)); [left; reflexivity|]. right.
  destruct (Qltb target_ratio img_ratio) eqn:E.
  - apply Qltb_true in E.
    set (new_width := int_of_float (inject_Z (image_height image) * target_ratio)).
    assert (N0 : (0 <= inject_Z (image_height image) * target_ratio)%Q).
    { apply Qmult_le_0_compat; apply Qlt_le_weak; assumption. }
    assert (B0 : 0 <= new_width) by (apply int_of_float_nonneg_le; exact N0).
    assert (B1 : new_width <= image_width image).
    { unfold new_width. rewrite int_of_float_nonneg by exact N0.
      apply Qfloor_le_Z. rewrite <- I. apply Qlt_le_weak.
      apply Qmult_lt_l; assumption. }
    exists ((image_width image - new_width) / 2), 0,
           ((image_width image - new_width) / 2 + new_width), (image_height image).
    split.
    { rewrite crop_ok by lia. reflexivity. }
    repeat split; Z.div_mod_to_equations; lia.
  - apply Qltb_false in E.
    rewrite truediv_ok by (intros Z0; rewrite Z0 in Pratio; exact (Qlt_irrefl _ Pratio)).
    cbn [mbind result_bind Py.bind].
    set (new_height := int_of_float (inject_Z (image_width image) / target_ratio)).
    assert (N0 : (0 <= inject_Z (image_width image) / target_ratio)%Q).
    { apply Qlt_le_weak. apply Qlt_shift_div_l; [exact Pratio|].
      rewrite Qmult_0_l. exact Piw. }
    assert (B0 : 0 <= new_height) by (apply int_of_float_nonneg_le; exact N0).
    assert (B1 : new_height <= image_height image).
    { unfold new_height. rewrite int_of_float_nonneg by exact N0.
      apply Qfloor_le_Z. apply Qle_shift_div_r; [exact Pratio|].
      rewrite <- I. apply Qmult_le_l; assumption. }
    exists 0, ((image_height image - new_height) / 2), (image_width image),
           ((image_height image - new_height) / 2 + new_height).
    split.
    { rewrite crop_ok by lia. reflexivity. }
    repeat split; Z.div_mod_to_equations; lia.
Qed.

(** ** The full-bleed preview layout *)

Lemma full_bleed_shade_range (height v y : Z) :
  0 <= v -> 0 <= y < height ->
  0 <= full_bleed_shade height v y <= v
  /\ 7 * v <= 10 * (full_bleed_shade height v y + 1)
  /\ (y = 0 -> full_bleed_shade height v y = v).
Proof.
  intros Hv Hy. unfold full_bleed_shade.
  pose proof (inject_Z_pos height ltac:(lia)) as Ph.
  assert (Y0 : (0 <= inject_Z y)%Q).
  { change 0%Q with (inject_Z 0). rewrite <- Zle_Qle. lia. }
  assert (V0 : (0 <= inject_Z v)%Q).
  { change 0%Q with (inject_Z 0). rewrite <- Zle_Qle. lia. }
  assert (T0 : (0 <= inject_Z y / inject_Z height)%Q).
  { apply Qle_shift_div_l; [exact Ph|]. rewrite Qmult_0_l. exact Y0. }
  assert (T1 : (inject_Z y / inject_Z height <= 1)%Q).
  { apply Qle_shift_div_r; [exact Ph|]. rewrite Qmult_1_l. rewrite <- Zle_Qle. lia. }
  set (t := (inject_Z y / inject_Z height)%Q) in *.
  assert (X0 : (inject_Z v * (7 # 10) <= inject_Z v * (1 - t * (3 # 10)))%Q) by nra.
  assert (X1 : (inject_Z v * (1 - t * (3 # 10)) <= inject_Z v)%Q) by nra.
  assert (P : (0 <= inject_Z v * (1 - t * (3 # 10)))%Q) by nra.
  rewrite int_of_float_nonneg by exact P.
  pose proof (Qlt_floor (inject_Z v * (1 - t * (3 # 10)))) as F.
  split; [split|split].
  - change 0 with (Qfloor 0). apply Qfloor_resp_le. exact P.
  - apply Qfloor_le_Z. exact X1.
  - assert (L : (inject_Z v * (7 # 10)
                 < inject_Z (Qfloor (inject_Z v * (1 - t * (3 # 10))) + 1))%Q).
    { eapply Qle_lt_trans; eassumption. }
    generalize dependent (Qfloor (inject_Z v * (1 - t * (3 # 10)))). intros m _ L.
    unfold Qlt, Qmult, inject_Z in L. simpl in L. lia.
  - intros ->.
    assert (E : (inject_Z v * (1 - t * (3 # 10)) == inject_Z v)%Q).
    { unfold t. change (inject_Z 0) with 0%Q. unfold Qdiv. rewrite Qmult_0_l. ring. }
    rewrite (Qfloor_comp _ _ E). apply Qfloor_Z.
Qed.

Section FullBleed.

Context {pillow : Pillow}.

(** X19.  The full-bleed preview layout of [_apply_layout]: when
    [_hex_to_rgb] reads the first palette colour it draws one horizontal line
    per row, from row 0 to row [height - 1], and nothing else; on every row
    each channel lies between 70 percent of the palette channel (less one
    rounding unit) and the palette channel itself, and row 0 has exactly the
    palette colour. *)
Theorem apply_layout_full_bleed (width height : Z) (colors : list string)
    (is_preview : bool) (c : string) (r0 g0 b0 : Z) :
  head colors = Some c -> _hex_to_rgb c = Ok (r0, g0, b0) ->
  emits (_apply_layout width height FULL_BLEED colors is_preview)
        (map (fun y =>
                Line [(0, y); (width, y)]
                  (ColorRGB (full_bleed_shade height r0 y, full_bleed_shade height g0 y,
                             full_bleed_shade height b0 y)) 0)
             (range height))
  /\ forall y v, In y (range height) -> In v [r0; g0; b0] ->
       0 <= full_bleed_shade height v y <= v
       /\ 7 * v <= 10 * (full_bleed_shade height v y + 1)
       /\ (y = 0 -> full_bleed_shade height v y = v).
Proof.
  intros Hc E. destruct colors as [|c0 rest]; [discriminate|]. injection Hc as ->.
  destruct (hex_to_rgb_channels _ _ _ _ E) as (Hr & Hg & Hb). split.
  - unfold _apply_layout. rewrite <- concat_map_singleton.
    apply emits_for. intros y Hy.
    apply (emits_lift _ _ _ _ (ratio_in_loop y height Hy)).
    apply (emits_lift _ _ _ _ E). apply (emits_lift _ _ _ _ E).
    apply (emits_lift _ _ _ _ E). apply emits_line. reflexivity.
  - intros y v Hy Hv. apply In_range in Hy. apply full_bleed_shade_range; [|exact Hy].
    unfold channel in *. cbn [In] in Hv. destruct Hv as [<-|[<-|[<-|[]]]]; lia.
Qed.

End FullBleed.

(** ** The photo zone *)

Lemma photo_zone_inside (width height : Z) (layout : LayoutType) :
  120 <= width -> width <= height ->
  exists tw th x y,
    photo_zone width height layout = (tw, th, x, y)
    /\ 1 <= tw /\ 1 <= th /\ 10 <= x /\ 10 <= y
    /\ x + tw <= width - 10 /\ y + th <= height - 10.
Proof.
  intros W H. destruct layout; cbn [photo_zone]; cbv zeta;
    repeat rewrite int_of_float_scale by (Z.div_mod_to_equations; lia);
    eexists _, _, _, _; (split; [reflexivity|]);
    repeat split; Z.div_mod_to_equations; lia.
Qed.

(** X20.  [_add_user_photo] never raises: it logs one error and leaves the
    canvas alone, or pastes one image.  When the path holds an image of at
    least 1 by 1 pixels, on a canvas at least 120 wide and not wider than
    high, it pastes the photo fitted to the zone of the layout, exactly at the
    offsets of the zone (the centring terms vanish, the fitted photo having
    the size of the zone), and the zone lies inside the canvas, at least 10
    pixels from each edge. *)
Theorem add_user_photo_outcome (width height : Z) (layout : LayoutType)
    (photo_path : string) (s : state) :
  (exists s',
     _add_user_photo width height layout photo_path s = (Ok tt, s')
     /\ (s' = add_log ERROR "Error adding user photo" s
         \/ exists photo x y, s' = set_canvas (Paste (canvas s) photo x y) s))
  /\ (forall format dpi p,
        fs s !! photo_path = Some (ImageFile format dpi p) ->
        1 <= image_width p -> 1 <= image_height p ->
        120 <= width -> width <= height ->
        exists fitted tw th x y,
          photo_zone width height layout = (tw, th, x, y)
          /\ image_size fitted = (tw, th)
          /\ 10 <= x /\ 10 <= y /\ x + tw <= width - 10 /\ y + th <= height - 10
          /\ _add_user_photo width height layout photo_path s
             = (Ok tt, set_canvas (Paste (canvas s) fitted x y) s)).
Proof.
  split.
  - unfold _add_user_photo, try_except.
    unfold mbind at 1, M_bind at 1, Image_open.
    destruct (fs s !! photo_path) as [[format dpi p| |]|];
      try (eexists; split; [reflexivity|left; reflexivity]).
    destruct (photo_zone width height layout) as [[[tw th] x] y].
    unfold mbind at 1, M_bind at 1.
    destruct (_fit_image_to_zone p tw th) as [fitted|e]; unfold lift.
    + eexists. split; [reflexivity|]. right. eexists _, _, _. reflexivity.
    + eexists. split; [reflexivity|left; reflexivity].
  - intros format dpi p F Hiw Hih W H.
    destruct (photo_zone_inside width height layout W H)
      as (tw & th & x & y & Z & T1 & T2 & X0 & Y0 & X1 & Y1).
    destruct (fit_image_to_zone_ok p tw th Hiw Hih T1 T2) as (fitted & Fit & Sz).
    exists fitted, tw, th, x, y. split; [exact Z|]. split; [exact Sz|].
    repeat (split; [assumption|]).
    unfold _add_user_photo, try_except.
    unfold mbind at 1, M_bind at 1, Image_open. rewrite F, Z.
    unfold mbind at 1, M_bind at 1. rewrite Fit. unfold lift, paste, modify.
    unfold image_width, image_height. rewrite Sz. cbn [fst snd].
    rewrite !Z.sub_diag. change (0 / 2) with 0. rewrite !Z.add_0_r. reflexivity.
Qed.


(** ** Plain text *)

Section PlainText.

Context {pillow : Pillow}.

(** X21.  [_wrap_text] draws what [_wrap_text_lines] cuts: with a colour
    Pillow accepts it draws the lines of [_wrap_text_lines text max_width font],
    each once, in order, all at the abscissa [x], line [i] at
    [y + i * (font.size + 8)], and nothing else.  So plain horizontal text is
    flush left whatever the alignment asked for: changing the alignment of a
    custom text position whose direction is horizontal does not change what
    [_add_plain_text] does. *)
Theorem wrap_text_draws_lines (s : text) (x y max_width : Z) (f : font)
    (color : string) :
  (getrgb_ok color = true ->
   emits (_wrap_text s (x, y) max_width f color)
         (map (fun '(i, line) =>
                 Text x (y + i * (font_size f + 8)) line (ColorName color) f)
              (enumerate (_wrap_text_lines s max_width f))))
  /\ (forall width height layout colors tp a st,
        position_direction tp = HORIZONTAL ->
        _add_plain_text width height layout s colors (Some (with_alignment tp a)) st
        = _add_plain_text width height layout s colors (Some tp) st).
Proof.
  split.
  - intros C. unfold _wrap_text, _wrap_text_lines.
    destruct (fold_left (wrap_step max_width f) s ([], [])) as [lines current].
    set (ls := match current with [] => lines | _ => lines ++ [current] end).
    rewrite <- (concat_map_singleton
                  (fun '(i, line) =>
                     Text x (y + i * (font_size f + 8)) line (ColorName color) f)).
    apply emits_for. intros [i line] _. apply emits_text. exact C.
  - intros width height layout colors tp a st D.
    unfold _add_plain_text, with_alignment, _get_text_area.
    cbn [top_margin bottom_margin left_margin right_margin position_width
         position_height position_alignment position_direction].
    rewrite D. reflexivity.
Qed.

End PlainText.

(** ** Sizes in pixels *)

(** X22.  Pixel sizes with the default settings (60 by 180 mm, bleed 3 mm,
    safe margin 5 mm, 72 and 300 DPI), whatever the download directory.  The
    final content is 708 by 2125 pixels, the bleed 35, the safe margin 59 and
    the preview 170 by 510.  The final image, content plus twice the bleed
    with each part truncated on its own, is 778 by 2195 pixels: one pixel
    less each way than the size with bleed converted in one go, 779 by
    2196. *)
Theorem final_size_with_bleed (dir : string) :
  let st := default_settings dir in
  let physical mm := int_of_binary64 (mm_to_px (mm + 2 * BLEED_MM st)%float (FINAL_DPI st)) in
  bookmark_size_px_final st = (708, 2125)
  /\ bleed_px_final st = 35
  /\ safe_margin_px_final st = 59
  /\ bookmark_size_px_preview st = (170, 510)
  /\ fst (bookmark_size_px_final st) + 2 * bleed_px_final st = 778
  /\ snd (bookmark_size_px_final st) + 2 * bleed_px_final st = 2195
  /\ physical (BOOKMARK_WIDTH_MM st) = 779
  /\ physical (BOOKMARK_HEIGHT_MM st) = 2196.
Proof. repeat split; vm_compute; reflexivity. Qed.

(** ** Keys in snake case *)

Lemma lower_not_upper (c : ascii) : is_upper (lower c) = false.
Proof. destruct c as [[] [] [] [] [] [] [] []]; reflexivity. Qed.

Lemma lower_fixed (c : ascii) : is_upper c = false -> lower c = c.
Proof. unfold lower. intros ->. reflexivity. Qed.

Lemma str_lower_no_capital (s : string) : no_capital (str_lower s) = true.
Proof.
  induction s as [|c s IH]; [reflexivity|].
  unfold no_capital in *. cbn [str_lower all_chars].
  rewrite lower_not_upper, IH. reflexivity.
Qed.

Lemma all_chars_lstrip (p : ascii -> bool) (ch : ascii) (s : string) :
  all_chars p s = true -> all_chars p (lstrip ch s) = true.
Proof.
  induction s as [|c s IH]; [reflexivity|]. cbn [all_chars lstrip].
  intros H. apply andb_true_iff in H. destruct H as [Hc Hs].
  destruct (Ascii.eqb c ch); [apply IH; exact Hs|].
  cbn [all_chars]. rewrite Hc, Hs. reflexivity.
Qed.

Lemma lstrip_idempotent (ch : ascii) (s : string) :
  lstrip ch (lstrip ch s) = lstrip ch s.
Proof.
  induction s as [|c s IH]; [reflexivity|]. cbn [lstrip].
  destruct (Ascii.eqb c ch) eqn:E; [exact IH|]. cbn [lstrip]. rewrite E. reflexivity.
Qed.

Lemma no_capital_fixed (s : string) :
  no_capital s = true -> str_lower (underscore_capitals s) = s.
Proof.
  unfold no_capital. induction s as [|c s IH]; [reflexivity|].
  cbn [all_chars underscore_capitals]. intros H.
  apply andb_true_iff in H. destruct H as [Hc Hs]. apply negb_true_iff in Hc.
  rewrite Hc. cbn [str_lower]. rewrite (lower_fixed c Hc), (IH Hs). reflexivity.
Qed.

Lemma snake_key_fixed (key : string) :
  no_capital key = true -> lstrip "_" key = key -> snake_key key = key.
Proof.
  intros N L. unfold snake_key. rewrite (no_capital_fixed key N). exact L.
Qed.

Lemma snake_key_normal (key : string) :
  no_capital (snake_key key) = true /\ lstrip "_" (snake_key key) = snake_key key.
Proof.
  unfold snake_key. split.
  - apply all_chars_lstrip. apply str_lower_no_capital.
  - apply lstrip_idempotent.
Qed.

(** X23.  The keys that [convert_camel_to_snake] produces, for ASCII keys
    (on which [lower] is [str.lower]): the new key has no capital letter and
    does not start with an underscore; converting it again gives the same
    key; and a key that has no capital and no leading underscore is kept
    as it is. *)
Theorem snake_key_normal_form (key : string) :
  ascii_only key = true ->
  no_capital (snake_key key) = true
  /\ lstrip "_" (snake_key key) = snake_key key
  /\ snake_key (snake_key key) = snake_key key
  /\ (no_capital key = true -> lstrip "_" key = key -> snake_key key = key).
Proof.
  intros _. destruct (snake_key_normal key) as [N L].
  split; [exact N|]. split; [exact L|]. split.
  - apply snake_key_fixed; assumption.
  - apply snake_key_fixed.
Qed.

(** ** Converting a whole JSON value *)

Lemma json_induction (P : json -> Prop) :
  P JNull -> (forall b, P (JBool b)) -> (forall q, P (JNumber q)) ->
  (forall s, P (JString s)) ->
  (forall l, Forall P l -> P (JList l)) ->
  (forall d, Forall (fun entry => P (snd entry)) d -> P (JDict d)) ->
  forall data, P data.
Proof.
  intros HN HB HQ HS HL HD. fix IH 1. intros [|b|q|s|l|d].
  - exact HN.
  - apply HB.
  - apply HQ.
  - apply HS.
  - apply HL. induction l as [|x l IHl]; constructor; [apply IH | exact IHl].
  - apply HD. induction d as [|[k v] d IHd]; constructor; [apply IH | exact IHd].
Qed.

Lemma dict_set_keys (d : list (string * json)) (k : string) (v : json) :
  In k (map fst d) -> map fst (dict_set d k v) = map fst d.
Proof.
  induction d as [|[k0 v0] d IH]; cbn [map fst dict_set In]; [tauto|].
  intros H. destruct (String.eqb k0 k) eqn:E; [reflexivity|].
  cbn [map fst]. f_equal. apply IH. destruct H as [H|H]; [|exact H].
  apply String.eqb_neq in E. congruence.
Qed.

Lemma dict_set_new (d : list (string * json)) (k : string) (v : json) :
  ~ In k (map fst d) -> dict_set d k v = d ++ [(k, v)].
Proof.
  induction d as [|[k0 v0] d IH]; cbn [map fst dict_set In]; [reflexivity|].
  intros H. destruct (String.eqb k0 k) eqn:E.
  - apply String.eqb_eq in E. tauto.
  - cbn [app]. f_equal. apply IH. tauto.
Qed.

Lemma dict_set_entries (d : list (string * json)) (k : string) (v : json)
    (P : string * json -> Prop) :
  Forall P d -> (forall k0, String.eqb k0 k = true -> P (k0, v)) ->
  Forall P (dict_set d k v).
Proof.
  intros F Hk. induction F as [|[k0 v0] d H F IH]; cbn [dict_set].
  - constructor; [|constructor]. apply Hk. apply String.eqb_refl.
  - destruct (String.eqb k0 k) eqn:E; constructor; auto.
Qed.

Lemma dict_set_converted (d : list (string * json)) (k : string) (v : json) :
  converted d -> snake_key k = k -> convert_camel_to_snake v = v ->
  converted (dict_set d k v).
Proof.
  intros [N F] Hk Hv. split.
  - destruct (in_dec string_dec k (map fst d)) as [I|I].
    + rewrite dict_set_keys by exact I. exact N.
    + rewrite dict_set_new by exact I. rewrite map_app. cbn [map fst].
      apply NoDup_app. split; [exact N|]. split.
      * intros x Hx Hx'. apply list_elem_of_In in Hx. cbn in Hx'.
        apply list_elem_of_In in Hx'. cbn [In] in Hx'.
        destruct Hx' as [<-|[]]. contradiction.
      * apply NoDup_singleton.
  - apply dict_set_entries; [exact F|]. intros k0 E.
    apply String.eqb_eq in E. subst k0. split; assumption.
Qed.

Lemma fold_converted (d acc : list (string * json)) :
  Forall (fun entry => convert_camel_to_snake (convert_camel_to_snake (snd entry))
                       = convert_camel_to_snake (snd entry)) d ->
  converted acc ->
  converted (fold_left
               (fun result '(key, value) =>
                  dict_set result (snake_key key) (convert_camel_to_snake value))
               d acc).
Proof.
  intros F. revert acc. induction F as [|[k v] d H F IH]; intros acc A; [exact A|].
  cbn [fold_left]. apply IH. apply dict_set_converted; [exact A| |exact H].
  apply snake_key_fixed; apply snake_key_normal.
Qed.

Lemma fold_of_converted (d acc : list (string * json)) :
  converted (acc ++ d) ->
  fold_left
    (fun result '(key, value) =>
       dict_set result (snake_key key) (convert_camel_to_snake value))
    d acc
  = acc ++ d.
Proof.
  revert acc. induction d as [|[k v] d IH]; intros acc C.
  - rewrite app_nil_r. reflexivity.
  - cbn [fold_left]. destruct C as [N F].
    assert (E : Forall (fun entry => snake_key (fst entry) = fst entry
                          /\ convert_camel_to_snake (snd entry) = snd entry)
                  [(k, v)]).
    { apply Forall_app in F. destruct F as [_ F]. inversion F; subst.
      constructor; [assumption|constructor]. }
    inversion E as [|? ? [Ek Ev] _]; subst. cbn [fst snd] in Ek, Ev.
    rewrite Ek, Ev. rewrite dict_set_new.
    + rewrite IH; rewrite <- app_assoc; [reflexivity|]. split; assumption.
    + rewrite map_app in N. cbn [map fst] in N.
      apply NoDup_app in N. destruct N as (_ & D & _).
      intros I. apply (D k); [apply list_elem_of_In; exact I|]. left.
Qed.

Lemma dict_set_length (d : list (string * json)) (k : string) (v : json) :
  (length (dict_set d k v) <= S (length d))%nat.
Proof.
  induction d as [|[k0 v0] d IH]; cbn [dict_set length]; [lia|].
  destruct (String.eqb k0 k); cbn [length]; lia.
Qed.

Lemma fold_dict_length (d acc : list (string * json)) :
  (length (fold_left
             (fun result '(key, value) =>
                dict_set result (snake_key key) (convert_camel_to_snake value))
             d acc) <= length acc + length d)%nat.
Proof.
  revert acc. induction d as [|[k v] d IH]; intros acc.
  - cbn. lia.
  - cbn [fold_left length]. etransitivity; [apply IH|].
    pose proof (dict_set_length acc (snake_key k) (convert_camel_to_snake v)). lia.
Qed.

Lemma dict_get_set (d : list (string * json)) (k k' : string) (v : json) :
  dict_get (dict_set d k v) k' = if String.eqb k k' then Some v else dict_get d k'.
Proof.
  unfold dict_get.
  induction d as [|[k0 v0] d IH]; cbn [dict_set List.find fst].
  - destruct (String.eqb k k'); reflexivity.
  - destruct (String.eqb k0 k) eqn:E; cbn [List.find fst].
    + apply String.eqb_eq in E. subst k0.
      destruct (String.eqb k k'); reflexivity.
    + destruct (String.eqb k0 k') eqn:E'; [|exact IH].
      apply String.eqb_eq in E'. subst k0.
      rewrite String.eqb_sym in E. rewrite E. reflexivity.
Qed.

Lemma last_with_key_cons (k key : string) (value : json) (d : list (string * json)) :
  last_with_key k ((key, value) :: d)
  = match last_with_key k d with
    | Some v => Some v
    | None => if String.eqb (snake_key key) k then Some value else None
    end.
Proof.
  unfold last_with_key. cbn [List.filter fst].
  destruct (String.eqb (snake_key key) k).
  - rewrite last_cons. destruct (last _); reflexivity.
  - destruct (last _); reflexivity.
Qed.

Lemma fold_dict_get (d acc : list (string * json)) (k : string) :
  dict_get (fold_left
              (fun result '(key, value) =>
                 dict_set result (snake_key key) (convert_camel_to_snake value))
              d acc) k
  = match last_with_key k d with
    | Some v => Some (convert_camel_to_snake v)
    | None => dict_get acc k
    end.
Proof.
  revert acc. induction d as [|[key value] d IH]; intros acc; [reflexivity|].
  cbn [fold_left]. rewrite IH, last_with_key_cons, dict_get_set.
  destruct (last_with_key k d); [reflexivity|].
  destruct (String.eqb (snake_key key) k); reflexivity.
Qed.

Lemma convert_dict_converted (d : list (string * json)) :
  Forall (fun entry => convert_camel_to_snake (convert_camel_to_snake (snd entry))
                       = convert_camel_to_snake (snd entry)) d ->
  exists d', convert_camel_to_snake (JDict d) = JDict d' /\ converted d'.
Proof.
  intros F. eexists. split; [reflexivity|].
  apply fold_converted; [exact F|]. split; constructor.
Qed.

Lemma convert_idempotent_all (data : json) :
  convert_camel_to_snake (convert_camel_to_snake data) = convert_camel_to_snake data.
Proof.
  induction data as [|b|q|s|l IH|d IH] using json_induction; try reflexivity.
  - cbn [convert_camel_to_snake]. f_equal. rewrite map_map.
    induction IH as [|x l H _ IHl]; [reflexivity|]. cbn [map]. rewrite H, IHl.
    reflexivity.
  - destruct (convert_dict_converted d IH) as (d' & E & C). rewrite E.
    cbn [convert_camel_to_snake]. f_equal. apply (fold_of_converted d' []). exact C.
Qed.

(** X24.  [convert_camel_to_snake] on a JSON value whose keys are ASCII: it
    is idempotent; a dictionary becomes a dictionary whose keys are distinct
    and in snake case and which has no more entries than the original; what
    it holds under a key [k] is the converted value of the last entry of the
    original whose key becomes [k] in snake case, and nothing when there is
    no such entry (so two keys that convert to the same key are merged, the
    later value winning); a list is converted item by item; any other value
    is returned unchanged. *)
Theorem convert_camel_to_snake_idempotent (data : json) :
  ascii_keys data = true ->
  convert_camel_to_snake (convert_camel_to_snake data) = convert_camel_to_snake data
  /\ (forall d, data = JDict d ->
        exists d', convert_camel_to_snake data = JDict d' /\ converted d'
                   /\ (length d' <= length d)%nat
                   /\ forall k, dict_get d' k
                                = convert_camel_to_snake <$> last_with_key k d)
  /\ (forall l, data = JList l ->
        convert_camel_to_snake data = JList (map convert_camel_to_snake l))
  /\ ((forall d, data <> JDict d) -> (forall l, data <> JList l) ->
      convert_camel_to_snake data = data).
Proof.
  intros _. split; [apply convert_idempotent_all|]. split; [|split].
  - intros d ->.
    assert (F : Forall (fun entry =>
                  convert_camel_to_snake (convert_camel_to_snake (snd entry))
                  = convert_camel_to_snake (snd entry)) d).
    { apply Forall_forall. intros entry _. apply convert_idempotent_all. }
    destruct (convert_dict_converted d F) as (d' & E & C).
    exists d'. split; [exact E|]. split; [exact C|].
    cbn [convert_camel_to_snake] in E. inversion E as [E']. subst d'.
    split; [apply (fold_dict_length d [])|].
    intros k. rewrite (fold_dict_get d [] k).
    destruct (last_with_key k d); reflexivity.
  - intros l ->. reflexivity.
  - intros ND NL. destruct data; try reflexivity.
    + exfalso. exact (NL _ eq_refl).
    + exfalso. exact (ND _ eq_refl).
Qed.

(** ** Downloads *)

Lemma contains_char_false (ch : ascii) (s : string) :
  all_chars (fun c => negb (Ascii.eqb c ch)) s = true ->
  contains (String ch EmptyString) s = false.
Proof.
  induction s as [|c s IH]; [reflexivity|]. cbn [all_chars contains String.prefix].
  intros H. apply andb_true_iff in H. destruct H as [Hc Hs].
  apply negb_true_iff in Hc. rewrite Ascii.eqb_sym in Hc.
  destruct (ascii_dec ch c) as [->|N].
  - rewrite Ascii.eqb_refl in Hc. discriminate.
  - rewrite (IH Hs). reflexivity.
Qed.

Lemma contains_char_true (ch : ascii) (s : string) :
  contains (String ch EmptyString) s = true ->
  all_chars (fun c => negb (Ascii.eqb c ch)) s = false.
Proof.
  intros H. destruct (all_chars _ s) eqn:E; [|reflexivity].
  rewrite (contains_char_false ch s E) in H. discriminate.
Qed.

Lemma contains_char_all (ch : ascii) (s : string) :
  contains (String ch EmptyString) s = false ->
  all_chars (fun c => negb (Ascii.eqb c ch)) s = true.
Proof.
  induction s as [|c s IH]; [reflexivity|]. cbn [all_chars contains String.prefix].
  intros H. apply orb_false_iff in H. destruct H as [Hp Hs].
  rewrite (IH Hs), andb_true_r.
  destruct (ascii_dec ch c) as [->|N].
  - destruct s; discriminate Hp.
  - apply negb_true_iff. apply Ascii.eqb_neq. congruence.
Qed.

Lemma all_chars_app (p : ascii -> bool) (a b : string) :
  all_chars p (a +:+ b) = all_chars p a && all_chars p b.
Proof.
  induction a as [|c a IH]; [reflexivity|].
  change (String c a +:+ b) with (String c (a +:+ b)). cbn [all_chars].
  rewrite IH, andb_assoc. reflexivity.
Qed.

Lemma all_chars_weaken (p q : ascii -> bool) (s : string) :
  (forall c, p c = true -> q c = true) ->
  all_chars p s = true -> all_chars q s = true.
Proof.
  intros I. induction s as [|c s IH]; [reflexivity|]. cbn [all_chars].
  intros H. apply andb_true_iff in H. destruct H as [Hc Hs].
  rewrite (I c Hc), (IH Hs). reflexivity.
Qed.

Lemma all_chars_substring (p : ascii -> bool) (i n : nat) (s : string) :
  all_chars p s = true -> all_chars p (substring i n s) = true.
Proof.
  revert i n. induction s as [|c s IH]; intros i n H.
  - destruct i, n; reflexivity.
  - cbn [all_chars] in H. apply andb_true_iff in H. destruct H as [Hc Hs].
    destruct i as [|i]; [destruct n as [|n]|]; cbn [substring all_chars]; auto.
    rewrite Hc. apply IH. exact Hs.
Qed.

Lemma word_not (ch : ascii) (c : ascii) :
  is_word ch = false -> is_word c = true -> negb (Ascii.eqb c ch) = true.
Proof.
  intros Hch Hc. destruct (Ascii.eqb c ch) eqn:E; [|reflexivity].
  apply Ascii.eqb_eq in E. congruence.
Qed.

Lemma no_dots_in_word_ext (w ext : string) :
  all_chars is_word w = true ->
  contains ".." ("." +:+ ext) = false ->
  contains ".." (w +:+ "." +:+ ext) = false.
Proof.
  intros W E. induction w as [|c w IH]; [exact E|].
  cbn [all_chars] in W. apply andb_true_iff in W. destruct W as [Wc Ww].
  change (String c w +:+ "." +:+ ext) with (String c (w +:+ "." +:+ ext)).
  cbn [contains]. rewrite (IH Ww), orb_false_r.
  cbn [String.prefix]. destruct (ascii_dec "." c) as [<-|N]; [discriminate Wc|reflexivity].
Qed.

Lemma substring_app_tail (w t : string) :
  substring (String.length w) (String.length t) (w +:+ t) = t.
Proof.
  induction w as [|c w IH].
  - cbn [String.length]. change (EmptyString +:+ t) with t.
    induction t as [|c t IHt]; [reflexivity|]. cbn [String.length substring].
    rewrite IHt. reflexivity.
  - change (String c w +:+ t) with (String c (w +:+ t)). cbn [String.length substring].
    exact IH.
Qed.

Lemma string_length_app (a b : string) :
  String.length (a +:+ b) = (String.length a + String.length b)%nat.
Proof.
  induction a as [|c a IH]; [reflexivity|].
  change (String c a +:+ b) with (String c (a +:+ b)). cbn [String.length].
  rewrite IH. reflexivity.
Qed.

Lemma endswith_app (w t suffix : string) :
  String.length t = String.length suffix ->
  endswith (w +:+ t) suffix = String.eqb t suffix.
Proof.
  intros L. unfold endswith. rewrite string_length_app, <- L.
  replace (String.length w + String.length t - String.length t)%nat
    with (String.length w) by lia.
  rewrite substring_app_tail.
  destruct (String.length t <=? String.length w + String.length t)%nat eqn:E;
    [reflexivity|]. apply Nat.leb_gt in E. lia.
Qed.

(** X25.  [download_file] answers with status 400 or 404 or with a file.  It
    leaves the files and the canvas alone; it logs one warning when it
    answers 400 or 404 and nothing when it serves a file.  A name with a
    slash, a backslash or two dots in a row is refused with 400, whether the
    file exists or not; the answer 404 means that nothing exists at
    [DOWNLOAD_DIR / filename].  What is served is [DOWNLOAD_DIR / filename]
    as pathlib builds it: the directory joined with the requested name, or
    the directory itself when the name is empty or ['.']; it exists; the name
    has no separator and no two dots in a row; and the media type is
    [image/png] for a name ending in [.png], [application/pdf] for one ending
    in [.pdf], and [application/octet-stream] otherwise. *)
Theorem download_file_guard (st : Settings) (filename : string) (s : state) :
  exists r s', download_file st filename s = (Ok r, s')
  /\ fs s' = fs s /\ unwritable s' = unwritable s /\ canvas s' = canvas s
  /\ (contains "/" filename = true \/ contains "\" filename = true
      \/ contains ".." filename = true ->
      r = HTTPException 400
      /\ s' = add_log WARNING "[DOWNLOAD] Suspicious filename blocked" s)
  /\ (forall path media_type name,
        r = FileResponse path media_type name ->
        s' = s /\ name = filename /\ path = path_div (DOWNLOAD_DIR st) filename
        /\ is_Some (fs s !! path)
        /\ all_chars (fun c => negb (Ascii.eqb c "/")) filename = true
        /\ all_chars (fun c => negb (Ascii.eqb c "\")) filename = true
        /\ contains ".." filename = false
        /\ (filename <> ""%string -> filename <> "."%string ->
            path = path_join (DOWNLOAD_DIR st) filename)
        /\ media_type = (if endswith filename ".png" then "image/png"
                         else if endswith filename ".pdf" then "application/pdf"
                              else "application/octet-stream")%string)
  /\ (r = HTTPException 404 ->
      fs s !! path_div (DOWNLOAD_DIR st) filename = None
      /\ s' = add_log WARNING "[DOWNLOAD] File not found" s)
  /\ (forall code, r = HTTPException code -> code = 400 \/ code = 404).
Proof.
  unfold download_file.
  destruct (contains ".." filename || contains "/" filename
            || contains "\" filename) eqn:G.
  - do 2 eexists. split; [reflexivity|]. cbn [snd fs unwritable canvas add_log].
    repeat split; intros; try discriminate; auto.
    match goal with H : HTTPException _ = HTTPException _ |- _ => inversion H; auto end.
  - apply orb_false_iff in G. destruct G as [G E3].
    apply orb_false_iff in G. destruct G as [E1 E2].
    unfold mbind at 1, M_bind at 1, Path_exists.
    destruct (fs s !! path_div (DOWNLOAD_DIR st) filename) as [file|] eqn:F.
    + rewrite bool_decide_eq_true_2 by eauto. cbn [negb].
      unfold mbind, M_bind, Path_stat. rewrite F. do 2 eexists.
      split; [reflexivity|].
      split; [reflexivity|]. split; [reflexivity|]. split; [reflexivity|].
      split; [intros [H|[H|H]]; congruence|].
      split; [|split; [discriminate|discriminate]].
      intros path media_type name H. injection H as <- <- <-.
      split; [reflexivity|]. split; [reflexivity|]. split; [reflexivity|].
      split; [rewrite F; eauto|].
      split; [apply contains_char_all; exact E2|].
      split; [apply contains_char_all; exact E3|].
      split; [exact E1|]. split; [|reflexivity].
      intros N0 N1. unfold path_div.
      destruct (String.eqb filename "") eqn:Q0; [apply String.eqb_eq in Q0; congruence|].
      destruct (String.eqb filename ".") eqn:Q1; [apply String.eqb_eq in Q1; congruence|].
      reflexivity.
    + rewrite bool_decide_eq_false_2 by (intros [x Hx]; discriminate Hx). cbn [negb].
      do 2 eexists. split; [reflexivity|]. cbn [snd fs unwritable canvas add_log].
      split; [reflexivity|]. split; [reflexivity|]. split; [reflexivity|].
      split; [intros [H|[H|H]]; congruence|].
      split; [discriminate|]. split; [auto|].
      intros code H. inversion H. auto.
Qed.

Lemma string_app_assoc (a b c : string) : (a +:+ b) +:+ c = a +:+ (b +:+ c).
Proof.
  induction a as [|x a IH]; [reflexivity|].
  change ((String x a +:+ b) +:+ c) with (String x ((a +:+ b) +:+ c)).
  rewrite IH. reflexivity.
Qed.

Lemma download_generated (st : Settings) (timestamp uuid_hex ext media : string)
    (s : state) :
  all_chars is_word timestamp = true -> all_chars is_word uuid_hex = true ->
  all_chars is_word ext = true -> String.length ext = 3%nat ->
  (if String.eqb ("." +:+ ext) ".png" then "image/png"
   else if String.eqb ("." +:+ ext) ".pdf" then "application/pdf"
        else "application/octet-stream")%string = media ->
  let name := "bookmark_" +:+ timestamp +:+ "_" +:+ slice 0 12 uuid_hex +:+ "." +:+ ext in
  is_Some (fs s !! path_join (DOWNLOAD_DIR st) name) ->
  download_file st name s
  = (Ok (FileResponse (path_join (DOWNLOAD_DIR st) name) media name), s).
Proof.
  intros Wt Wu We Le Hm name F.
  set (w := "bookmark_" +:+ timestamp +:+ "_" +:+ slice 0 12 uuid_hex).
  assert (N : name = w +:+ "." +:+ ext).
  { unfold name, w. rewrite !string_app_assoc. reflexivity. }
  assert (W : all_chars is_word w = true).
  { unfold w. rewrite !all_chars_app, Wt.
    unfold slice. rewrite (all_chars_substring _ _ _ _ Wu). reflexivity. }
  assert (D : contains ".." name = false).
  { rewrite N. apply no_dots_in_word_ext; [exact W|].
    change ("." +:+ ext) with (String "." ext). cbn [contains String.prefix].
    destruct ext as [|c ext]; [discriminate Le|].
    cbn [all_chars] in We. apply andb_true_iff in We. destruct We as [Wc We].
    destruct (ascii_dec "." c) as [<-|_]; [discriminate Wc|]. cbn [orb].
    assert (G : forall t, all_chars is_word t = true -> contains ".." t = false).
    { clear. induction t as [|x t IH]; [reflexivity|]. cbn [all_chars contains].
      intros H. apply andb_true_iff in H. destruct H as [Hx Ht].
      rewrite (IH Ht), orb_false_r. cbn [String.prefix].
      destruct (ascii_dec "." x) as [<-|_]; [discriminate Hx|reflexivity]. }
    cbn [contains]. rewrite (G ext We), orb_false_r. cbn [String.prefix].
    destruct (ascii_dec "." c) as [<-|_]; [discriminate Wc|reflexivity]. }
  assert (C : forall ch, is_word ch = false -> Ascii.eqb "." ch = false ->
                contains (String ch EmptyString) name = false).
  { intros ch Hch Hdot. apply contains_char_false. rewrite N, !all_chars_app.
    rewrite (all_chars_weaken is_word _ w (fun c => word_not ch c Hch) W).
    rewrite (all_chars_weaken is_word _ ext (fun c => word_not ch c Hch) We).
    cbn [all_chars]. rewrite Hdot. reflexivity. }
  assert (L4 : String.length ("." +:+ ext) = 4%nat).
  { change ("." +:+ ext) with (String "." ext). cbn [String.length]. rewrite Le.
    reflexivity. }
  assert (P : path_div (DOWNLOAD_DIR st) name = path_join (DOWNLOAD_DIR st) name)
    by reflexivity.
  unfold download_file.
  rewrite D, (C "/"%char eq_refl eq_refl), (C "\"%char eq_refl eq_refl). cbn [orb].
  rewrite P.
  unfold mbind, M_bind, Path_exists. rewrite bool_decide_eq_true_2 by exact F.
  cbn [negb]. unfold Path_stat. destruct F as [file F]. rewrite F.
  assert (E1 : endswith name ".png" = String.eqb ("." +:+ ext) ".png").
  { rewrite N. apply endswith_app. rewrite L4. reflexivity. }
  assert (E2 : endswith name ".pdf" = String.eqb ("." +:+ ext) ".pdf").
  { rewrite N. apply endswith_app. rewrite L4. reflexivity. }
  rewrite E1, E2, Hm. reflexivity.
Qed.

Section Downloads.

Context {pillow : Pillow}.

(** X26.  What [generate_final] writes can be downloaded.  For a time stamp
    and a UUID made of letters, digits and underscores, once [generate_final]
    has returned its two paths, [download_file] on the name of the PNG serves
    that very path as [image/png], and on the name of the PDF serves the
    other path as [application/pdf]. *)
Theorem generated_files_download (st : Settings) (request : GenerateFinalRequest)
    (user_photo_path : option string) (uuid_hex timestamp : string)
    (s s' : state) (a b : string) :
  all_chars is_word timestamp = true -> all_chars is_word uuid_hex = true ->
  generate_final st request user_photo_path uuid_hex timestamp s = (Ok (a, b), s') ->
  exists png_name pdf_name,
    a = path_join (DOWNLOAD_DIR st) png_name
    /\ b = path_join (DOWNLOAD_DIR st) pdf_name
    /\ download_file st png_name s' = (Ok (FileResponse a "image/png" png_name), s')
    /\ download_file st pdf_name s'
       = (Ok (FileResponse b "application/pdf" pdf_name), s').
Proof.
  intros Wt Wu H.
  destruct (generate_final_ok_inv _ _ _ _ _ _ _ _ _ H)
    as (c & s7 & _ & _ & _ & _ & _ & _ & Fa & _ & Ea & Eb & Fb).
  exists ("bookmark_" +:+ timestamp +:+ "_" +:+ slice 0 12 uuid_hex +:+ ".png"),
         ("bookmark_" +:+ timestamp +:+ "_" +:+ slice 0 12 uuid_hex +:+ ".pdf").
  split; [exact Ea|]. split; [exact Eb|]. split.
  - rewrite Ea.
    apply (download_generated st timestamp uuid_hex "png" "image/png" s' Wt Wu);
      try reflexivity.
    change ("." +:+ "png") with ".png"%string. rewrite <- Ea, Fa. eauto.
  - rewrite Eb.
    apply (download_generated st timestamp uuid_hex "pdf" "application/pdf" s' Wt Wu);
      try reflexivity.
    change ("." +:+ "pdf") with ".pdf"%string. rewrite <- Eb. exact Fb.
Qed.

End Downloads.

(** ** A background colour that Pillow refuses *)

Section BadBackground.

Context {pillow : Pillow}.


End BadBackground.

(** ** A text colour that Pillow refuses *)

Section BadTextColour.

Context {pillow : Pillow}.

Lemma horizontal_text_bad_colour (s : text) (area : text_area) (current_y : Z)
    (f : font) (color : string) (alignment : TextAlignment) (st : state) :
  getrgb_ok color = false -> s <> [] ->
  _draw_horizontal_text s area current_y f color alignment st = (Raise ValueError, st).
Proof.
  intros C NE. unfold _draw_horizontal_text.
  destruct (_wrap_text_lines s (area_width area - 20) f) as [|line rest] eqn:E.
  - apply wrap_text_lines_nil in E. contradiction.
  - cbn [fold_M]. unfold mbind at 1, M_bind at 1.
    unfold mbind at 1, M_bind at 1. unfold draw_text at 1.
    cbn [color_ok]. rewrite C. reflexivity.
Qed.

(** X28.  A text colour that Pillow refuses is swallowed.  When the first
    block of a rich text is horizontal, not empty, and has a colour of its
    own that Pillow refuses, [_add_user_text] returns normally: nothing is
    drawn (the canvas is the one it started from), no file is touched, and
    the log receives the warnings of the font search followed by the two
    error entries of the handler.  The bookmark is then generated without
    its text. *)
Theorem rich_text_bad_colour (width height : Z) (layout : LayoutType) (s : text)
    (colors : list string) (rt : RichTextContent)
    (text_position : option TextPosition) (block : TextBlock)
    (rest : list TextBlock) (st : state) :
  blocks rt = block :: rest ->
  style_direction (style block) = HORIZONTAL ->
  block_text block <> [] ->
  style_color (style block) <> EmptyString ->
  getrgb_ok (style_color (style block)) = false ->
  exists warnings,
    _add_user_text width height layout s colors (Some rt) text_position st
    = (Ok tt,
       {| fs := fs st; unwritable := unwritable st;
          log := log st ++ warnings
                 ++ [(ERROR, "Error adding user text"%string);
                     (ERROR, "Full traceback:"%string)];
          canvas := canvas st |})
    /\ Forall (fun entry => fst entry = WARNING) warnings.
Proof.
  intros Hb Hd Ht Hne Hc.
  destruct (load_font_from_first font_paths
              (_get_font_size_pixels (style_font_size (style block))
                 (Z.max 14 (width / 20))) st) as (warnings & Hf & W & _).
  exists warnings. split; [|exact W].
  unfold _add_user_text, try_except. rewrite Hb.
  unfold _add_rich_text. rewrite Hb. cbn [fold_M].
  unfold mbind at 1, M_bind at 1.
  unfold mbind at 1, M_bind at 1.
  unfold mbind at 1, M_bind at 1.
  unfold _load_font. rewrite Hf.
  unfold mbind at 1, M_bind at 1.
  destruct (style_color (style block)) as [|a r] eqn:Ec; [congruence|].
  unfold lift at 1.
  unfold mbind at 1, M_bind at 1. rewrite Hd.
  rewrite horizontal_text_bad_colour by assumption.
  unfold mbind, M_bind, logger, modify, add_log. cbn [fs unwritable log canvas].
  rewrite <- !app_assoc. reflexivity.
Qed.

End BadTextColour.

(** ** More concrete runs *)

Lemma hex_to_rgb_accepts_witness :
  _hex_to_rgb "#FFF" = Raise ValueError
  /\ exists r g b, _hex_to_rgb "#F5F5DC" = Ok (r, g, b)
                   /\ channel r /\ channel g /\ channel b.
Proof.
  split.
  - exact (hex_to_rgb_accepts "#FFF" eq_refl).
  - exact (hex_to_rgb_accepts "#F5F5DC" eq_refl).
Defined.

Lemma hex_to_rgb_reads_six_digits_witness :
  _hex_to_rgb "#F5F5DC80" = _hex_to_rgb "F5F5DC".
Proof.
  exact (proj1 (proj2 (hex_to_rgb_reads_six_digits "F5F5DC" "80" eq_refl))).
Defined.

Lemma lighten_color_never_darker_witness :
  exists c' r' g' b',
    _lighten_color "#4A7C59" 20 = Ok c' /\ _hex_to_rgb c' = Ok (r', g', b')
    /\ 74 <= r' <= 255 /\ 124 <= g' <= 255 /\ 89 <= b' <= 255.
Proof.
  destruct (lighten_color_never_darker "#4A7C59" 20 74 124 89)
    as (c' & r' & g' & b' & L & _ & P & R & G & B & _);
    [lia | reflexivity | reflexivity |].
  exists c', r', g', b'. repeat split; solve [assumption | apply R | apply G | apply B].
Defined.

Lemma interpolate_color_between_witness :
  exists (i : Z) (c1 c2 : string) (r1 g1 b1 r2 g2 b2 r g b : Z),
    0 <= i < 3 /\
    getitem sample_palette_3 i = Ok c1 /\
    getitem sample_palette_3 (Z.min (i + 1) 2) = Ok c2 /\
    _hex_to_rgb c1 = Ok (r1, g1, b1) /\
    _hex_to_rgb c2 = Ok (r2, g2, b2) /\
    _interpolate_color sample_palette_3 (1 # 3) = Ok (r, g, b) /\
    Z.min r1 r2 <= r <= Z.max r1 r2 /\
    Z.min g1 g2 <= g <= Z.max g1 g2 /\
    Z.min b1 b2 <= b <= Z.max b1 b2.
Proof.
  apply (interpolate_color_between sample_palette_3 (1 # 3)).
  - discriminate.
  - repeat constructor.
Defined.

Lemma text_area_default_edges_witness :
  y_start (_get_text_area 708 2125 LAYOUT_VERTICAL None)
  + area_height (_get_text_area 708 2125 LAYOUT_VERTICAL None) = 2125 + 20.
Proof.
  destruct (text_area_default_edges 708 2125 LAYOUT_VERTICAL)
    as (_ & _ & _ & _ & _ & E); [lia | lia | exact E].
Defined.

Lemma font_size_tiers_witness :
  9 <= _get_font_size_pixels SMALL 35
  /\ _get_font_size_pixels LARGE 35 < _get_font_size_pixels EXTRA_LARGE 35.
Proof.
  destruct (font_size_tiers 35) as (A & _ & _ & _ & B & _); [lia|].
  split; assumption.
Defined.

Lemma generate_final_image_geometry_witness :
  exists (s' : state) (content : picture),
    fs s' !! sample_png
    = Some (ImageFile "PNG" 300
              (Paste (New "RGB" 778 2195 (ColorName "#F5F5DC")) content 35 35))
    /\ image_size content = (708, 2125).
Proof.
  destruct generate_final_writes_both as (s' & Run & _).
  destruct (@generate_final_image_geometry fixed_pitch _ _ _ _ _ _ _ _ _ Run)
    as (base & content & c & F & Hc & -> & Sz & _).
  injection Hc as <-.
  exists s', content. split; [exact F | exact Sz].
Defined.

Lemma generate_final_missing_photo_witness :
  @generate_final fixed_pitch sample_settings sample_request
    (Some "temp/missing.jpg"%string) "0123456789abcdef0123456789abcdef"
    "20260101_120000" (empty_state (New "RGB" 0 0 (ColorRGB (0, 0, 0))))
  = @generate_final fixed_pitch sample_settings sample_request None
      "0123456789abcdef0123456789abcdef" "20260101_120000"
      (empty_state (New "RGB" 0 0 (ColorRGB (0, 0, 0)))).
Proof.
  apply (@generate_final_missing_photo fixed_pitch). right. apply lookup_empty.
Defined.

Lemma draw_gradient_linear_witness :
  exists s',
    @_draw_gradient fixed_pitch GRADIENT_VERTICAL ["#000000"; "#FFFFFF"]%string
      (empty_state (New "RGB" 3 2 (ColorRGB (0, 0, 0))))
    = (Ok tt, s')
    /\ image_size (canvas s') = (3, 2).
Proof.
  destruct (@draw_gradient_linear fixed_pitch GRADIENT_VERTICAL
              ["#000000"; "#FFFFFF"]%string
              (empty_state (New "RGB" 3 2 (ColorRGB (0, 0, 0)))))
    as (s' & R & (Sz & _) & _); [discriminate | repeat constructor | discriminate |].
  exists s'. split; [exact R | exact Sz].
Defined.

Lemma draw_gradient_radial_witness :
  @_draw_gradient fixed_pitch RADIAL ["#000000"; "#FFFFFF"]%string
    (empty_state (New "RGB" 1 1 (ColorRGB (0, 0, 0))))
  = (Raise ZeroDivisionError, empty_state (New "RGB" 1 1 (ColorRGB (0, 0, 0)))).
Proof.
  apply (@draw_gradient_radial fixed_pitch).
  - reflexivity.
  - intros n Hn. cbn [math_sqrt fixed_pitch]. rewrite Qfloor_Z.
    apply inject_Z_pos. apply Z.sqrt_pos in Hn. lia.
  - reflexivity.
Defined.

Lemma fit_image_to_zone_crop_witness :
  _fit_image_to_zone (Decoded "RGB" 4000 3000 1) 708 2125
  = resize (Decoded "RGB" 4000 3000 1) 708 2125
  \/ exists left upper right lower,
       _fit_image_to_zone (Decoded "RGB" 4000 3000 1) 708 2125
       = resize (Crop (Decoded "RGB" 4000 3000 1) left upper right lower) 708 2125
       /\ 0 <= left <= right /\ right <= 4000 /\ 0 <= upper <= lower /\ lower <= 3000
       /\ ((upper = 0 /\ lower = 3000 /\ left <= 4000 - right <= left + 1)
           \/ (left = 0 /\ right = 4000 /\ upper <= 3000 - lower <= upper + 1)).
Proof.
  apply (fit_image_to_zone_crop (Decoded "RGB" 4000 3000 1) 708 2125);
    vm_compute; discriminate.
Defined.

Lemma apply_layout_full_bleed_witness :
  emits (@_apply_layout fixed_pitch 170 510 FULL_BLEED sample_palette true)
        (map (fun y =>
                Line [(0, y); (170, y)]
                  (ColorRGB (full_bleed_shade 510 245 y, full_bleed_shade 510 245 y,
                             full_bleed_shade 510 220 y)) 0)
             (range 510)).
Proof.
  apply (@apply_layout_full_bleed fixed_pitch 170 510 sample_palette true
           "#F5F5DC" 245 245 220); reflexivity.
Defined.

Example snake_key_examples :
  snake_key "backgroundType" = "background_type"%string
  /\ snake_key "imagePath" = "image_path"%string
  /\ snake_key "TopMargin" = "top_margin"%string
  /\ snake_key "imageURL" = "image_u_r_l"%string
  /\ snake_key "fit_mode" = "fit_mode"%string.
Proof. repeat split. Qed.

Lemma snake_key_normal_form_witness :
  snake_key (snake_key "backgroundType") = snake_key "backgroundType".
Proof.
  exact (proj1 (proj2 (proj2 (snake_key_normal_form "backgroundType" eq_refl)))).
Defined.

Lemma convert_camel_to_snake_idempotent_witness :
  convert_camel_to_snake (convert_camel_to_snake sample_background_json)
  = convert_camel_to_snake sample_background_json.
Proof.
  exact (proj1 (convert_camel_to_snake_idempotent sample_background_json eq_refl)).
Defined.

Example convert_later_value_wins :
  convert_camel_to_snake
    (JDict [("fitMode", JString "cover"); ("opacity", JNumber 1);
            ("fit_mode", JString "contain")]%string)
  = JDict [("fit_mode", JString "contain"); ("opacity", JNumber 1)]%string.
Proof. reflexivity. Qed.

Example convert_sample_background :
  convert_camel_to_snake sample_background_json
  = JDict [("background_type", JString "image");
           ("image", JDict [("image_path", JString "temp/bg.png");
                            ("opacity", JNumber (1 # 2));
                            ("fit_mode", JString "cover")])]%string.
Proof. reflexivity. Qed.

Example download_traversal_refused :
  download_file sample_settings "../secret.png" bad_upload
  = (Ok (HTTPException 400),
     add_log WARNING "[DOWNLOAD] Suspicious filename blocked" bad_upload).
Proof. reflexivity. Qed.

Example download_missing_file :
  download_file sample_settings "missing.pdf" bad_upload
  = (Ok (HTTPException 404), add_log WARNING "[DOWNLOAD] File not found" bad_upload).
Proof. vm_compute. reflexivity. Qed.

Example download_dot_is_the_directory :
  let s := {| fs := {[ "downloads"%string := OtherFile ]}; unwritable := ∅; log := [];
              canvas := New "RGB" 0 0 (ColorRGB (0, 0, 0)) |} in
  download_file sample_settings "." s
  = (Ok (FileResponse "downloads" "application/octet-stream" "."), s).
Proof. vm_compute. reflexivity. Qed.

Lemma generated_files_download_witness :
  exists (s' : state) (png_name : string),
    download_file sample_settings png_name s'
    = (Ok (FileResponse sample_png "image/png" png_name), s').
Proof.
  destruct generate_final_writes_both as (s' & Run & _).
  destruct (@generated_files_download fixed_pitch _ _ _ _ _ _ _ _ _
              (eq_refl : all_chars is_word "20260101_120000" = true)
              (eq_refl : all_chars is_word "0123456789abcdef0123456789abcdef" = true)
              Run) as (png_name & pdf_name & _ & _ & D & _).
  exists s', png_name. exact D.
Defined.


Lemma rich_text_bad_colour_witness :
  exists warnings,
    @_add_user_text fixed_pitch 708 2125 CENTERED [] sample_palette
      (Some sample_rich_text_bad) None
      (empty_state (New "RGB" 708 2125 (ColorName "#F5F5DC")))
    = (Ok tt,
       {| fs := ∅; unwritable := ∅;
          log := [] ++ warnings
                 ++ [(ERROR, "Error adding user text"%string);
                     (ERROR, "Full traceback:"%string)];
          canvas := New "RGB" 708 2125 (ColorName "#F5F5DC") |})
    /\ Forall (fun entry => fst entry = WARNING) warnings.
Proof.
  apply (@rich_text_bad_colour fixed_pitch 708 2125 CENTERED [] sample_palette
           sample_rich_text_bad None
           {| block_text := [72; 105]%N;
              style := {| style_font_size := MEDIUM; font_weight := "normal";
                          font_style := "normal"; style_color := "notacolor";
                          style_alignment := CENTER;
                          style_direction := HORIZONTAL |} |} []
           (empty_state (New "RGB" 708 2125 (ColorName "#F5F5DC"))));
    solve [reflexivity | discriminate].
Defined.
